(** * Wire web application: verification-state handler, call entity and
      backend request queue

    A shallow embedding of three classes of the web application:

    - [ConversationVerificationStateHandler] (conversation verification),
    - [CallEntity] (the call-session controller: state, participants,
      group-check timers, panning),
    - [BackendClient] (the request queue and its connectivity guard).

    JavaScript objects are records, enums are inductive types, arrays are
    lists, promises are settled results threaded through an explicit state,
    [number]s that carry fractions are IEEE binary64 floats, and the calls
    into collaborators that are not part of these classes are recorded in an
    effect trace. *)

From Stdlib Require Import ZArith List String Bool Lia PeanoNat.
From Stdlib Require Import QArith Lqa.
From Stdlib Require Import Floats Uint63.
From Stdlib Require Import Sorting.Permutation Sorting.Sorted.
Import ListNotations.

Set Implicit Arguments.

Local Open Scope string_scope.
Local Open Scope Z_scope.
Local Open Scope list_scope.

(* ================================================================== *)
(** * Part I: definitions *)
(* ================================================================== *)

(** ** Promises

    A promise chain runs to completion on the single-threaded event loop; it
    is modelled by the state it leaves behind together with the way it
    settled.  A rejection does not roll the state back. *)

Inductive Settled (E A : Type) : Type :=
| Resolved (value : A)
| Rejected (reason : E).

Arguments Resolved {E A} value.
Arguments Rejected {E A} reason.

Definition Async (S E A : Type) : Type := S -> Settled E A * S.

Module AsyncOps.

Definition resolve {S E A} (a : A) : Async S E A := fun s => (Resolved a, s).

Definition reject {S E A} (e : E) : Async S E A := fun s => (Rejected e, s).

(** [promise.then(k)] *)
Definition then_ {S E A B} (p : Async S E A) (k : A -> Async S E B)
  : Async S E B :=
  fun s =>
    match p s with
    | (Resolved a, s') => k a s'
    | (Rejected e, s') => (Rejected e, s')
    end.

(** [promise.catch(h)] *)
Definition catch_ {S E A} (p : Async S E A) (h : E -> Async S E A)
  : Async S E A :=
  fun s =>
    match p s with
    | (Resolved a, s') => (Resolved a, s')
    | (Rejected e, s') => h e s'
    end.

(** a synchronous statement that only changes the state *)
Definition exec {S E} (f : S -> S) : Async S E unit :=
  fun s => (Resolved tt, f s).

(** reading the state *)
Definition gets {S E A} (f : S -> A) : Async S E A :=
  fun s => (Resolved (f s), s).

End AsyncOps.

Declare Scope async_scope.
Delimit Scope async_scope with async.
Notation "x <- p ;; k" := (AsyncOps.then_ p (fun x => k))
  (at level 61, p at next level, right associativity) : async_scope.
Notation "p ;;; k" := (AsyncOps.then_ p (fun _ => k))
  (at level 61, right associativity) : async_scope.

(** ** JavaScript coercions used by the source *)

Module JS.

(** [0 + b] for a boolean [b]: [true] is [1], [false] is [0]. *)
Definition ToNumber (b : bool) : Z := if b then 1 else 0.

(** Truthiness of an integer-valued number. *)
Definition truthy (n : Z) : bool := negb (n =? 0).

(** Truthiness of a string ([''] is falsy). *)
Definition truthy_string (s : string) : bool :=
  match s with EmptyString => false | _ => true end.

(** Truthiness of a value that may be [undefined]. *)
Definition defined {A} (o : option A) : bool :=
  match o with Some _ => true | None => false end.

End JS.

(* ------------------------------------------------------------------ *)
(** ** ConversationVerificationStateHandler *)
(* ------------------------------------------------------------------ *)

Module ConversationVerificationState.
Inductive t : Set := UNVERIFIED | VERIFIED | DEGRADED.

Definition eqb (a b : t) : bool :=
  match a, b with
  | UNVERIFIED, UNVERIFIED | VERIFIED, VERIFIED | DEGRADED, DEGRADED => true
  | _, _ => false
  end.
End ConversationVerificationState.

Module VerificationMessageType.
Inductive t : Set := NEW_DEVICE | NEW_MEMBER | UNVERIFIED | VERIFIED.

Definition eqb (a b : t) : bool :=
  match a, b with
  | NEW_DEVICE, NEW_DEVICE | NEW_MEMBER, NEW_MEMBER
  | UNVERIFIED, UNVERIFIED | VERIFIED, VERIFIED => true
  | _, _ => false
  end.
End VerificationMessageType.

Module VerificationHandler.

(** The fields of a conversation entity the handler reads and writes.
    [is_verified] is a computed observable that can be [undefined]. *)
Record Conversation : Type := {
  id : string;
  selfUserId : string;
  verification_state : ConversationVerificationState.t;
  is_verified : option bool
}.

Definition set_verification_state (c : Conversation)
           (v : ConversationVerificationState.t) : Conversation :=
  {| id := id c; selfUserId := selfUserId c;
     verification_state := v; is_verified := is_verified c |}.

(** Events of [z.conversation.EventBuilder]; the identifier is a fresh
    random uuid and the date is derived from the server timestamp by the
    conversation, both outside the handler. *)
Inductive ClientEventType : Set := CONVERSATION_VERIFICATION.

Record VerificationEvent : Type := {
  conversation : string;
  data_type : VerificationMessageType.t;
  data_userIds : list string;
  from : string;
  time : Z;
  type : ClientEventType
}.

(** [EventBuilder.buildAllVerified] *)
Definition buildAllVerified (c : Conversation) (currentTimestamp : Z)
  : VerificationEvent :=
  {| conversation := id c;
     data_type := VerificationMessageType.VERIFIED;
     data_userIds := [];
     from := selfUserId c;
     time := currentTimestamp;
     type := CONVERSATION_VERIFICATION |}.

(** [EventBuilder.buildDegraded] *)
Definition buildDegraded (c : Conversation) (userIds : list string)
           (ty : VerificationMessageType.t) (currentTimestamp : Z)
  : VerificationEvent :=
  {| conversation := id c;
     data_type := ty;
     data_userIds := userIds;
     from := selfUserId c;
     time := currentTimestamp;
     type := CONVERSATION_VERIFICATION |}.

(** What the handler can reach: the conversation entity it was handed, the
    events given to [eventRepository.injectEvent] (oldest first), the lines
    written to the logger and the server time. *)
Record Handler : Type := {
  conversationEntity : Conversation;
  injected : list VerificationEvent;
  logged : list string;
  serverTimestamp : Z
}.

Definition with_conversation (h : Handler) (c : Conversation) : Handler :=
  {| conversationEntity := c; injected := injected h;
     logged := logged h; serverTimestamp := serverTimestamp h |}.

Definition injectEvent (h : Handler) (e : VerificationEvent) : Handler :=
  {| conversationEntity := conversationEntity h;
     injected := injected h ++ [e];
     logged := logged h; serverTimestamp := serverTimestamp h |}.

Definition log (h : Handler) (line : string) : Handler :=
  {| conversationEntity := conversationEntity h; injected := injected h;
     logged := logged h ++ [line]; serverTimestamp := serverTimestamp h |}.

(** The outcome of a synchronous method: it returns ([undefined] is
    [None]) or throws an [Error] with a message. *)
Inductive Completion (A : Type) : Type :=
| Returned (value : option A)
| Thrown (message : string).

Arguments Returned {A} value.
Arguments Thrown {A} message.

(** [_willChangeToDegraded(conversationEntity, shouldShowDegradationWarning)] *)
Definition _willChangeToDegraded (h : Handler)
           (shouldShowDegradationWarning : bool) : bool * Handler :=
  let state := verification_state (conversationEntity h) in
  let isDegraded :=
    ConversationVerificationState.eqb state ConversationVerificationState.DEGRADED in
  if isDegraded then (false, h)
  else
    let isStateVerified :=
      ConversationVerificationState.eqb state ConversationVerificationState.VERIFIED in
    let isConversationUnverified :=
      match is_verified (conversationEntity h) with
      | Some false => true
      | _ => false
      end in
    if isStateVerified && isConversationUnverified then
      let h1 :=
        with_conversation h
          (set_verification_state (conversationEntity h)
             (if shouldShowDegradationWarning
              then ConversationVerificationState.DEGRADED
              else ConversationVerificationState.UNVERIFIED)) in
      (true, log h1 ("Verification of conversation '" ++ id (conversationEntity h)
                       ++ "' changed to degraded"))
    else (false, h).

(** [_willChangeToVerified(conversationEntity)] *)
Definition _willChangeToVerified (h : Handler) : bool * Handler :=
  let state := verification_state (conversationEntity h) in
  let isStateVerified :=
    ConversationVerificationState.eqb state ConversationVerificationState.VERIFIED in
  if isStateVerified then (false, h)
  else
    let isConversationVerified :=
      match is_verified (conversationEntity h) with
      | Some true => true
      | _ => false
      end in
    if isConversationVerified then
      let h1 :=
        with_conversation h
          (set_verification_state (conversationEntity h)
             ConversationVerificationState.VERIFIED) in
      (true, log h1 ("Verification state of conversation '"
                       ++ id (conversationEntity h) ++ "' changed to verified"))
    else (false, h).

(** [_checkChangeToVerified(conversationEntity)] *)
Definition _checkChangeToVerified (h : Handler) : Completion bool * Handler :=
  let '(changes, h1) := _willChangeToVerified h in
  if changes then
    let currentTimestamp := serverTimestamp h1 in
    let allVerifiedEvent := buildAllVerified (conversationEntity h1) currentTimestamp in
    (Returned (Some true), injectEvent h1 allVerifiedEvent)
  else (Returned None, h1).

(** [_checkChangeToDegraded(conversationEntity, userIds, type)] *)
Definition _checkChangeToDegraded (h : Handler) (userIds : list string)
           (ty : VerificationMessageType.t) : Completion bool * Handler :=
  let shouldShowDegradationWarning :=
    negb (VerificationMessageType.eqb ty VerificationMessageType.UNVERIFIED) in
  let '(isConversationDegraded, h1) :=
    _willChangeToDegraded h shouldShowDegradationWarning in
  if isConversationDegraded then
    if negb (JS.truthy (Z.of_nat (List.length userIds))) then
      let h2 :=
        with_conversation h1
          (set_verification_state (conversationEntity h1)
             ConversationVerificationState.VERIFIED) in
      (Thrown "Conversation degraded without affected users", h2)
    else
      let currentTimestamp := serverTimestamp h1 in
      let event := buildDegraded (conversationEntity h1) userIds ty currentTimestamp in
      (Returned (Some true), injectEvent h1 event)
  else (Returned None, h1).

(** *** The handlers of the events

    The methods that are handed a conversation entity work on it directly;
    their return value is dropped. *)

Definition dropped {A : Type} (r : Completion A * Handler) : Completion A * Handler :=
  match r with
  | (Returned _, h) => (Returned None, h)
  | (Thrown message, h) => (Thrown message, h)
  end.

(** [onConversationCreate(conversationEntity)] *)
Definition onConversationCreate (h : Handler) : Completion bool * Handler :=
  dropped (_checkChangeToVerified h).

(** [onMemberJoined(conversationEntity, userIds)] *)
Definition onMemberJoined (h : Handler) (userIds : list string)
  : Completion bool * Handler :=
  dropped (_checkChangeToDegraded h userIds VerificationMessageType.NEW_MEMBER).

(** [onMemberLeft(conversationEntity)] *)
Definition onMemberLeft (h : Handler) : Completion bool * Handler :=
  dropped (_checkChangeToVerified h).

(** The other handlers look the conversations up in the conversation
    repository.  A conversation entity of the repository is an object; it
    is identified by its position in [filtered_conversations()]. *)
Record ConversationEntity : Type := {
  entity : Conversation;
  removed_from_conversation : bool;
  participating_user_ids : list string
}.

Definition with_entity (c : ConversationEntity) (e : Conversation) : ConversationEntity :=
  {| entity := e;
     removed_from_conversation := removed_from_conversation c;
     participating_user_ids := participating_user_ids c |}.

(** The conversation repository with the id of its self user, and what the
    handler shares between the conversations: the event repository, the
    logger and the server time. *)
Record Repository : Type := {
  filtered_conversations : list ConversationEntity;
  repository_selfUserId : string;
  repository_injected : list VerificationEvent;
  repository_logged : list string;
  repository_serverTimestamp : Z
}.

Fixpoint update_at {A : Type} (i : nat) (f : A -> A) (l : list A) : list A :=
  match l, i with
  | [], _ => []
  | a :: rest, O => f a :: rest
  | a :: rest, S j => a :: update_at j f rest
  end.

(** The handler looking at one conversation entity of the repository. *)
Definition focus (r : Repository) (c : ConversationEntity) : Handler :=
  {| conversationEntity := entity c;
     injected := repository_injected r;
     logged := repository_logged r;
     serverTimestamp := repository_serverTimestamp r |}.

Definition store (i : nat) (h : Handler) (r : Repository) : Repository :=
  {| filtered_conversations :=
       update_at i (fun c => with_entity c (conversationEntity h))
                 (filtered_conversations r);
     repository_selfUserId := repository_selfUserId r;
     repository_injected := injected h;
     repository_logged := logged h;
     repository_serverTimestamp := serverTimestamp h |}.

(** A method of the handler called with the conversation entity at
    position [i]. *)
Definition on_entity {A : Type} (method : Handler -> Completion A * Handler)
           (i : nat) (r : Repository) : Completion A * Repository :=
  match nth_error (filtered_conversations r) i with
  | Some c => let '(result, h) := method (focus r c) in (result, store i h r)
  | None => (Returned None, r)
  end.

(** [_.contains(list, item)] of underscore *)
Definition contains (l : list string) (item : string) : bool :=
  existsb (String.eqb item) l.

(** [_.intersection(array, other)] of underscore: the values of [array]
    that are also in [other], each of them once, in the order of [array]. *)
Fixpoint intersection_from (result array other : list string) : list string :=
  match array with
  | [] => result
  | item :: rest =>
      if contains result item then intersection_from result rest other
      else if contains other item then intersection_from (result ++ [item]) rest other
      else intersection_from result rest other
  end.

Definition intersection (array other : list string) : list string :=
  intersection_from [] array other.

Record ActiveConversationInfo : Type := {
  info_conversationEntity : nat;
  info_userIds : list string
}.

(** [array.map((item, index) => ...)], counting the positions from [i] *)
Fixpoint map_indexed {A B : Type} (f : nat -> A -> B) (i : nat) (l : list A) : list B :=
  match l with
  | [] => []
  | a :: rest => f i a :: map_indexed f (S i) rest
  end.

(** [array.filter(item => !!item)] on an array with [undefined] entries *)
Fixpoint defined_only {A : Type} (l : list (option A)) : list A :=
  match l with
  | [] => []
  | Some a :: rest => a :: defined_only rest
  | None :: rest => defined_only rest
  end.

(** [_getActiveConversationsWithUsers(userIds)] *)
Definition _getActiveConversationsWithUsers (r : Repository) (userIds : list string)
  : list ActiveConversationInfo :=
  defined_only
    (map_indexed
       (fun i conversationEntity =>
          if negb (removed_from_conversation conversationEntity) then
            let selfUserId := repository_selfUserId r in
            let userIdsInConversation :=
              participating_user_ids conversationEntity ++ [selfUserId] in
            let matchingUserIds := intersection userIdsInConversation userIds in
            if JS.truthy (Z.of_nat (List.length matchingUserIds))
            then Some {| info_conversationEntity := i;
                         info_userIds := matchingUserIds |}
            else None
          else None)
       0%nat (filtered_conversations r)).

(** [array.forEach(callback)]: an exception of the callback ends the loop
    and is thrown on. *)
Fixpoint forEach {A : Type}
         (callback : A -> Repository -> Completion bool * Repository)
         (array : list A) (r : Repository) : Completion bool * Repository :=
  match array with
  | [] => (Returned None, r)
  | item :: rest =>
      match callback item r with
      | (Thrown message, r') => (Thrown message, r')
      | (Returned _, r') => forEach callback rest r'
      end
  end.

(** The callback of [onClientVerificationChanged] and of [onClientsUpdated],
    which differ in the type of the degradation only. *)
Definition verified_else_degraded (ty : VerificationMessageType.t)
           (info : ActiveConversationInfo) (r : Repository)
  : Completion bool * Repository :=
  let '(isStateChange, r1) :=
    on_entity _checkChangeToVerified (info_conversationEntity info) r in
  match isStateChange with
  | Thrown message => (Thrown message, r1)
  | Returned (Some true) => (Returned None, r1)
  | Returned _ =>
      on_entity (fun h => _checkChangeToDegraded h (info_userIds info) ty)
                (info_conversationEntity info) r1
  end.

(** [onClientVerificationChanged(userId)] *)
Definition onClientVerificationChanged (userId : string) (r : Repository)
  : Completion bool * Repository :=
  forEach (verified_else_degraded VerificationMessageType.UNVERIFIED)
          (_getActiveConversationsWithUsers r [userId]) r.

(** [onClientsAdded(userIds)] *)
Definition onClientsAdded (userIds : list string) (r : Repository)
  : Completion bool * Repository :=
  forEach
    (fun info r0 =>
       on_entity
         (fun h => _checkChangeToDegraded h (info_userIds info)
                                          VerificationMessageType.NEW_DEVICE)
         (info_conversationEntity info) r0)
    (_getActiveConversationsWithUsers r userIds) r.

(** [onClientAdded(userId)] *)
Definition onClientAdded (userId : string) (r : Repository)
  : Completion bool * Repository :=
  onClientsAdded [userId] r.

(** [onClientRemoved(userId)] *)
Definition onClientRemoved (userId : string) (r : Repository)
  : Completion bool * Repository :=
  forEach
    (fun info r0 => on_entity _checkChangeToVerified (info_conversationEntity info) r0)
    (_getActiveConversationsWithUsers r [userId]) r.

(** [onClientsUpdated(userId)] *)
Definition onClientsUpdated (userId : string) (r : Repository)
  : Completion bool * Repository :=
  forEach (verified_else_degraded VerificationMessageType.NEW_DEVICE)
          (_getActiveConversationsWithUsers r [userId]) r.

(** The verification state a conversation is left in by a change that
    first looks for a verification and then for a degradation of the kind
    [ty]. *)
Definition settled_state (ty : VerificationMessageType.t) (c : Conversation)
  : ConversationVerificationState.t :=
  match is_verified c, verification_state c with
  | Some true, _ => ConversationVerificationState.VERIFIED
  | Some false, ConversationVerificationState.VERIFIED =>
      if VerificationMessageType.eqb ty VerificationMessageType.UNVERIFIED
      then ConversationVerificationState.UNVERIFIED
      else ConversationVerificationState.DEGRADED
  | _, s => s
  end.

(** The state it is left in by a change that only looks for a
    verification, and by one that only looks for a degradation. *)
Definition verified_state (c : Conversation) : ConversationVerificationState.t :=
  match is_verified c with
  | Some true => ConversationVerificationState.VERIFIED
  | _ => verification_state c
  end.

Definition degraded_state (ty : VerificationMessageType.t) (c : Conversation)
  : ConversationVerificationState.t :=
  match is_verified c, verification_state c with
  | Some false, ConversationVerificationState.VERIFIED =>
      if VerificationMessageType.eqb ty VerificationMessageType.UNVERIFIED
      then ConversationVerificationState.UNVERIFIED
      else ConversationVerificationState.DEGRADED
  | _, s => s
  end.

(** The users of [userIds] that take part in the conversation [c], the
    self user included; none when the self user was removed from it. *)
Definition matching (r : Repository) (userIds : list string) (c : ConversationEntity)
  : list string :=
  if removed_from_conversation c then []
  else intersection (participating_user_ids c ++ [repository_selfUserId r]) userIds.

(** The conversations after a change that leaves the conversations of the
    users [userIds] in the state [next]. *)
Definition conversations_after (next : Conversation -> ConversationVerificationState.t)
           (r : Repository) (userIds : list string) : list ConversationEntity :=
  map (fun c =>
         match matching r userIds c with
         | [] => c
         | _ :: _ => with_entity c (set_verification_state (entity c) (next (entity c)))
         end)
      (filtered_conversations r).

(** The entry of [_getActiveConversationsWithUsers] for the conversation
    [c] at position [i]. *)
Definition entry (r : Repository) (userIds : list string) (i : nat)
           (c : ConversationEntity) : option ActiveConversationInfo :=
  match matching r userIds c with
  | [] => None
  | x :: l => Some {| info_conversationEntity := i; info_userIds := x :: l |}
  end.

(** A callback of [forEach] that does not throw and leaves the conversation
    it is called for in the state [next]. *)
Definition settles (next : Conversation -> ConversationVerificationState.t)
           (cb : ActiveConversationInfo -> Repository -> Completion bool * Repository)
  : Prop :=
  forall info r0 c,
    info_userIds info <> [] ->
    nth_error (filtered_conversations r0) (info_conversationEntity info) = Some c ->
    exists v r1,
      cb info r0 = (Returned v, r1)
      /\ filtered_conversations r1
         = update_at (info_conversationEntity info)
                     (fun c => with_entity c (set_verification_state (entity c)
                                                                     (next (entity c))))
                     (filtered_conversations r0)
      /\ repository_selfUserId r1 = repository_selfUserId r0.

End VerificationHandler.

(* ------------------------------------------------------------------ *)
(** ** Numbers

    Integer-valued quantities (array lengths and indices, timer delays,
    hashes) are integers.  The panning is a fraction and is computed in
    IEEE binary64, like every JavaScript [number]; the same arithmetic
    expression can also be read in exact rational arithmetic. *)
(* ------------------------------------------------------------------ *)

Class NumberOps (num : Type) : Type := {
  of_nat : nat -> num;
  literal : Z -> num;
  add : num -> num -> num;
  sub : num -> num -> num;
  mul : num -> num -> num;
  div : num -> num -> num;
  opp : num -> num
}.

Definition float_of_Z (z : Z) : float :=
  if z <? 0 then PrimFloat.opp (PrimFloat.of_uint63 (Uint63.of_Z (- z)))
  else PrimFloat.of_uint63 (Uint63.of_Z z).

(** What the browser computes. *)
#[export] Instance binary64 : NumberOps float := {
  of_nat n := float_of_Z (Z.of_nat n);
  literal z := float_of_Z z;
  add := PrimFloat.add;
  sub := PrimFloat.sub;
  mul := PrimFloat.mul;
  div := PrimFloat.div;
  opp := PrimFloat.opp
}.

(** The same expressions without rounding. *)
#[export] Instance exact : NumberOps Q := {
  of_nat n := inject_Z (Z.of_nat n);
  literal z := inject_Z z;
  add := Qplus;
  sub := Qminus;
  mul := Qmult;
  div := Qdiv;
  opp := Qopp
}.

(* ------------------------------------------------------------------ *)
(** ** Enumerations of the calling module *)
(* ------------------------------------------------------------------ *)

Module CALL_STATE.
Inductive t : Set :=
| UNKNOWN | INCOMING | OUTGOING | CONNECTING
| ONGOING | DISCONNECTING | REJECTED | ENDED.

Definition eqb (a b : t) : bool :=
  match a, b with
  | UNKNOWN, UNKNOWN | INCOMING, INCOMING | OUTGOING, OUTGOING
  | CONNECTING, CONNECTING | ONGOING, ONGOING
  | DISCONNECTING, DISCONNECTING | REJECTED, REJECTED | ENDED, ENDED => true
  | _, _ => false
  end.

(** [Array.prototype.includes] on an array of states *)
Definition includes (states : list t) (s : t) : bool := existsb (eqb s) states.
End CALL_STATE.

Module TERMINATION_REASON.
(** The members named by the call entity; [OTHER] stands for every other
    member of the enumeration. *)
Inductive t : Set :=
| COMPLETED | CONNECTION_DROP | GROUP_CHECK | MEMBER_LEAVE
| MISSED | OTHER_USER | SELF_USER | TIMEOUT
| OTHER (label : string).

Definition eqb (a b : t) : bool :=
  match a, b with
  | COMPLETED, COMPLETED | CONNECTION_DROP, CONNECTION_DROP
  | GROUP_CHECK, GROUP_CHECK | MEMBER_LEAVE, MEMBER_LEAVE
  | MISSED, MISSED | OTHER_USER, OTHER_USER
  | SELF_USER, SELF_USER | TIMEOUT, TIMEOUT => true
  | OTHER x, OTHER y => String.eqb x y
  | _, _ => false
  end.
End TERMINATION_REASON.

Module MediaType.
Inductive t : Set := NONE | AUDIO | AUDIO_VIDEO | SCREEN | VIDEO.

Definition eqb (a b : t) : bool :=
  match a, b with
  | NONE, NONE | AUDIO, AUDIO | AUDIO_VIDEO, AUDIO_VIDEO
  | SCREEN, SCREEN | VIDEO, VIDEO => true
  | _, _ => false
  end.
End MediaType.

Module CALL_MESSAGE_TYPE.
Inductive t : Set :=
| CANCEL | GROUP_CHECK | GROUP_LEAVE | GROUP_START
| HANGUP | PROP_SYNC | REJECT | OTHER (label : string).
End CALL_MESSAGE_TYPE.

Module AudioType.
Inductive t : Set :=
| CALL_DROP | INCOMING_CALL | NETWORK_INTERRUPTION | OUTGOING_CALL | TALK_LATER.
End AudioType.

Module CallError.
Inductive TYPE : Set := NOT_FOUND | WRONG_SENDER | WRONG_STATE | OTHER (label : string).

Record t : Type := { type : TYPE; message : string }.

Definition is_NOT_FOUND (e : t) : bool :=
  match type e with NOT_FOUND => true | _ => false end.
End CallError.

(* ------------------------------------------------------------------ *)
(** ** CallEntity: data *)
(* ------------------------------------------------------------------ *)

Module Call.

Record User : Type := {
  user_id : string;
  name : string;
  joaatHash : Z
}.

(** A call message as the call entity sees it: the fields it reads
    ([type], [sessionId], [clientId], [userId]) and the arguments it hands
    to [CallMessageBuilder]. *)
Record CallMessageEntity : Type := {
  msg_type : CALL_MESSAGE_TYPE.t;
  msg_response : bool;
  msg_sessionId : option string;
  msg_userId : option string;
  msg_clientId : option string;
  msg_remoteUserId : option string;
  msg_videosend : option bool
}.

Definition msg_set_userId (u : string) (m : CallMessageEntity) : CallMessageEntity :=
  {| msg_type := msg_type m; msg_response := msg_response m;
     msg_sessionId := msg_sessionId m; msg_userId := Some u;
     msg_clientId := msg_clientId m; msg_remoteUserId := msg_remoteUserId m;
     msg_videosend := msg_videosend m |}.

(** [callMessageEntity.addProperties(createPayload(id, selfUserId, remoteUserId, remoteClientId))] *)
Definition msg_addPayload (selfId : string) (remoteUserId remoteClientId : option string)
           (m : CallMessageEntity) : CallMessageEntity :=
  {| msg_type := msg_type m; msg_response := msg_response m;
     msg_sessionId := msg_sessionId m; msg_userId := Some selfId;
     msg_clientId := remoteClientId; msg_remoteUserId := remoteUserId;
     msg_videosend := msg_videosend m |}.

Definition buildMessage (ty : CALL_MESSAGE_TYPE.t) (response : bool)
           (sessionId : option string) : CallMessageEntity :=
  {| msg_type := ty; msg_response := response; msg_sessionId := sessionId;
     msg_userId := None; msg_clientId := None; msg_remoteUserId := None;
     msg_videosend := None |}.

(** A participant object.  [ref] is the identity of the object (two
    participants for the same user are different objects); [id] and [user]
    are set by the constructor and never written again; [flowEntity] tells
    whether the participant has a flow, whose remote client id is
    [clientId]. *)
Record ParticipantEntity : Type := {
  ref : nat;
  participant_id : string;
  user : User;
  clientId : option string;
  participant_sessionId : option string;
  flowEntity : bool;
  panning : float;
  screenSend : bool;
  videoSend : bool
}.

Definition set_panning (v : float) (p : ParticipantEntity) : ParticipantEntity :=
  {| ref := ref p; participant_id := participant_id p; user := user p;
     clientId := clientId p; participant_sessionId := participant_sessionId p;
     flowEntity := flowEntity p; panning := v;
     screenSend := screenSend p; videoSend := videoSend p |}.

Definition set_clientId (v : option string) (p : ParticipantEntity) : ParticipantEntity :=
  {| ref := ref p; participant_id := participant_id p; user := user p;
     clientId := v; participant_sessionId := participant_sessionId p;
     flowEntity := flowEntity p; panning := panning p;
     screenSend := screenSend p; videoSend := videoSend p |}.

(** A method of the participant class changes the participant it is called
    on; the object, its [id] and its [user] stay the same. *)
Definition same_object (p p' : ParticipantEntity) : ParticipantEntity :=
  {| ref := ref p; participant_id := participant_id p; user := user p;
     clientId := clientId p'; participant_sessionId := participant_sessionId p';
     flowEntity := flowEntity p'; panning := panning p';
     screenSend := screenSend p'; videoSend := videoSend p' |}.

(** Modelled from the spec: the constructor of ParticipantEntity, whose
    source is not part of the call entity.  A participant is looked up by
    the id of its user; it starts without a bound client, without a flow,
    centred and sending no video. *)
Definition new_ParticipantEntity (r : nat) (u : User) : ParticipantEntity :=
  {| ref := r; participant_id := user_id u; user := u;
     clientId := None; participant_sessionId := None;
     flowEntity := false; panning := 0%float;
     screenSend := false; videoSend := false |}.

(** Modelled from the spec: ParticipantEntity.verifyClientId, whose source
    is not part of the call entity.  The first message binds the client id
    of the participant; a later message from another client fails with
    WRONG_SENDER. *)
Definition verifyClientId (p : ParticipantEntity) (c : string)
  : Settled CallError.t ParticipantEntity :=
  match clientId p with
  | None => Resolved (set_clientId (Some c) p)
  | Some bound =>
      if String.eqb bound c then Resolved p
      else Rejected {| CallError.type := CallError.WRONG_SENDER;
                       CallError.message := "Client IDs not matching" |}
  end.

(** Timers of the browser window. *)
Inductive TimerCallback : Type :=
| SendGroupCheckTimeout (timeoutInSeconds : Z)
| VerifyGroupCheckTimeout
| StateTimeout (isIncoming : bool)
| DurationInterval.

Record Timer : Type := {
  timer_id : positive;
  callback : TimerCallback;
  delay : Z
}.

Definition is_group_check (t : Timer) : bool :=
  match callback t with
  | SendGroupCheckTimeout _ | VerifyGroupCheckTimeout => true
  | _ => false
  end.

Inductive EventSource : Set := INJECTED | WEB_SOCKET.

(** Calls into collaborators (calling repository, media handlers, audio,
    telemetry, logger), in the order they are made.  A log line is recorded
    by its fixed text, without the values interpolated into it. *)
Inductive Effect : Type :=
| InjectDeactivateEvent (m : CallMessageEntity) (source : EventSource)
                        (reason : TERMINATION_REASON.t)
| RepositoryDeleteCall (callId : string)
| ResetMediaStream
| SendCallMessage (m : CallMessageEntity)
| FlowClearTimeouts (participant : nat)
| FlowReset (participant : nat)
| RemoveMediaElement (userId : string)
| StartNegotiation (participant : nat)
| AudioPlay (a : AudioType.t)
| AudioPlayInLoop (a : AudioType.t)
| AudioStop (a : AudioType.t)
| PublishCallStateDelete (callId : string)
| PublishCallStateLeave (callId : string) (reason : TERMINATION_REASON.t)
| TelemetryJoinedCall
| TelemetryEstablishedCall
| TelemetryTrackDuration
| TelemetryNumberOfParticipants (n : nat)
| Log (line : string).

(** The external interfaces of the call entity whose sources are not part
    of it: the tables of [CALL_STATE_GROUP], the time unit, the random
    number helper (its third argument counts the draws made so far), the
    user repository, the state-changing methods of a participant, and
    whether the promise of [callingRepository.sendCallMessage] resolves
    (given the effects so far and the message). *)
Record Environment : Type := {
  CAN_CONNECT : list CALL_STATE.t;
  CAN_JOIN : list CALL_STATE.t;
  IS_ACTIVE : list CALL_STATE.t;
  IS_ENDED : list CALL_STATE.t;
  UNANSWERED : list CALL_STATE.t;
  SECOND : Z;
  getRandomNumber : Z -> Z -> nat -> Z;
  get_user_by_id : option string -> Settled CallError.t User;
  participant_updateState :
    ParticipantEntity -> CallMessageEntity ->
    Settled CallError.t (bool * ParticipantEntity);
  participant_resetParticipant : ParticipantEntity -> ParticipantEntity;
  participant_startNegotiation : ParticipantEntity -> ParticipantEntity;
  message_delivered : list Effect -> CallMessageEntity -> bool
}.

(** [CallEntity.CONFIG] *)
Module CONFIG.
Definition ACTIVITY_TIMEOUT : Z := 2 * 60.
Definition MAXIMUM_TIMEOUT : Z := 90.
Definition MINIMUM_TIMEOUT : Z := 60.
Definition STATE_TIMEOUT (env : Environment) : Z := 60 * SECOND env.
Definition UPDATE_INTERVAL (env : Environment) : Z := SECOND env.
End CONFIG.

(** The fields of [this].  [selfUserIsAway] is
    [selfUser.availability() === AvailabilityType.AWAY] and
    [participating_user_ids] is read from the conversation entity.  The
    duration display ([timerStart], [durationTime]) is left out: the timer
    behind it is kept, what its callback shows is not. *)
Record CallEntity : Type := {
  id : string;
  isGroup : bool;
  sessionId : option string;
  creatingUser : User;
  selfUser : User;
  selfUserIsAway : bool;
  participating_user_ids : list string;
  wasConnected : bool;
  isConnected : bool;
  selfClientJoined : bool;
  selfUserJoined : bool;
  state : CALL_STATE.t;
  previousState : option CALL_STATE.t;
  participants : list ParticipantEntity;
  interruptedParticipants : list nat;
  remoteMediaType : MediaType.t;
  terminationReason : option TERMINATION_REASON.t;
  groupCheckTimeoutId : option positive;
  stateTimeout : option positive;
  callTimerInterval : option positive
}.

Definition set_wasConnected (v : bool) (c : CallEntity) : CallEntity :=
  {| id := id c; isGroup := isGroup c; sessionId := sessionId c;
     creatingUser := creatingUser c; selfUser := selfUser c;
     selfUserIsAway := selfUserIsAway c;
     participating_user_ids := participating_user_ids c;
     wasConnected := v; isConnected := isConnected c;
     selfClientJoined := selfClientJoined c;
     selfUserJoined := selfUserJoined c; state := state c;
     previousState := previousState c; participants := participants c;
     interruptedParticipants := interruptedParticipants c;
     remoteMediaType := remoteMediaType c;
     terminationReason := terminationReason c;
     groupCheckTimeoutId := groupCheckTimeoutId c;
     stateTimeout := stateTimeout c;
     callTimerInterval := callTimerInterval c |}.

Definition set_isConnected (v : bool) (c : CallEntity) : CallEntity :=
  {| id := id c; isGroup := isGroup c; sessionId := sessionId c;
     creatingUser := creatingUser c; selfUser := selfUser c;
     selfUserIsAway := selfUserIsAway c;
     participating_user_ids := participating_user_ids c;
     wasConnected := wasConnected c; isConnected := v;
     selfClientJoined := selfClientJoined c;
     selfUserJoined := selfUserJoined c; state := state c;
     previousState := previousState c; participants := participants c;
     interruptedParticipants := interruptedParticipants c;
     remoteMediaType := remoteMediaType c;
     terminationReason := terminationReason c;
     groupCheckTimeoutId := groupCheckTimeoutId c;
     stateTimeout := stateTimeout c;
     callTimerInterval := callTimerInterval c |}.

Definition set_selfClientJoined (v : bool) (c : CallEntity) : CallEntity :=
  {| id := id c; isGroup := isGroup c; sessionId := sessionId c;
     creatingUser := creatingUser c; selfUser := selfUser c;
     selfUserIsAway := selfUserIsAway c;
     participating_user_ids := participating_user_ids c;
     wasConnected := wasConnected c; isConnected := isConnected c;
     selfClientJoined := v; selfUserJoined := selfUserJoined c;
     state := state c; previousState := previousState c;
     participants := participants c;
     interruptedParticipants := interruptedParticipants c;
     remoteMediaType := remoteMediaType c;
     terminationReason := terminationReason c;
     groupCheckTimeoutId := groupCheckTimeoutId c;
     stateTimeout := stateTimeout c;
     callTimerInterval := callTimerInterval c |}.

Definition set_selfUserJoined (v : bool) (c : CallEntity) : CallEntity :=
  {| id := id c; isGroup := isGroup c; sessionId := sessionId c;
     creatingUser := creatingUser c; selfUser := selfUser c;
     selfUserIsAway := selfUserIsAway c;
     participating_user_ids := participating_user_ids c;
     wasConnected := wasConnected c; isConnected := isConnected c;
     selfClientJoined := selfClientJoined c; selfUserJoined := v;
     state := state c; previousState := previousState c;
     participants := participants c;
     interruptedParticipants := interruptedParticipants c;
     remoteMediaType := remoteMediaType c;
     terminationReason := terminationReason c;
     groupCheckTimeoutId := groupCheckTimeoutId c;
     stateTimeout := stateTimeout c;
     callTimerInterval := callTimerInterval c |}.

Definition set_state (v : CALL_STATE.t) (c : CallEntity) : CallEntity :=
  {| id := id c; isGroup := isGroup c; sessionId := sessionId c;
     creatingUser := creatingUser c; selfUser := selfUser c;
     selfUserIsAway := selfUserIsAway c;
     participating_user_ids := participating_user_ids c;
     wasConnected := wasConnected c; isConnected := isConnected c;
     selfClientJoined := selfClientJoined c;
     selfUserJoined := selfUserJoined c; state := v;
     previousState := previousState c; participants := participants c;
     interruptedParticipants := interruptedParticipants c;
     remoteMediaType := remoteMediaType c;
     terminationReason := terminationReason c;
     groupCheckTimeoutId := groupCheckTimeoutId c;
     stateTimeout := stateTimeout c;
     callTimerInterval := callTimerInterval c |}.

Definition set_previousState (v : option CALL_STATE.t) (c : CallEntity) : CallEntity :=
  {| id := id c; isGroup := isGroup c; sessionId := sessionId c;
     creatingUser := creatingUser c; selfUser := selfUser c;
     selfUserIsAway := selfUserIsAway c;
     participating_user_ids := participating_user_ids c;
     wasConnected := wasConnected c; isConnected := isConnected c;
     selfClientJoined := selfClientJoined c;
     selfUserJoined := selfUserJoined c; state := state c;
     previousState := v; participants := participants c;
     interruptedParticipants := interruptedParticipants c;
     remoteMediaType := remoteMediaType c;
     terminationReason := terminationReason c;
     groupCheckTimeoutId := groupCheckTimeoutId c;
     stateTimeout := stateTimeout c;
     callTimerInterval := callTimerInterval c |}.

Definition set_participants (v : list ParticipantEntity) (c : CallEntity) : CallEntity :=
  {| id := id c; isGroup := isGroup c; sessionId := sessionId c;
     creatingUser := creatingUser c; selfUser := selfUser c;
     selfUserIsAway := selfUserIsAway c;
     participating_user_ids := participating_user_ids c;
     wasConnected := wasConnected c; isConnected := isConnected c;
     selfClientJoined := selfClientJoined c;
     selfUserJoined := selfUserJoined c; state := state c;
     previousState := previousState c; participants := v;
     interruptedParticipants := interruptedParticipants c;
     remoteMediaType := remoteMediaType c;
     terminationReason := terminationReason c;
     groupCheckTimeoutId := groupCheckTimeoutId c;
     stateTimeout := stateTimeout c;
     callTimerInterval := callTimerInterval c |}.

Definition set_interruptedParticipants (v : list nat) (c : CallEntity) : CallEntity :=
  {| id := id c; isGroup := isGroup c; sessionId := sessionId c;
     creatingUser := creatingUser c; selfUser := selfUser c;
     selfUserIsAway := selfUserIsAway c;
     participating_user_ids := participating_user_ids c;
     wasConnected := wasConnected c; isConnected := isConnected c;
     selfClientJoined := selfClientJoined c;
     selfUserJoined := selfUserJoined c; state := state c;
     previousState := previousState c; participants := participants c;
     interruptedParticipants := v; remoteMediaType := remoteMediaType c;
     terminationReason := terminationReason c;
     groupCheckTimeoutId := groupCheckTimeoutId c;
     stateTimeout := stateTimeout c;
     callTimerInterval := callTimerInterval c |}.

Definition set_remoteMediaType (v : MediaType.t) (c : CallEntity) : CallEntity :=
  {| id := id c; isGroup := isGroup c; sessionId := sessionId c;
     creatingUser := creatingUser c; selfUser := selfUser c;
     selfUserIsAway := selfUserIsAway c;
     participating_user_ids := participating_user_ids c;
     wasConnected := wasConnected c; isConnected := isConnected c;
     selfClientJoined := selfClientJoined c;
     selfUserJoined := selfUserJoined c; state := state c;
     previousState := previousState c; participants := participants c;
     interruptedParticipants := interruptedParticipants c;
     remoteMediaType := v; terminationReason := terminationReason c;
     groupCheckTimeoutId := groupCheckTimeoutId c;
     stateTimeout := stateTimeout c;
     callTimerInterval := callTimerInterval c |}.

Definition set_terminationReason (v : option TERMINATION_REASON.t) (c : CallEntity) : CallEntity :=
  {| id := id c; isGroup := isGroup c; sessionId := sessionId c;
     creatingUser := creatingUser c; selfUser := selfUser c;
     selfUserIsAway := selfUserIsAway c;
     participating_user_ids := participating_user_ids c;
     wasConnected := wasConnected c; isConnected := isConnected c;
     selfClientJoined := selfClientJoined c;
     selfUserJoined := selfUserJoined c; state := state c;
     previousState := previousState c; participants := participants c;
     interruptedParticipants := interruptedParticipants c;
     remoteMediaType := remoteMediaType c; terminationReason := v;
     groupCheckTimeoutId := groupCheckTimeoutId c;
     stateTimeout := stateTimeout c;
     callTimerInterval := callTimerInterval c |}.

Definition set_groupCheckTimeoutId (v : option positive) (c : CallEntity) : CallEntity :=
  {| id := id c; isGroup := isGroup c; sessionId := sessionId c;
     creatingUser := creatingUser c; selfUser := selfUser c;
     selfUserIsAway := selfUserIsAway c;
     participating_user_ids := participating_user_ids c;
     wasConnected := wasConnected c; isConnected := isConnected c;
     selfClientJoined := selfClientJoined c;
     selfUserJoined := selfUserJoined c; state := state c;
     previousState := previousState c; participants := participants c;
     interruptedParticipants := interruptedParticipants c;
     remoteMediaType := remoteMediaType c;
     terminationReason := terminationReason c; groupCheckTimeoutId := v;
     stateTimeout := stateTimeout c;
     callTimerInterval := callTimerInterval c |}.

Definition set_stateTimeout (v : option positive) (c : CallEntity) : CallEntity :=
  {| id := id c; isGroup := isGroup c; sessionId := sessionId c;
     creatingUser := creatingUser c; selfUser := selfUser c;
     selfUserIsAway := selfUserIsAway c;
     participating_user_ids := participating_user_ids c;
     wasConnected := wasConnected c; isConnected := isConnected c;
     selfClientJoined := selfClientJoined c;
     selfUserJoined := selfUserJoined c; state := state c;
     previousState := previousState c; participants := participants c;
     interruptedParticipants := interruptedParticipants c;
     remoteMediaType := remoteMediaType c;
     terminationReason := terminationReason c;
     groupCheckTimeoutId := groupCheckTimeoutId c; stateTimeout := v;
     callTimerInterval := callTimerInterval c |}.

Definition set_callTimerInterval (v : option positive) (c : CallEntity) : CallEntity :=
  {| id := id c; isGroup := isGroup c; sessionId := sessionId c;
     creatingUser := creatingUser c; selfUser := selfUser c;
     selfUserIsAway := selfUserIsAway c;
     participating_user_ids := participating_user_ids c;
     wasConnected := wasConnected c; isConnected := isConnected c;
     selfClientJoined := selfClientJoined c;
     selfUserJoined := selfUserJoined c; state := state c;
     previousState := previousState c; participants := participants c;
     interruptedParticipants := interruptedParticipants c;
     remoteMediaType := remoteMediaType c;
     terminationReason := terminationReason c;
     groupCheckTimeoutId := groupCheckTimeoutId c;
     stateTimeout := stateTimeout c; callTimerInterval := v |}.

Definition set_sessionId (v : option string) (c : CallEntity) : CallEntity :=
  {| id := id c; isGroup := isGroup c; sessionId := v;
     creatingUser := creatingUser c; selfUser := selfUser c;
     selfUserIsAway := selfUserIsAway c;
     participating_user_ids := participating_user_ids c;
     wasConnected := wasConnected c; isConnected := isConnected c;
     selfClientJoined := selfClientJoined c;
     selfUserJoined := selfUserJoined c; state := state c;
     previousState := previousState c; participants := participants c;
     interruptedParticipants := interruptedParticipants c;
     remoteMediaType := remoteMediaType c;
     terminationReason := terminationReason c;
     groupCheckTimeoutId := groupCheckTimeoutId c;
     stateTimeout := stateTimeout c;
     callTimerInterval := callTimerInterval c |}.

(** The call entity in its surroundings: the timers of the window (in the
    order they were set), the next timer id, the number of random draws
    made, the next object identity and the effects so far. *)
Record World : Type := {
  this : CallEntity;
  timers : list Timer;
  nextTimerId : positive;
  draws : nat;
  nextRef : nat;
  effects : list Effect
}.

Definition upd (f : CallEntity -> CallEntity) (w : World) : World :=
  {| this := f (this w); timers := timers w; nextTimerId := nextTimerId w;
     draws := draws w; nextRef := nextRef w; effects := effects w |}.

Definition effect (e : Effect) (w : World) : World :=
  {| this := this w; timers := timers w; nextTimerId := nextTimerId w;
     draws := draws w; nextRef := nextRef w; effects := effects w ++ [e] |}.

Definition with_timers (ts : list Timer) (w : World) : World :=
  {| this := this w; timers := ts; nextTimerId := nextTimerId w;
     draws := draws w; nextRef := nextRef w; effects := effects w |}.

(** [window.setTimeout] and [window.setInterval]: a fresh positive id. *)
Definition window_setTimer (cb : TimerCallback) (ms : Z) (w : World)
  : positive * World :=
  let tid := nextTimerId w in
  (tid,
   {| this := this w;
      timers := timers w ++ [{| timer_id := tid; callback := cb; delay := ms |}];
      nextTimerId := Pos.succ tid;
      draws := draws w; nextRef := nextRef w; effects := effects w |}).

(** [window.clearTimeout] and [window.clearInterval] *)
Definition window_clearTimer (tid : positive) (w : World) : World :=
  with_timers (filter (fun t => negb (Pos.eqb (timer_id t) tid)) (timers w)) w.

Definition next_draw (w : World) : World :=
  {| this := this w; timers := timers w; nextTimerId := nextTimerId w;
     draws := S (draws w); nextRef := nextRef w; effects := effects w |}.

Definition next_ref (w : World) : World :=
  {| this := this w; timers := timers w; nextTimerId := nextTimerId w;
     draws := draws w; nextRef := S (nextRef w); effects := effects w |}.

End Call.

(* ------------------------------------------------------------------ *)
(** ** CallEntity: methods *)
(* ------------------------------------------------------------------ *)

Module CallEntity.
Import Call.
Import AsyncOps.

Section Methods.

Variable env : Environment.

Definition M (A : Type) : Type := Async World CallError.t A.

(** *** Computed observables *)

Definition isDeclined (c : CallEntity) : bool := CALL_STATE.eqb (state c) CALL_STATE.REJECTED.
Definition isDisconnecting (c : CallEntity) : bool := CALL_STATE.eqb (state c) CALL_STATE.DISCONNECTING.
Definition isOngoing (c : CallEntity) : bool := CALL_STATE.eqb (state c) CALL_STATE.ONGOING.
Definition isOutgoing (c : CallEntity) : bool := CALL_STATE.eqb (state c) CALL_STATE.OUTGOING.

Definition canConnectState (c : CallEntity) : bool :=
  CALL_STATE.includes (CAN_CONNECT env) (state c).

Definition isRemoteVideoCall (c : CallEntity) : bool :=
  MediaType.eqb (remoteMediaType c) MediaType.SCREEN
  || MediaType.eqb (remoteMediaType c) MediaType.VIDEO.

Definition networkInterruption (c : CallEntity) : bool :=
  if isConnected c && negb (isGroup c)
  then (0 <? List.length (interruptedParticipants c))%nat
  else false.

Definition numberOfParticipants (c : CallEntity) : nat :=
  (List.length (participants c) + (if selfClientJoined c then 1 else 0))%nat.

(** [getFlows()]: the participants that have a flow. *)
Definition getFlows (c : CallEntity) : list ParticipantEntity :=
  filter flowEntity (participants c).

Definition sendCallMessage (m : CallMessageEntity) (w : World) : World :=
  effect (SendCallMessage m) w.

(** *** Group-check timers *)

Definition _clearGroupCheckTimeout (w : World) : World :=
  match groupCheckTimeoutId (this w) with
  | Some tid =>
      let w1 := effect (Log "Clear group check timeout") w in
      let w2 := window_clearTimer tid w1 in
      upd (set_groupCheckTimeoutId None) w2
  | None => w
  end.

Definition _clearStateTimeout (w : World) : World :=
  match stateTimeout (this w) with
  | Some tid => upd (set_stateTimeout None) (window_clearTimer tid w)
  | None => w
  end.

Definition _clearTimeouts (w : World) : World :=
  let w1 :=
    fold_left (fun acc p => effect (FlowClearTimeouts (ref p)) acc)
              (getFlows (this w)) w in
  let w2 := _clearGroupCheckTimeout w1 in
  _clearStateTimeout w2.

Definition _setSendGroupCheckTimeout (w : World) : World :=
  let timeoutInSeconds :=
    getRandomNumber env CONFIG.MINIMUM_TIMEOUT CONFIG.MAXIMUM_TIMEOUT (draws w) in
  let w1 := next_draw w in
  let timeout := timeoutInSeconds * SECOND env in
  let '(tid, w2) := window_setTimer (SendGroupCheckTimeout timeoutInSeconds) timeout w1 in
  let w3 := upd (set_groupCheckTimeoutId (Some tid)) w2 in
  effect (Log "Set sending group check after timeout") w3.

Definition _setVerifyGroupCheckTimeout (w : World) : World :=
  let timeout := CONFIG.ACTIVITY_TIMEOUT * SECOND env in
  let '(tid, w1) := window_setTimer VerifyGroupCheckTimeout timeout w in
  let w2 := upd (set_groupCheckTimeoutId (Some tid)) w1 in
  effect (Log "Set verifying group check after timeout") w2.

Definition scheduleGroupCheck (w : World) : World :=
  let w1 := _clearGroupCheckTimeout w in
  if isConnected (this w1)
  then _setSendGroupCheckTimeout w1
  else _setVerifyGroupCheckTimeout w1.

(** *** Ring tone and the [state] observable *)

Definition ringTone (isIncoming : bool) : AudioType.t :=
  if isIncoming then AudioType.INCOMING_CALL else AudioType.OUTGOING_CALL.

Definition _playRingTone (isIncoming : bool) (w : World) : World :=
  effect (AudioPlayInLoop (ringTone isIncoming)) w.

Definition _stopRingTone (isIncoming : bool) (w : World) : World :=
  effect (AudioStop (ringTone isIncoming)) w.

Definition _setStateTimeout (isIncoming : bool) (w : World) : World :=
  let '(tid, w1) := window_setTimer (StateTimeout isIncoming) (CONFIG.STATE_TIMEOUT env) w in
  upd (set_stateTimeout (Some tid)) w1.

Definition _onStateStartRinging (isIncoming : bool) (w : World) : World :=
  _setStateTimeout isIncoming (_playRingTone isIncoming w).

Definition _onStateStopRinging (w : World) : World :=
  let wasUnanswered :=
    match previousState (this w) with
    | Some s => CALL_STATE.includes (UNANSWERED env) s
    | None => false
    end in
  if wasUnanswered then
    let wasIncomingCall :=
      match previousState (this w) with
      | Some s => CALL_STATE.eqb s CALL_STATE.INCOMING
      | None => false
      end in
    _stopRingTone wasIncomingCall w
  else w.

(** The callback given to [this.state.subscribe]. *)
Definition state_subscriber (st : CALL_STATE.t) (w : World) : World :=
  let w1 := effect (Log "Call state changed") w in
  let w2 := _clearStateTimeout w1 in
  let hasState := negb (CALL_STATE.eqb st CALL_STATE.UNKNOWN) in
  let w3 :=
    if hasState then
      let isUnansweredState := CALL_STATE.includes (UNANSWERED env) st in
      if isUnansweredState then
        let isIncomingCall := CALL_STATE.eqb st CALL_STATE.INCOMING in
        let isUserAway := selfUserIsAway (this w2) in
        let dontPlaySound := isIncomingCall && isUserAway in
        if negb dontPlaySound then _onStateStartRinging isIncomingCall w2 else w2
      else _onStateStopRinging w2
    else w2 in
  let isConnectingCall := CALL_STATE.eqb st CALL_STATE.CONNECTING in
  let w4 := if isConnectingCall then effect TelemetryJoinedCall w3 else w3 in
  upd (set_previousState (Some st)) w4.

(** [this.state(value)]: an observable notifies only when the value
    changes; [isDeclined] is notified before the subscriber of [state]. *)
Definition write_state (v : CALL_STATE.t) (w : World) : World :=
  if CALL_STATE.eqb (state (this w)) v then w
  else
    let w1 := upd (set_state v) w in
    let w2 := if isDeclined (this w1) then _stopRingTone true w1 else w1 in
    state_subscriber v w2.

(** *** The [isConnected] and [selfClientJoined] observables *)

Definition notify_networkInterruption (before : bool) (w : World) : World :=
  let isInterrupted := networkInterruption (this w) in
  if Bool.eqb before isInterrupted then w
  else if isInterrupted
       then effect (AudioPlayInLoop AudioType.NETWORK_INTERRUPTION) w
       else effect (AudioStop AudioType.NETWORK_INTERRUPTION) w.

Definition notify_numberOfParticipants (before : nat) (w : World) : World :=
  let n := numberOfParticipants (this w) in
  if Nat.eqb before n then w else effect (TelemetryNumberOfParticipants n) w.

(** [this.isConnected(value)] with its subscriber. *)
Definition write_isConnected (v : bool) (w : World) : World :=
  if Bool.eqb (isConnected (this w)) v then w
  else
    let before := networkInterruption (this w) in
    let w1 := upd (set_isConnected v) w in
    let w2 :=
      if v then
        let wa := upd (set_wasConnected true) w1 in
        let wb := if isGroup (this wa) then scheduleGroupCheck wa else wa in
        let wc := effect TelemetryEstablishedCall wb in
        let '(tid, wd) := window_setTimer DurationInterval (CONFIG.UPDATE_INTERVAL env) wc in
        upd (set_callTimerInterval (Some tid)) wd
      else w1 in
    notify_networkInterruption before w2.

Definition _resetTimer (w : World) : World :=
  match callTimerInterval (this w) with
  | Some tid => window_clearTimer tid w
  | None => w
  end.

Definition _resetFlows (w : World) : World :=
  fold_left (fun acc p => effect (FlowReset (ref p)) acc) (getFlows (this w)) w.

(** [this.selfClientJoined(value)] with its subscriber. *)
Definition write_selfClientJoined (v : bool) (w : World) : World :=
  if Bool.eqb (selfClientJoined (this w)) v then w
  else
    let before := numberOfParticipants (this w) in
    let w1 := upd (set_selfClientJoined v) w in
    let w2 := notify_numberOfParticipants before w1 in
    if negb v then
      let wa := write_isConnected false w2 in
      let wb :=
        if isOngoing (this wa) || isDisconnecting (this wa)
        then effect (AudioPlay AudioType.TALK_LATER) wa else wa in
      let wc :=
        if JS.defined (terminationReason (this wb))
        then effect TelemetryTrackDuration wb else wb in
      let wd := _resetTimer wc in
      _resetFlows wd
    else w2.

Definition setSelfState (joinedState : bool)
           (reason : option TERMINATION_REASON.t) (w : World) : World :=
  let w1 :=
    if JS.defined reason && negb (JS.defined (terminationReason (this w)))
    then upd (set_terminationReason reason) w else w in
  let w2 := write_selfClientJoined joinedState w1 in
  upd (set_selfUserJoined joinedState) w2.

(** *** Deactivation *)

Definition _deleteCall (callMessageEntity : CallMessageEntity)
           (everyoneLeft : Z) (onGroupCheck : bool) (w : World) : World :=
  let reason :=
    if negb (wasConnected (this w))
    then TERMINATION_REASON.MISSED else TERMINATION_REASON.COMPLETED in
  let w1 :=
    if onGroupCheck && negb (JS.truthy everyoneLeft)
    then effect (Log "Deactivation on group check with remaining users") w
    else w in
  let eventSource := if onGroupCheck then INJECTED else WEB_SOCKET in
  let callMessageEntity' :=
    msg_set_userId (user_id (creatingUser (this w1))) callMessageEntity in
  let w2 := effect (InjectDeactivateEvent callMessageEntity' eventSource reason) w1 in
  effect (RepositoryDeleteCall (id (this w2))) w2.

(** [deactivateCall(callMessageEntity, fromSelf, terminationReason)]; the
    third argument defaults to SELF_USER when it is [undefined].  The line
    [participants().length <= 0 + fromSelf ? 1 : 0] is read with the
    precedence of the language: [+] before [<=] before [? :]. *)
Definition deactivateCall (callMessageEntity : CallMessageEntity)
           (fromSelf : bool) (reason : option TERMINATION_REASON.t) : M bool :=
  fun w =>
    let terminationReason' :=
      match reason with
      | Some r => r
      | None => TERMINATION_REASON.SELF_USER
      end in
    let w1 := _clearTimeouts w in
    let everyoneLeft : Z :=
      if Z.of_nat (List.length (participants (this w1))) <=? 0 + JS.ToNumber fromSelf
      then 1 else 0 in
    let onGroupCheck :=
      TERMINATION_REASON.eqb terminationReason' TERMINATION_REASON.GROUP_CHECK in
    let shouldDeleteCall := JS.truthy everyoneLeft || onGroupCheck in
    if shouldDeleteCall then
      let w2 := upd (set_terminationReason (Some terminationReason')) w1 in
      let w3 := _deleteCall callMessageEntity everyoneLeft onGroupCheck w2 in
      (Resolved true, w3)
    else
      let w2 := if isGroup (this w1) then scheduleGroupCheck w1 else w1 in
      let w3 := effect ResetMediaStream w2 in
      (Resolved false, w3).

(** *** Participants *)

Definition NOT_FOUND_error : CallError.t :=
  {| CallError.type := CallError.NOT_FOUND;
     CallError.message := "No participant found for user ID" |}.

Definition WRONG_STATE_error : CallError.t :=
  {| CallError.type := CallError.WRONG_STATE;
     CallError.message := "Self user should not be added as call participant" |}.

(** The loop of [getParticipantById]: the first participant with the id. *)
Fixpoint getParticipantById_loop (ps : list ParticipantEntity) (userId : string)
  : option ParticipantEntity :=
  match ps with
  | [] => None
  | participantEntity :: rest =>
      let isExpectedId := String.eqb (participant_id participantEntity) userId in
      if isExpectedId then Some participantEntity
      else getParticipantById_loop rest userId
  end.

Definition getParticipantById (userId : string) : M ParticipantEntity :=
  fun w =>
    match getParticipantById_loop (participants (this w)) userId with
    | Some participantEntity => (Resolved participantEntity, w)
    | None => (Rejected NOT_FOUND_error, w)
    end.

(** Writing to the fields of a participant object: every occurrence of the
    object in the array shows the change. *)
Definition write_participant (p : ParticipantEntity) (w : World) : World :=
  upd (fun c =>
         set_participants
           (map (fun q => if Nat.eqb (ref q) (ref p) then p else q) (participants c)) c) w.

(** [this.participants.push(p)] and [this.participants.remove(p)] notify the
    computed number of participants. *)
Definition write_participants (ps : list ParticipantEntity) (w : World) : World :=
  let before := numberOfParticipants (this w) in
  notify_numberOfParticipants before (upd (set_participants ps) w).

Definition participants_push (p : ParticipantEntity) (w : World) : World :=
  write_participants (participants (this w) ++ [p]) w.

Definition participants_remove (p : ParticipantEntity) (w : World) : World :=
  write_participants
    (filter (fun q => negb (Nat.eqb (ref q) (ref p))) (participants (this w))) w.

Definition interruptedParticipants_remove (p : ParticipantEntity) (w : World) : World :=
  let before := networkInterruption (this w) in
  let w1 :=
    upd (fun c =>
           set_interruptedParticipants
             (filter (fun r => negb (Nat.eqb r (ref p))) (interruptedParticipants c)) c) w in
  notify_networkInterruption before w1.

Definition _updateRemoteState (w : World) : World :=
  let last :=
    fold_left
      (fun acc p =>
         if screenSend p then Some MediaType.SCREEN
         else if videoSend p then Some MediaType.VIDEO
         else acc)
      (participants (this w)) None in
  match last with
  | Some mediaType => upd (set_remoteMediaType mediaType) w
  | None => upd (set_remoteMediaType MediaType.AUDIO) w
  end.

Definition _updateParticipantState (participantEntity : ParticipantEntity)
           (negotiate : bool) (callMessageEntity : option CallMessageEntity)
  : M ParticipantEntity :=
  fun w =>
    let updatePromise :=
      match callMessageEntity with
      | Some m =>
          match participant_updateState env participantEntity m with
          | Resolved (skip, p') => Resolved (skip, same_object participantEntity p')
          | Rejected e => Rejected e
          end
      | None => Resolved (false, participantEntity)
      end in
    match updatePromise with
    | Rejected e => (Rejected e, w)
    | Resolved (skipNegotiation, p1) =>
        let w1 := write_participant p1 w in
        let negotiate' := if skipNegotiation then false else negotiate in
        let w2 := _updateRemoteState w1 in
        if negotiate' then
          let p2 := same_object p1 (participant_startNegotiation env p1) in
          let w3 := effect (StartNegotiation (ref p2)) (write_participant p2 w2) in
          (Resolved p2, w3)
        else (Resolved p1, w2)
    end.

(** [if (clientId) participantEntity.verifyClientId(clientId)] *)
Definition verify_if_given (p : ParticipantEntity) (c : option string)
  : Settled CallError.t ParticipantEntity :=
  match c with
  | Some c' => if JS.truthy_string c' then verifyClientId p c' else Resolved p
  | None => Resolved p
  end.

Definition _updateParticipant (participantEntity : ParticipantEntity)
           (negotiate : bool) (callMessageEntity : option CallMessageEntity)
  : M ParticipantEntity :=
  fun w =>
    let given :=
      match callMessageEntity with
      | Some m => msg_clientId m
      | None => None
      end in
    match verify_if_given participantEntity given with
    | Rejected e => (Rejected e, w)
    | Resolved p1 =>
        let w1 := write_participant p1 w in
        let w2 := effect (Log "Updating call participant") w1 in
        _updateParticipantState p1 negotiate callMessageEntity w2
    end.

Definition _addParticipant (userId : string) (negotiate : bool)
           (callMessageEntity : option CallMessageEntity) : M ParticipantEntity :=
  fun w =>
    let isSelfUser := String.eqb userId (user_id (selfUser (this w))) in
    if isSelfUser then (Rejected WRONG_STATE_error, w)
    else
      match get_user_by_id env (Some userId) with
      | Rejected e => (Rejected e, w)
      | Resolved userEntity =>
          let participantEntity := new_ParticipantEntity (nextRef w) userEntity in
          let w1 := next_ref w in
          let w2 := participants_push participantEntity w1 in
          let w3 := effect (Log "Adding call participant") w2 in
          _updateParticipantState participantEntity negotiate callMessageEntity w3
      end.

Definition addOrUpdateParticipant (userId : string) (negotiate : bool)
           (callMessageEntity : option CallMessageEntity) : M ParticipantEntity :=
  catch_
    (then_ (getParticipantById userId)
           (fun participantEntity =>
              _updateParticipant participantEntity negotiate callMessageEntity))
    (fun error =>
       let isNotFound := CallError.is_NOT_FOUND error in
       if isNotFound then _addParticipant userId negotiate callMessageEntity
       else reject error).

Definition audio_on_removal (reason : option TERMINATION_REASON.t) (w : World) : World :=
  match reason with
  | Some TERMINATION_REASON.OTHER_USER => effect (AudioPlay AudioType.TALK_LATER) w
  | Some TERMINATION_REASON.CONNECTION_DROP
  | Some TERMINATION_REASON.MEMBER_LEAVE => effect (AudioPlay AudioType.CALL_DROP) w
  | _ => w
  end.

(** [deleteParticipant(userId, clientId, terminationReason)]; it resolves
    with the call entity, which is the world itself. *)
Definition deleteParticipant (userId : string) (clientId : option string)
           (reason : option TERMINATION_REASON.t) : M unit :=
  catch_
    (then_ (getParticipantById userId)
       (fun participantEntity w =>
          match verify_if_given participantEntity clientId with
          | Rejected e => (Rejected e, w)
          | Resolved p1 =>
              let p2 := same_object p1 (participant_resetParticipant env p1) in
              let w1 := write_participant p2 w in
              let w2 := interruptedParticipants_remove p2 w1 in
              let w3 := participants_remove p2 w2 in
              let w4 := _updateRemoteState w3 in
              let w5 := effect (RemoveMediaElement userId) w4 in
              let w6 :=
                if selfClientJoined (this w5) then audio_on_removal reason w5 else w5 in
              (Resolved tt, effect (Log "Removed call participant") w6)
          end))
    (fun error =>
       let isNotFound := CallError.is_NOT_FOUND error in
       if isNotFound then resolve tt else reject error).

Definition resetParticipant (userId : string) : M unit :=
  then_ (getParticipantById userId)
    (fun participantEntity w =>
       let p1 := same_object participantEntity
                             (participant_resetParticipant env participantEntity) in
       let w1 := write_participant p1 w in
       let w2 := interruptedParticipants_remove p1 w1 in
       let w3 := _updateRemoteState w2 in
       (Resolved tt, effect (RemoveMediaElement userId) w3)).

(** *** Panning *)

Definition _calculatePanning {num : Type} `{NumberOps num}
           (index numberOfParticipants : nat) : num :=
  let isSingleUser := Nat.eqb numberOfParticipants 1 in
  if isSingleUser then literal 0
  else
    let position :=
      div (opp (sub (of_nat numberOfParticipants) (literal 1)))
          (add (of_nat numberOfParticipants) (literal 1)) in
    let delta :=
      div (mul (opp (literal 2)) position)
          (sub (of_nat numberOfParticipants) (literal 1)) in
    add position (mul delta (of_nat index)).

(** [Array.prototype.sort] with the comparator
    [(a, b) => a.user.joaatHash - b.user.joaatHash], as a stable insertion
    sort. *)
Fixpoint insert_by_hash (p : ParticipantEntity) (sorted : list ParticipantEntity)
  : list ParticipantEntity :=
  match sorted with
  | [] => [p]
  | q :: rest =>
      if joaatHash (user p) - joaatHash (user q) <=? 0
      then p :: q :: rest
      else q :: insert_by_hash p rest
  end.

Definition sort_by_hash (ps : list ParticipantEntity) : list ParticipantEntity :=
  fold_right insert_by_hash [] ps.

(** The body of the [forEach]: the participant at [index] gets its panning. *)
Fixpoint assign_panning (n index : nat) (ps : list ParticipantEntity)
  : list ParticipantEntity :=
  match ps with
  | [] => []
  | participantEntity :: rest =>
      let panning : float := _calculatePanning index n in
      set_panning panning participantEntity :: assign_panning n (S index) rest
  end.

Definition _sortParticipantsByPanning (w : World) : World :=
  let twoOrMoreParticipants := (2 <=? List.length (participants (this w)))%nat in
  if twoOrMoreParticipants then
    let sorted := sort_by_hash (participants (this w)) in
    let w1 := upd (set_participants sorted) w in
    let panned := assign_panning (List.length (participants (this w1))) 0 sorted in
    let w2 :=
      fold_left (fun acc _ => effect (Log "Panning recalculated") acc) sorted w1 in
    let w3 := upd (set_participants panned) w2 in
    effect (Log "New panning order") w3
  else w.

(** *** Joining, leaving and rejecting *)

Definition _join1to1Call (w : World) : World :=
  match participating_user_ids (this w) with
  | remoteUserId :: _ => snd (addOrUpdateParticipant remoteUserId true None w)
  | [] =>
      (* [remoteUserId] is [undefined]: no participant has that id and it is
         not the id of the self user, so the user repository is asked. *)
      match get_user_by_id env None with
      | Rejected _ => w
      | Resolved userEntity =>
          let participantEntity := new_ParticipantEntity (nextRef w) userEntity in
          let w1 := next_ref w in
          let w2 := participants_push participantEntity w1 in
          let w3 := effect (Log "Adding call participant") w2 in
          snd (_updateParticipantState participantEntity true None w3)
      end
  end.

Definition _joinGroupCall (mediaType : option MediaType.t) (w : World) : World :=
  let mediaType' :=
    match mediaType with
    | Some m => m
    | None => MediaType.AUDIO
    end in
  let videoSend := MediaType.eqb mediaType' MediaType.AUDIO_VIDEO in
  let response := negb (isOutgoing (this w)) in
  let callMessageEntity :=
    {| msg_type := CALL_MESSAGE_TYPE.GROUP_START; msg_response := response;
       msg_sessionId := sessionId (this w);
       msg_userId := Some (user_id (selfUser (this w)));
       msg_clientId := None; msg_remoteUserId := None;
       msg_videosend := Some videoSend |} in
  sendCallMessage callMessageEntity w.

Definition joinCall (mediaType : option MediaType.t) (w : World) : World :=
  let w1 :=
    if canConnectState (this w) then write_state CALL_STATE.CONNECTING w else w in
  if isGroup (this w1) then _joinGroupCall mediaType w1 else _join1to1Call w1.

Definition rejectCall (shareRejection : bool) (w : World) : World :=
  let w1 := write_state CALL_STATE.REJECTED w in
  let w2 := if isRemoteVideoCall (this w1) then effect ResetMediaStream w1 else w1 in
  if shareRejection then
    let callMessageEntity :=
      msg_addPayload (user_id (selfUser (this w2))) None None
        (buildMessage CALL_MESSAGE_TYPE.REJECT false (sessionId (this w2))) in
    sendCallMessage callMessageEntity w2
  else w2.

(** [leaveCall(terminationReason)].  Every flow gets the hangup or cancel
    message; when all of these messages were delivered the chain of
    promises goes on: it resets the participants, leaves the group and
    deactivates the call.  When one of them was not, the chain ends there. *)
Definition leaveCall (reason : option TERMINATION_REASON.t) (w : World) : World :=
  let w1 :=
    if isOngoing (this w) && negb (isGroup (this w))
    then write_state CALL_STATE.DISCONNECTING w else w in
  let callMessageEntity :=
    if isConnected (this w1)
    then buildMessage CALL_MESSAGE_TYPE.HANGUP false (sessionId (this w1))
    else buildMessage CALL_MESSAGE_TYPE.CANCEL false (sessionId (this w1)) in
  let selfId := user_id (selfUser (this w1)) in
  let '(callMessageEntity1, allDelivered, w2) :=
    fold_left
      (fun '(m, ok, acc) p =>
         let m' := msg_addPayload selfId (Some (participant_id p)) (clientId p) m in
         (m', ok && message_delivered env (effects acc) m', sendCallMessage m' acc))
      (getFlows (this w1)) (callMessageEntity, true, w1) in
  if allDelivered then
    let w3 :=
      fold_left (fun acc p => snd (resetParticipant (participant_id p) acc))
                (participants (this w2)) w2 in
    let '(callMessageEntity2, w4) :=
      if isGroup (this w3) then
        let m :=
          msg_addPayload selfId None None
            (buildMessage CALL_MESSAGE_TYPE.GROUP_LEAVE false (sessionId (this w3))) in
        (m, sendCallMessage m w3)
      else (msg_addPayload selfId None None callMessageEntity1, w3) in
    let w5 := setSelfState false reason w4 in
    match deactivateCall callMessageEntity2 true reason w5 with
    | (Resolved wasDeleted, w6) =>
        if negb wasDeleted then write_state CALL_STATE.REJECTED w6 else w6
    | (Rejected _, w6) => w6
    end
  else w2.

Definition participantLeft (callMessageEntity : CallMessageEntity)
           (reason : option TERMINATION_REASON.t) (w : World) : World :=
  if negb (JS.truthy (Z.of_nat (List.length (participants (this w))))) then
    if selfClientJoined (this w)
    then leaveCall reason w
    else snd (deactivateCall callMessageEntity false reason w)
  else w.

(** [deleteCall()] with [_resetCall()] *)
Definition deleteCall (w : World) : World :=
  let w1 := write_state CALL_STATE.ENDED w in
  let w2 := setSelfState false None w1 in
  let w3 := write_isConnected false w2 in
  let w4 := upd (set_sessionId None) w3 in
  let w5 := upd (set_terminationReason None) w4 in
  effect (AudioStop AudioType.NETWORK_INTERRUPTION) w5.

(** *** Timer callbacks *)

Definition _onSendGroupCheckTimeout (timeout : Z) (w : World) : World :=
  if JS.truthy (Z.of_nat (List.length (participants (this w)))) then
    let w1 := effect (Log "Sending group check after timeout") w in
    let callMessageEntity :=
      msg_addPayload (user_id (selfUser (this w1))) None None
        (buildMessage CALL_MESSAGE_TYPE.GROUP_CHECK true (sessionId (this w1))) in
    let w2 := sendCallMessage callMessageEntity w1 in
    scheduleGroupCheck w2
  else leaveCall (Some TERMINATION_REASON.OTHER_USER) w.

Definition _onVerifyGroupCheckTimeout (w : World) : World :=
  let w1 := effect (Log "Removing on group check timeout") w in
  let callMessageEntity :=
    msg_addPayload (user_id (selfUser (this w1)))
      (Some (user_id (creatingUser (this w1)))) None
      (buildMessage CALL_MESSAGE_TYPE.GROUP_LEAVE false (sessionId (this w1))) in
  snd (deactivateCall callMessageEntity false (Some TERMINATION_REASON.GROUP_CHECK) w1).

(** The callback of [_setStateTimeout]. *)
Definition onStateTimeout (isIncoming : bool) (w : World) : World :=
  let w1 := _stopRingTone isIncoming w in
  if isIncoming then
    if isGroup (this w1) then rejectCall false w1
    else effect (PublishCallStateDelete (id (this w1))) w1
  else effect (PublishCallStateLeave (id (this w1)) TERMINATION_REASON.TIMEOUT) w1.

Definition run_callback (cb : TimerCallback) (w : World) : World :=
  match cb with
  | SendGroupCheckTimeout timeoutInSeconds => _onSendGroupCheckTimeout timeoutInSeconds w
  | VerifyGroupCheckTimeout => _onVerifyGroupCheckTimeout w
  | StateTimeout isIncoming => onStateTimeout isIncoming w
  | DurationInterval => w
  end.

(** The window fires the timer [tid]: a timeout is removed before its
    callback runs, an interval stays. *)
Definition fire (tid : positive) (w : World) : World :=
  match find (fun t => Pos.eqb (timer_id t) tid) (timers w) with
  | Some t =>
      match callback t with
      | DurationInterval => w
      | cb => run_callback cb (window_clearTimer tid w)
      end
  | None => w
  end.

(** *** Verifying the session of a message *)

Definition WRONG_SENDER_error : CallError.t :=
  {| CallError.type := CallError.WRONG_SENDER;
     CallError.message := "Session IDs not matching" |}.

(** [a === b] for two values that are a string or [undefined] *)
Definition strictly_equal (a b : option string) : bool :=
  match a, b with
  | Some x, Some y => String.eqb x y
  | None, None => true
  | _, _ => false
  end.

(** [getParticipantById(userId)] with a [userId] that may be [undefined]:
    no participant has the id [undefined]. *)
Definition getParticipantById_of (userId : option string) : M ParticipantEntity :=
  match userId with
  | Some u => getParticipantById u
  | None => reject NOT_FOUND_error
  end.

(** [verifySessionId(callMessageEntity)]; it resolves with the call entity,
    which is the world itself. *)
Definition verifySessionId (callMessageEntity : CallMessageEntity) : M unit :=
  fun w =>
    let userId := msg_userId callMessageEntity in
    let sessionId' := msg_sessionId callMessageEntity in
    let isExpectedSessionId := strictly_equal sessionId' (sessionId (this w)) in
    if isExpectedSessionId then (Resolved tt, w)
    else
      then_ (getParticipantById_of userId)
        (fun participantEntity =>
           let participantSessionId := participant_sessionId participantEntity in
           let isExpectedParticipantSessionId :=
             strictly_equal sessionId' participantSessionId in
           if isExpectedParticipantSessionId then resolve tt
           else reject WRONG_SENDER_error) w.

(** *** The need for a media stream *)

Definition isIncoming (c : CallEntity) : bool := CALL_STATE.eqb (state c) CALL_STATE.INCOMING.

Definition isOngoingOnAnotherClient (c : CallEntity) : bool :=
  selfUserJoined c && negb (selfClientJoined c).

Definition needsMediaStream (c : CallEntity) : bool :=
  let hasPreJoinVideo := isIncoming c && isRemoteVideoCall c in
  let hasActiveCall := hasPreJoinVideo || selfClientJoined c in
  hasActiveCall && negb (isOngoingOnAnotherClient c).

(** *** Construction *)

(** The state the constructor leaves behind, in a window with the timers
    [ts]: no participant, state UNKNOWN, and for a group call the first
    group check already scheduled. *)
Definition construct (conversationId : string) (group : bool)
           (others : list string) (creator self : User) (away : bool)
           (session : option string) (ts : list Timer) (next : positive)
  : World :=
  let c :=
    {| id := conversationId; isGroup := group; sessionId := session;
       creatingUser := creator; selfUser := self; selfUserIsAway := away;
       participating_user_ids := others;
       wasConnected := false; isConnected := false;
       selfClientJoined := false; selfUserJoined := false;
       state := CALL_STATE.UNKNOWN; previousState := None;
       participants := []; interruptedParticipants := [];
       remoteMediaType := MediaType.NONE; terminationReason := None;
       groupCheckTimeoutId := None; stateTimeout := None;
       callTimerInterval := None |} in
  let w :=
    {| this := c; timers := ts; nextTimerId := next; draws := 0%nat;
       nextRef := 0%nat; effects := [Log "Created new call entity"] |} in
  if group then scheduleGroupCheck w else w.

End Methods.

(** *** Observing the effect trace *)

Definition is_deletion (e : Effect) : bool :=
  match e with RepositoryDeleteCall _ => true | _ => false end.

Definition is_deactivation_event (e : Effect) : bool :=
  match e with InjectDeactivateEvent _ _ _ => true | _ => false end.

Definition is_media_reset (e : Effect) : bool :=
  match e with ResetMediaStream => true | _ => false end.

(** The effects of a run from [w] to [w']. *)
Definition emitted_since (w w' : World) : list Effect :=
  skipn (List.length (effects w)) (effects w').

(** *** The decision of [deactivateCall], in the words of its callers *)

Definition reason_or_default (reason : option TERMINATION_REASON.t)
  : TERMINATION_REASON.t :=
  match reason with
  | Some r => r
  | None => TERMINATION_REASON.SELF_USER
  end.

Definition onGroupCheck (reason : option TERMINATION_REASON.t) : bool :=
  TERMINATION_REASON.eqb (reason_or_default reason) TERMINATION_REASON.GROUP_CHECK.

Definition shouldDeleteCall (w : World) (fromSelf : bool)
           (reason : option TERMINATION_REASON.t) : bool :=
  (List.length (participants (this w)) <=? (if fromSelf then 1 else 0))%nat
  || onGroupCheck reason.

(** [everyoneLeft], the number the source computes on its second line. *)
Definition everyoneLeft (w : World) (fromSelf : bool) : Z :=
  if Z.of_nat (List.length (participants (this w))) <=? 0 + JS.ToNumber fromSelf
  then 1 else 0.

(** The event handed to [injectDeactivateEvent]. *)
Definition deactivation_event (w : World) (m : CallMessageEntity)
           (reason : option TERMINATION_REASON.t) : Effect :=
  InjectDeactivateEvent
    (msg_set_userId (user_id (creatingUser (this w))) m)
    (if onGroupCheck reason then INJECTED else WEB_SOCKET)
    (if wasConnected (this w) then TERMINATION_REASON.COMPLETED
     else TERMINATION_REASON.MISSED).

(** A timer that is neither the group-check timer nor the state timer of
    the call. *)
Definition not_cleared (c : CallEntity) (t : Timer) : bool :=
  negb (match groupCheckTimeoutId c with
        | Some tid => Pos.eqb (timer_id t) tid
        | None => false
        end)
  && negb (match stateTimeout c with
           | Some tid => Pos.eqb (timer_id t) tid
           | None => false
           end).

(** *** The life of a call entity

    What can happen to a call entity between its construction and its end:
    a method is called by the calling repository or by a flow, an observable
    is written from outside, or the window fires a timer.  The methods that
    only read the call entity or only hand a message to the calling
    repository ([confirmMessage], [toggleMedia], [verifySessionId],
    telemetry and logging) are not listed. *)

Inductive Operation : Type :=
| JoinCall (mediaType : option MediaType.t)
| LeaveCall (reason : option TERMINATION_REASON.t)
| RejectCall (shareRejection : bool)
| DeactivateCall (m : CallMessageEntity) (fromSelf : bool)
                 (reason : option TERMINATION_REASON.t)
| ParticipantLeft (m : CallMessageEntity) (reason : option TERMINATION_REASON.t)
| DeleteCall
| SetSelfState (joinedState : bool) (reason : option TERMINATION_REASON.t)
| SetConnected (v : bool)
| SetState (v : CALL_STATE.t)
| ScheduleGroupCheck
| AddOrUpdateParticipant (userId : string) (negotiate : bool)
                         (m : option CallMessageEntity)
| DeleteParticipant (userId : string) (clientId : option string)
                    (reason : option TERMINATION_REASON.t)
| ResetParticipant (userId : string)
| SortParticipantsByPanning
| TimerFires (tid : positive).

Definition run (env : Environment) (op : Operation) (w : World) : World :=
  match op with
  | JoinCall mediaType => joinCall env mediaType w
  | LeaveCall reason => leaveCall env reason w
  | RejectCall shareRejection => rejectCall env shareRejection w
  | DeactivateCall m fromSelf reason => snd (deactivateCall env m fromSelf reason w)
  | ParticipantLeft m reason => participantLeft env m reason w
  | DeleteCall => deleteCall env w
  | SetSelfState joinedState reason => setSelfState env joinedState reason w
  | SetConnected v => write_isConnected env v w
  | SetState v => write_state env v w
  | ScheduleGroupCheck => scheduleGroupCheck env w
  | AddOrUpdateParticipant userId negotiate m =>
      snd (addOrUpdateParticipant env userId negotiate m w)
  | DeleteParticipant userId clientId reason =>
      snd (deleteParticipant env userId clientId reason w)
  | ResetParticipant userId => snd (resetParticipant env userId w)
  | SortParticipantsByPanning => _sortParticipantsByPanning w
  | TimerFires tid => fire env tid w
  end.

Definition run_all (env : Environment) (ops : list Operation) (w : World) : World :=
  fold_left (fun acc op => run env op acc) ops w.

(** *** Invariants *)

(** The timers of the window have distinct ids below the next id. *)
Definition timers_wf (w : World) : Prop :=
  NoDup (map timer_id (timers w))
  /\ Forall (fun t => (timer_id t < nextTimerId w)%positive) (timers w).

(** The active group-check timers are exactly the active timers whose id the
    call entity holds in [groupCheckTimeoutId], and that id was issued by
    the window. *)
Definition group_checks_tracked (w : World) : Prop :=
  forall t, In t (timers w) ->
            (is_group_check t = true <->
             groupCheckTimeoutId (this w) = Some (timer_id t)).

Definition handle_issued (w : World) : Prop :=
  forall tid, groupCheckTimeoutId (this w) = Some tid ->
              (tid < nextTimerId w)%positive.

Definition heartbeat_invariant (w : World) : Prop :=
  timers_wf w /\ group_checks_tracked w /\ handle_issued w.

(** The self user is not among the participants. *)
Definition self_not_participant (w : World) : Prop :=
  ~ In (user_id (selfUser (this w))) (map participant_id (participants (this w))).

(** The self user has the id [sid] and no participant has it. *)
Definition without (sid : string) (w : World) : Prop :=
  user_id (selfUser (this w)) = sid
  /\ Forall (fun p => participant_id p <> sid) (participants (this w)).

(** The user repository answers with the user that was asked for. *)
Definition repository_contract (env : Environment) : Prop :=
  forall o u, get_user_by_id env o = Resolved u -> o = Some (user_id u).

(** The random helper stays within the bounds it is given. *)
Definition random_contract (env : Environment) : Prop :=
  forall lo hi k, lo <= hi -> lo <= getRandomNumber env lo hi k <= hi.

(** The timer that [scheduleGroupCheck] sets in the world [w]: a send
    check with a random delay when the call is connected, the verification
    after the activity timeout otherwise. *)
Definition scheduled_timer (env : Environment) (w : World) : Timer :=
  if isConnected (this w) then
    let timeoutInSeconds :=
      getRandomNumber env CONFIG.MINIMUM_TIMEOUT CONFIG.MAXIMUM_TIMEOUT (draws w) in
    {| timer_id := nextTimerId w;
       callback := SendGroupCheckTimeout timeoutInSeconds;
       delay := timeoutInSeconds * SECOND env |}
  else
    {| timer_id := nextTimerId w;
       callback := VerifyGroupCheckTimeout;
       delay := CONFIG.ACTIVITY_TIMEOUT * SECOND env |}.

(** The timers of the window before the call entity is constructed: they
    belong to others. *)
Definition foreign_window (ts : list Timer) (next : positive) : Prop :=
  NoDup (map timer_id ts)
  /\ Forall (fun t => (timer_id t < next)%positive) ts
  /\ Forall (fun t => is_group_check t = false) ts.

(** The worlds a call entity can be in. *)
Definition reachable (env : Environment) (w : World) : Prop :=
  exists conversationId group others creator self away session ts next ops,
    foreign_window ts next
    /\ w = run_all env ops
             (construct env conversationId group others creator self away
                        session ts next).

(** The group-check timers that are active in the window. *)
Definition active_group_checks (w : World) : list Timer :=
  filter is_group_check (timers w).

(** The participants are distinct objects of distinct users, and their
    identities were issued before the next one. *)
Definition participants_wf (w : World) : Prop :=
  NoDup (map ref (participants (this w)))
  /\ NoDup (map participant_id (participants (this w)))
  /\ Forall (fun p => (ref p < nextRef w)%nat) (participants (this w)).

(** The update of a participant's state does not fail for lack of a
    participant. *)
Definition updateState_contract (env : Environment) : Prop :=
  forall p m e,
    participant_updateState env p m = Rejected e -> CallError.is_NOT_FOUND e = false.

(** Every call message is delivered. *)
Definition delivery_contract (env : Environment) : Prop :=
  forall es m, message_delivered env es m = true.



(** Some participant sends video or shares the screen. *)
Definition someone_sends_video (ps : list ParticipantEntity) : bool :=
  existsb (fun p => screenSend p || videoSend p) ps.

(** The participant [p] is the one [getParticipantById] finds for [userId]. *)
Definition found (userId : string) (p : ParticipantEntity) (w : World) : Prop :=
  getParticipantById_loop (participants (this w)) userId = Some p.

End CallEntity.

(* ------------------------------------------------------------------ *)
(** ** Panning: the formula of the specification and the checks on floats *)
(* ------------------------------------------------------------------ *)

Module Panning.
Import Call CallEntity.

(** The panning as the specification words it: position [i] of [n]
    participants gets [p + (-2p/(n-1)) * i] with [p = -(n-1)/(n+1)]. *)
Definition formula {num : Type} `{NumberOps num} (i n : nat) : num :=
  let p := div (opp (sub (of_nat n) (literal 1))) (add (of_nat n) (literal 1)) in
  add p (mul (div (mul (literal (-2)) p) (sub (of_nat n) (literal 1))) (of_nat i)).

(** The order of the participants after sorting: by the hash of their
    users, ascending. *)
Definition by_hash (a b : ParticipantEntity) : Prop :=
  joaatHash (user a) <= joaatHash (user b).

(** The pannings of [n] participants, from left to right. *)
Definition pannings {num : Type} `{NumberOps num} (n : nat) : list num :=
  map (fun i => _calculatePanning i n) (seq 0 n).







End Panning.

(* ------------------------------------------------------------------ *)
(** ** BackendClient: the request queue and its connectivity guard *)
(* ------------------------------------------------------------------ *)

Module QUEUE_STATE.
Inductive t : Set := READY | CONNECTIVITY_PROBLEM | ACCESS_TOKEN_REFRESH.

Definition eqb (a b : t) : bool :=
  match a, b with
  | READY, READY | CONNECTIVITY_PROBLEM, CONNECTIVITY_PROBLEM
  | ACCESS_TOKEN_REFRESH, ACCESS_TOKEN_REFRESH => true
  | _, _ => false
  end.
End QUEUE_STATE.

Module PromiseQueue.

(** Modelled from the spec: the class PromiseQueue (Util/PromiseQueue), whose
    source is not part of the backend client.  Items are processed in FIFO
    order; the queue may be paused (no dequeue) and resumed; [unshift]
    enqueues at the front, [push] at the back. *)
Record t (A : Type) : Type := {
  _queue : list A;
  _paused : bool;
  concurrent : nat
}.

(** Modelled from the spec: the constructor of PromiseQueue, an empty queue
    that runs up to [n] items concurrently. *)
Definition create {A : Type} (n : nat) : t A :=
  {| _queue := []; _paused := false; concurrent := n |}.

(** Modelled from the spec: PromiseQueue.pause, the queue may be paused (no
    dequeue) and resumed. *)
Definition pause {A : Type} (shouldPause : bool) (q : t A) : t A :=
  {| _queue := _queue q; _paused := shouldPause; concurrent := concurrent q |}.

(** Modelled from the spec: PromiseQueue.resume. *)
Definition resume {A : Type} (q : t A) : t A := pause false q.

(** Modelled from the spec: PromiseQueue.push, a normal submission goes to
    the back of the queue. *)
Definition push {A : Type} (a : A) (q : t A) : t A :=
  {| _queue := _queue q ++ [a]; _paused := _paused q; concurrent := concurrent q |}.

(** Modelled from the spec: PromiseQueue.unshift, a retry is enqueued at the
    front of the queue. *)
Definition unshift {A : Type} (a : A) (q : t A) : t A :=
  {| _queue := a :: _queue q; _paused := _paused q; concurrent := concurrent q |}.

(** Modelled from the spec: PromiseQueue.getLength. *)
Definition getLength {A : Type} (q : t A) : nat := List.length (_queue q).

(** Modelled from the spec: the execution step of PromiseQueue.  The next
    item leaves the queue, in FIFO order, when the queue is not paused and
    fewer than [concurrent] items are running. *)
Definition shift {A : Type} (running : nat) (q : t A) : option (A * t A) :=
  if _paused q then None
  else if (concurrent q <=? running)%nat then None
  else
    match _queue q with
    | [] => None
    | a :: rest =>
        Some (a, {| _queue := rest; _paused := _paused q; concurrent := concurrent q |})
    end.

End PromiseQueue.

Module Backend.

(** The tables [BackendClientError.STATUS_CODE] and
    [BackendClientError.LABEL], whose source is not part of the client. *)
Record Tables : Type := {
  ACCEPTED : Z; BAD_GATEWAY : Z; CONFLICT : Z; CONNECTIVITY_PROBLEM : Z;
  CREATED : Z; FORBIDDEN : Z; INTERNAL_SERVER_ERROR : Z; NO_CONTENT : Z;
  NOT_FOUND : Z; OK : Z; PRECONDITION_FAILED : Z; REQUEST_TIMEOUT : Z;
  REQUEST_TOO_LARGE : Z; TOO_MANY_REQUESTS : Z; UNAUTHORIZED : Z;
  INVALID_CREDENTIALS : string; PASSWORD_EXISTS : string;
  TOO_MANY_CLIENTS : string; TOO_MANY_MEMBERS : string; UNKNOWN_CLIENT : string
}.

Definition IGNORED_BACKEND_ERRORS (tb : Tables) : list Z :=
  [BAD_GATEWAY tb; CONFLICT tb; CONNECTIVITY_PROBLEM tb; INTERNAL_SERVER_ERROR tb;
   NOT_FOUND tb; PRECONDITION_FAILED tb; REQUEST_TIMEOUT tb; REQUEST_TOO_LARGE tb;
   TOO_MANY_REQUESTS tb].

Definition IGNORED_BACKEND_LABELS (tb : Tables) : list string :=
  [INVALID_CREDENTIALS tb; PASSWORD_EXISTS tb; TOO_MANY_CLIENTS tb;
   TOO_MANY_MEMBERS tb; UNKNOWN_CLIENT tb].

(** The request configuration, as far as the client looks into it. *)
Record Config : Type := {
  url : string;
  type : string;
  data : string;
  skipRetry : bool
}.

(** A queued or running request: the configuration to send and the promise
    its outcome settles (the [resolve] and [reject] of that promise). *)
Record Request : Type := {
  config : Config;
  promise : nat
}.

Record Response : Type := { label : string }.

Inductive Outcome : Type :=
| ResolvedWith (body : option Response)
| ResolvedEmpty
| RejectedWith (response : option Response) (statusCode : Z).

Inductive Effect : Type :=
| Ajax (r : Request)
| Settle (promise : nat) (o : Outcome)
| RaygunSend (message : string) (endpoint method : string)
| LoggerWarn (message : string)
| LoggerInfo (message : string)
| PublishAccessTokenRenew.

(** The continuation [.then(() => this.executeRequestQueue())] waiting in the
    connectivity queue. *)
Inductive Continuation : Set := ThenExecuteRequestQueue.

Record BackendClient : Type := {
  queueState : QUEUE_STATE.t;
  requestQueue : PromiseQueue.t Request;
  running : list Request;
  connectivityQueue : PromiseQueue.t Continuation;
  connectivityTimeout : option Z;
  accessToken : string;
  numberOfRequests : nat;
  nextPromise : nat;
  effects : list Effect
}.

Definition set_queueState (v : QUEUE_STATE.t) (c : BackendClient) : BackendClient :=
  {| queueState := v; requestQueue := requestQueue c; running := running c;
     connectivityQueue := connectivityQueue c;
     connectivityTimeout := connectivityTimeout c; accessToken := accessToken c;
     numberOfRequests := numberOfRequests c; nextPromise := nextPromise c;
     effects := effects c |}.

Definition set_requestQueue (v : PromiseQueue.t Request) (c : BackendClient)
  : BackendClient :=
  {| queueState := queueState c; requestQueue := v; running := running c;
     connectivityQueue := connectivityQueue c;
     connectivityTimeout := connectivityTimeout c; accessToken := accessToken c;
     numberOfRequests := numberOfRequests c; nextPromise := nextPromise c;
     effects := effects c |}.

Definition set_running (v : list Request) (c : BackendClient) : BackendClient :=
  {| queueState := queueState c; requestQueue := requestQueue c; running := v;
     connectivityQueue := connectivityQueue c;
     connectivityTimeout := connectivityTimeout c; accessToken := accessToken c;
     numberOfRequests := numberOfRequests c; nextPromise := nextPromise c;
     effects := effects c |}.

Definition set_connectivityQueue (v : PromiseQueue.t Continuation)
           (c : BackendClient) : BackendClient :=
  {| queueState := queueState c; requestQueue := requestQueue c;
     running := running c; connectivityQueue := v;
     connectivityTimeout := connectivityTimeout c; accessToken := accessToken c;
     numberOfRequests := numberOfRequests c; nextPromise := nextPromise c;
     effects := effects c |}.

Definition set_connectivityTimeout (v : option Z) (c : BackendClient)
  : BackendClient :=
  {| queueState := queueState c; requestQueue := requestQueue c;
     running := running c; connectivityQueue := connectivityQueue c;
     connectivityTimeout := v; accessToken := accessToken c;
     numberOfRequests := numberOfRequests c; nextPromise := nextPromise c;
     effects := effects c |}.

Definition emit (e : Effect) (c : BackendClient) : BackendClient :=
  {| queueState := queueState c; requestQueue := requestQueue c;
     running := running c; connectivityQueue := connectivityQueue c;
     connectivityTimeout := connectivityTimeout c; accessToken := accessToken c;
     numberOfRequests := numberOfRequests c; nextPromise := nextPromise c;
     effects := effects c ++ [e] |}.

Definition count_request (c : BackendClient) : BackendClient :=
  {| queueState := queueState c; requestQueue := requestQueue c;
     running := running c; connectivityQueue := connectivityQueue c;
     connectivityTimeout := connectivityTimeout c; accessToken := accessToken c;
     numberOfRequests := S (numberOfRequests c); nextPromise := nextPromise c;
     effects := effects c |}.

Definition fresh_promise (c : BackendClient) : nat * BackendClient :=
  (nextPromise c,
   {| queueState := queueState c; requestQueue := requestQueue c;
      running := running c; connectivityQueue := connectivityQueue c;
      connectivityTimeout := connectivityTimeout c; accessToken := accessToken c;
      numberOfRequests := numberOfRequests c; nextPromise := S (nextPromise c);
      effects := effects c |}).

Section Methods.

Variable tb : Tables.

(** [BackendClient.CONFIG.CONNECTIVITY_CHECK], in units of
    [TIME_IN_MILLIS.SECOND]. *)
Variable SECOND : Z.
Definition INITIAL_TIMEOUT : Z := 0.
Definition RECHECK_TIMEOUT : Z := SECOND * 2.

(** [constructor]: an empty request queue with four concurrent requests. *)
Definition create : BackendClient :=
  {| queueState := QUEUE_STATE.READY;
     requestQueue := PromiseQueue.create 4;
     running := [];
     connectivityQueue := PromiseQueue.create 1;
     connectivityTimeout := None;
     accessToken := "";
     numberOfRequests := 0%nat;
     nextPromise := 0%nat;
     effects := [] |}.

(** [sendRequest(config)]: the request is queued at the back; the promise
    of the queue is handed to the caller. *)
Definition sendRequest (cfg : Config) (c : BackendClient) : nat * BackendClient :=
  let c1 :=
    if negb (QUEUE_STATE.eqb (queueState c) QUEUE_STATE.READY)
    then emit (LoggerInfo "Adding request to queue") c else c in
  let '(p, c2) := fresh_promise c1 in
  (p, set_requestQueue
        (PromiseQueue.push {| config := cfg; promise := p |} (requestQueue c2)) c2).

(** [_prependRequestQueue(config, resolveFn, rejectFn)] *)
Definition _prependRequestQueue (r : Request) (c : BackendClient) : BackendClient :=
  set_requestQueue
    (PromiseQueue.unshift r (PromiseQueue.pause true (requestQueue c))) c.

(** The request queue starts its next request: the head of [_sendRequest],
    up to the call of [$.ajax]. *)
Definition dispatch (c : BackendClient) : option (Request * BackendClient) :=
  match PromiseQueue.shift (List.length (running c)) (requestQueue c) with
  | Some (r, q) =>
      let c1 := set_requestQueue q c in
      let c2 := count_request c1 in
      let c3 := set_running (running c2 ++ [r]) c2 in
      Some (r, emit (Ajax r) c3)
  | None => None
  end.

(** [executeRequestQueue()] *)
Definition executeRequestQueue (c : BackendClient) : BackendClient :=
  let c1 := set_queueState QUEUE_STATE.READY c in
  if JS.truthy_string (accessToken c1)
     && JS.truthy (Z.of_nat (PromiseQueue.getLength (requestQueue c1)))
  then
    let c2 := emit (LoggerInfo "Executing queued requests") c1 in
    set_requestQueue (PromiseQueue.resume (requestQueue c2)) c2
  else c1.

(** [executeOnConnectivity()] followed by
    [.then(() => this.executeRequestQueue())]: the connectivity queue is
    paused, the continuation waits in it, and a status check is scheduled
    unless one is pending. *)
Definition executeOnConnectivity (k : Continuation) (c : BackendClient)
  : BackendClient :=
  let c1 := emit (LoggerInfo "Connectivity check requested") c in
  let c2 :=
    set_connectivityQueue
      (PromiseQueue.push k (PromiseQueue.pause true (connectivityQueue c1))) c1 in
  if negb (JS.defined (connectivityTimeout c2))
  then set_connectivityTimeout (Some INITIAL_TIMEOUT) c2
  else c2.

Definition run_continuation (k : Continuation) (c : BackendClient) : BackendClient :=
  match k with
  | ThenExecuteRequestQueue => executeRequestQueue c
  end.

(** [_resetQueue] inside [executeOnConnectivity]: the connectivity queue is
    resumed and the continuations waiting in it run in order. *)
Definition _resetQueue (c : BackendClient) : BackendClient :=
  let c1 :=
    if JS.defined (connectivityTimeout c) then
      let waiting := PromiseQueue._queue (connectivityQueue c) in
      let c' :=
        set_connectivityQueue
          {| PromiseQueue._queue := [];
             PromiseQueue._paused := false;
             PromiseQueue.concurrent := PromiseQueue.concurrent (connectivityQueue c) |}
          c in
      fold_left (fun acc k => run_continuation k acc) waiting c'
    else c in
  set_connectivityTimeout None c1.

(** The answer to the status request of [_checkStatus]. *)
Inductive StatusAnswer : Set :=
| StatusDone
| StatusFailedWithResponse
| StatusUnreachable.

Definition _checkStatus (a : StatusAnswer) (c : BackendClient) : BackendClient :=
  match a with
  | StatusDone => _resetQueue (emit (LoggerInfo "Connectivity verified") c)
  | StatusFailedWithResponse =>
      _resetQueue (emit (LoggerInfo "Connectivity verified by server error") c)
  | StatusUnreachable =>
      let c1 := emit (LoggerWarn "Connectivity could not be verified... retrying") c in
      let c2 :=
        set_connectivityQueue (PromiseQueue.pause true (connectivityQueue c1)) c1 in
      set_connectivityTimeout (Some RECHECK_TIMEOUT) c2
  end.

Definition finish (r : Request) (c : BackendClient) : BackendClient :=
  set_running (filter (fun x => negb (Nat.eqb (promise x) (promise r))) (running c)) c.

(** The [done] callback of [$.ajax] in [_sendRequest]. *)
Definition onDone (r : Request) (responseData : option Response) (c : BackendClient)
  : BackendClient :=
  emit (Settle (promise r) (ResolvedWith responseData)) (finish r c).

Definition report (r : Request) (message : string) (c : BackendClient) : BackendClient :=
  emit (RaygunSend message (url (config r)) (type (config r))) c.

Definition reject_request (r : Request) (response : option Response) (statusCode : Z)
           (c : BackendClient) : BackendClient :=
  emit (Settle (promise r) (RejectedWith response statusCode)) (finish r c).

Definition default_case (r : Request) (statusCode : Z) (c : BackendClient)
  : BackendClient :=
  if negb (existsb (Z.eqb statusCode) (IGNORED_BACKEND_ERRORS tb))
  then report r "Server request failed" c
  else c.

(** The [fail] callback of [$.ajax] in [_sendRequest]: the [switch] over the
    status code, case by case in the order of the source, with the fall
    through from UNAUTHORIZED into [default]. *)
Definition onFail (r : Request) (statusCode : Z) (response : option Response)
           (c : BackendClient) : BackendClient :=
  if statusCode =? CONNECTIVITY_PROBLEM tb then
    let c1 := set_queueState QUEUE_STATE.CONNECTIVITY_PROBLEM c in
    let c2 := _prependRequestQueue r c1 in
    executeOnConnectivity ThenExecuteRequestQueue c2
  else if statusCode =? FORBIDDEN tb then
    let c1 :=
      match response with
      | Some resp =>
          if existsb (String.eqb (label resp)) (IGNORED_BACKEND_LABELS tb)
          then emit (LoggerWarn "Server request forbidden") c
          else report r "Server request forbidden" c
      | None => c
      end in
    reject_request r response statusCode c1
  else if (statusCode =? ACCEPTED tb) || (statusCode =? CREATED tb)
          || (statusCode =? NO_CONTENT tb) || (statusCode =? OK tb) then
    match response with
    | None => emit (Settle (promise r) ResolvedEmpty) (finish r c)
    | Some _ => reject_request r response statusCode c
    end
  else if statusCode =? UNAUTHORIZED tb then
    if negb (skipRetry (config r)) then
      let c1 := _prependRequestQueue r c in
      emit PublishAccessTokenRenew c1
    else reject_request r response statusCode (default_case r statusCode c)
  else reject_request r response statusCode (default_case r statusCode c).

End Methods.

(** The settlements of promises among the effects. *)
Definition is_settlement (e : Effect) : bool :=
  match e with Settle _ _ => true | _ => false end.

Definition settlements (c : BackendClient) : list Effect :=
  filter is_settlement (effects c).

(** The effects of a run from [c] to [c']. *)
Definition emitted_since (c c' : BackendClient) : list Effect :=
  skipn (List.length (effects c)) (effects c').

(** The status codes the [switch] of [_sendRequest] tells apart are
    different numbers. *)
Definition distinct_codes (tb : Tables) : Prop :=
  NoDup [CONNECTIVITY_PROBLEM tb; FORBIDDEN tb; ACCEPTED tb; CREATED tb;
         NO_CONTENT tb; OK tb; UNAUTHORIZED tb].

(** The status code is one of the four of the third [case]. *)
Definition is_empty_success (tb : Tables) (statusCode : Z) : bool :=
  (statusCode =? ACCEPTED tb) || (statusCode =? CREATED tb)
  || (statusCode =? NO_CONTENT tb) || (statusCode =? OK tb).

(** How the promise of a request is settled when the request fails and is
    not queued again. *)
Definition outcome (tb : Tables) (statusCode : Z) (response : option Response)
  : Outcome :=
  if is_empty_success tb statusCode && negb (JS.defined response)
  then ResolvedEmpty else RejectedWith response statusCode.

(** The request queue after the requests [rs] failed one after the other
    for lack of connectivity. *)
Definition fail_all (tb : Tables) (rs : list Request) (c : BackendClient)
  : BackendClient :=
  fold_left (fun acc r => onFail tb r (CONNECTIVITY_PROBLEM tb) None acc) rs c.

(** [n] status checks in a row that do not reach the backend. *)
Fixpoint unreachable (SECOND : Z) (n : nat) (c : BackendClient) : BackendClient :=
  match n with
  | O => c
  | S k => unreachable SECOND k (_checkStatus SECOND StatusUnreachable c)
  end.

End Backend.

(* ------------------------------------------------------------------ *)
(** ** BackendClient: the timeout that unblocks the request queue *)
(* ------------------------------------------------------------------ *)

Module QueueUnblock.
Import Backend.

(** The client together with its handle [queueTimeout], the unblock
    timeouts that are pending in the window (in the order they were set),
    the next timer id of the window and the lines given to [logger.log]. *)
Record Client : Type := {
  backend : BackendClient;
  queueTimeout : option positive;
  pending : list positive;
  nextTimeout : positive;
  logged : list string
}.

(** [constructor]: [queueTimeout] is [undefined]. *)
Definition create (c : BackendClient) (next : positive) : Client :=
  {| backend := c; queueTimeout := None; pending := [];
     nextTimeout := next; logged := [] |}.

(** [clearQueueUnblockTimeout()] *)
Definition clearQueueUnblockTimeout (c : Client) : Client :=
  match queueTimeout c with
  | Some tid =>
      {| backend := backend c; queueTimeout := None;
         pending := filter (fun t => negb (Pos.eqb t tid)) (pending c);
         nextTimeout := nextTimeout c; logged := logged c |}
  | None => c
  end.

(** The callback of the timeout set by [scheduleQueueUnblock]. *)
Definition onQueueUnblock (c : Client) : Client :=
  let isRefreshingToken :=
    QUEUE_STATE.eqb (queueState (backend c)) QUEUE_STATE.ACCESS_TOKEN_REFRESH in
  if isRefreshingToken then
    {| backend := set_queueState QUEUE_STATE.READY (backend c);
       queueTimeout := queueTimeout c; pending := pending c;
       nextTimeout := nextTimeout c;
       logged := logged c ++ ["Unblocked queue on timeout"] |}
  else c.

(** [scheduleQueueUnblock()] *)
Definition scheduleQueueUnblock (c : Client) : Client :=
  let c1 := clearQueueUnblockTimeout c in
  let tid := nextTimeout c1 in
  {| backend := backend c1; queueTimeout := Some tid;
     pending := pending c1 ++ [tid];
     nextTimeout := Pos.succ tid; logged := logged c1 |}.

(** The window fires the timeout [tid]: it is removed before its callback
    runs. *)
Definition fire (tid : positive) (c : Client) : Client :=
  if existsb (Pos.eqb tid) (pending c) then
    onQueueUnblock
      {| backend := backend c; queueTimeout := queueTimeout c;
         pending := filter (fun t => negb (Pos.eqb t tid)) (pending c);
         nextTimeout := nextTimeout c; logged := logged c |}
  else c.

(** What can happen to the timeout: the two methods, the window firing a
    timer, and another method of the client, which changes the client but
    not the timeout. *)
Inductive Operation : Type :=
| ClearQueueUnblockTimeout
| ScheduleQueueUnblock
| TimeoutFires (tid : positive)
| ClientMethod (method : BackendClient -> BackendClient).

Definition run (op : Operation) (c : Client) : Client :=
  match op with
  | ClearQueueUnblockTimeout => clearQueueUnblockTimeout c
  | ScheduleQueueUnblock => scheduleQueueUnblock c
  | TimeoutFires tid => fire tid c
  | ClientMethod method =>
      {| backend := method (backend c); queueTimeout := queueTimeout c;
         pending := pending c; nextTimeout := nextTimeout c; logged := logged c |}
  end.

Definition run_all (ops : list Operation) (c : Client) : Client :=
  fold_left (fun acc op => run op acc) ops c.

(** The pending timeouts are the one the client holds, if any. *)
Definition tracked (c : Client) : Prop :=
  NoDup (pending c)
  /\ Forall (fun t => (t < nextTimeout c)%positive) (pending c)
  /\ (forall t, In t (pending c) -> queueTimeout c = Some t).

End QueueUnblock.

(* ------------------------------------------------------------------ *)
(** ** Comparing the mentions and the text of a message *)
(* ------------------------------------------------------------------ *)

Module MessageComparator.

(** A mention, as far as the comparison looks into it. *)
Record MentionEntity : Type := { userId : string }.

(** [Array.prototype.sort()] without a comparator on an array of strings:
    ascending by code units.  The strings are sequences of 8-bit code
    units here. *)
Fixpoint insert (s : string) (sorted : list string) : list string :=
  match sorted with
  | [] => [s]
  | t :: rest => if String.leb s t then s :: t :: rest else t :: insert s rest
  end.

Definition sort (l : list string) : list string := fold_right insert [] l.

(** The order of that sort. *)
Definition string_le (a b : string) : Prop := String.leb a b = true.

(** [flattenToUserId] *)
Definition flattenToUserId (mentions : list MentionEntity) : list string :=
  sort (map userId mentions).

(** [array.some((item, index) => ...)], counting the positions from [index] *)
Fixpoint some_indexed {A : Type} (f : A -> nat -> bool) (index : nat) (l : list A)
  : bool :=
  match l with
  | [] => false
  | a :: rest => f a index || some_indexed f (S index) rest
  end.

(** [areMentionsDifferent(originalMessageEntity, updatedMentions)], given
    the mentions of the first asset of the original message; [userIds[index]]
    is [undefined] beyond the end of the array, which no user id equals. *)
Definition areMentionsDifferent (originalMentions updatedMentions : list MentionEntity)
  : bool :=
  let existingMentions := flattenToUserId originalMentions in
  let userIds := flattenToUserId updatedMentions in
  let hasDifferentAmount :=
    negb (Nat.eqb (List.length existingMentions) (List.length userIds)) in
  let hasDifferentUserIDs :=
    some_indexed
      (fun userId index =>
         match nth_error userIds index with
         | Some other => negb (String.eqb userId other)
         | None => true
         end)
      0%nat existingMentions in
  hasDifferentAmount || hasDifferentUserIDs.

(** [isTextDifferent(originalMessageEntity, textMessage)], given the text of
    the first asset of the original message. *)
Definition isTextDifferent (originalText textMessage : string) : bool :=
  negb (String.eqb textMessage originalText).

End MessageComparator.

(* ------------------------------------------------------------------ *)
(** ** Sample data for the worked examples *)
(* ------------------------------------------------------------------ *)

Module Samples.
Import Call.

Definition user (uid : string) (hash : Z) : User :=
  {| user_id := uid; name := uid; joaatHash := hash |}.

Definition alice : User := user "alice" 305419896.
Definition bob : User := user "bob" 19088743.
Definition carol : User := user "carol" 2271560481.

Definition directory (uid : string) : option User :=
  if String.eqb uid "alice" then Some alice
  else if String.eqb uid "bob" then Some bob
  else if String.eqb uid "carol" then Some carol
  else None.

Definition with_flow (b : bool) (p : ParticipantEntity) : ParticipantEntity :=
  {| ref := ref p; participant_id := participant_id p; Call.user := Call.user p;
     clientId := if b then clientId p else None;
     participant_sessionId := participant_sessionId p;
     flowEntity := b; panning := panning p;
     screenSend := screenSend p; videoSend := videoSend p |}.

(** An environment: the state groups, a second of 1000 ms, a random helper
    that walks through [lo .. hi], a user repository that knows three users
    and participants whose flow is created by the negotiation. *)
Definition environment : Environment :=
  {| CAN_CONNECT := [CALL_STATE.INCOMING; CALL_STATE.ONGOING; CALL_STATE.REJECTED];
     CAN_JOIN := [CALL_STATE.INCOMING; CALL_STATE.REJECTED];
     IS_ACTIVE := [CALL_STATE.CONNECTING; CALL_STATE.DISCONNECTING;
                   CALL_STATE.INCOMING; CALL_STATE.ONGOING; CALL_STATE.OUTGOING];
     IS_ENDED := [CALL_STATE.ENDED; CALL_STATE.UNKNOWN];
     UNANSWERED := [CALL_STATE.INCOMING; CALL_STATE.OUTGOING];
     SECOND := 1000;
     getRandomNumber := fun lo hi k => lo + Z.of_nat k mod (hi - lo + 1);
     get_user_by_id := fun o =>
       match o with
       | Some uid =>
           match directory uid with
           | Some u => Resolved u
           | None => Rejected {| CallError.type := CallError.OTHER "USER_NOT_FOUND";
                                 CallError.message := "User not found" |}
           end
       | None => Rejected {| CallError.type := CallError.OTHER "USER_NOT_FOUND";
                             CallError.message := "User not found" |}
       end;
     participant_updateState := fun p _ => Resolved (false, p);
     participant_resetParticipant := with_flow false;
     participant_startNegotiation := with_flow true;
     message_delivered := fun _ _ => true |}.

(** A group call of alice (self) in a conversation created by bob. *)
Definition group_call : World :=
  CallEntity.construct environment "conversation-1" true ["bob"; "carol"]
                       bob alice false (Some "session-1") [] 1%positive.

(** A 1:1 call of alice (self) with bob. *)
Definition direct_call : World :=
  CallEntity.construct environment "conversation-2" false ["bob"]
                       bob alice false (Some "session-2") [] 1%positive.

(** Two participants get a panning, one of them leaves, and the panning is
    assigned again. *)
Definition left_alone : World :=
  CallEntity.run_all environment
    [CallEntity.AddOrUpdateParticipant "bob" false None;
     CallEntity.AddOrUpdateParticipant "carol" false None;
     CallEntity.SortParticipantsByPanning;
     CallEntity.DeleteParticipant "carol" None (Some TERMINATION_REASON.OTHER_USER);
     CallEntity.SortParticipantsByPanning]
    group_call.

Definition leave_message : CallMessageEntity :=
  buildMessage CALL_MESSAGE_TYPE.GROUP_LEAVE false (Some "session-1").

(** A verified conversation in which a device lost its verification. *)
Definition verified_conversation : VerificationHandler.Handler :=
  {| VerificationHandler.conversationEntity :=
       {| VerificationHandler.id := "conversation-1";
          VerificationHandler.selfUserId := "alice";
          VerificationHandler.verification_state := ConversationVerificationState.VERIFIED;
          VerificationHandler.is_verified := Some false |};
     VerificationHandler.injected := [];
     VerificationHandler.logged := [];
     VerificationHandler.serverTimestamp := 1546300800000 |}.

(** Status codes and labels of the backend, and a client with one request
    running and two waiting. *)
Definition tables : Backend.Tables :=
  {| Backend.ACCEPTED := 202; Backend.BAD_GATEWAY := 502; Backend.CONFLICT := 409;
     Backend.CONNECTIVITY_PROBLEM := 0; Backend.CREATED := 201;
     Backend.FORBIDDEN := 403; Backend.INTERNAL_SERVER_ERROR := 500;
     Backend.NO_CONTENT := 204; Backend.NOT_FOUND := 404; Backend.OK := 200;
     Backend.PRECONDITION_FAILED := 412; Backend.REQUEST_TIMEOUT := 408;
     Backend.REQUEST_TOO_LARGE := 413; Backend.TOO_MANY_REQUESTS := 429;
     Backend.UNAUTHORIZED := 401;
     Backend.INVALID_CREDENTIALS := "invalid-credentials";
     Backend.PASSWORD_EXISTS := "password-exists";
     Backend.TOO_MANY_CLIENTS := "too-many-clients";
     Backend.TOO_MANY_MEMBERS := "too-many-members";
     Backend.UNKNOWN_CLIENT := "unknown-client" |}.

Definition request (path : string) (p : nat) : Backend.Request :=
  {| Backend.config := {| Backend.url := path; Backend.type := "GET";
                          Backend.data := ""; Backend.skipRetry := false |};
     Backend.promise := p |}.

Definition client : Backend.BackendClient :=
  {| Backend.queueState := QUEUE_STATE.READY;
     Backend.requestQueue :=
       {| PromiseQueue._queue := [request "/conversations" 1; request "/clients" 2];
          PromiseQueue._paused := false;
          PromiseQueue.concurrent := 4 |};
     Backend.running := [request "/self" 0];
     Backend.connectivityQueue := PromiseQueue.create 1;
     Backend.connectivityTimeout := None;
     Backend.accessToken := "token";
     Backend.numberOfRequests := 1%nat;
     Backend.nextPromise := 3%nat;
     Backend.effects := [Backend.Ajax (request "/self" 0)] |}.

(** Bob as a participant of the group call once the negotiation with him
    has started. *)
Definition bob_participant : ParticipantEntity :=
  with_flow true (new_ParticipantEntity 0 bob).

(** The group call after bob joined it. *)
Definition bob_joined : World :=
  CallEntity.run_all environment
    [CallEntity.AddOrUpdateParticipant "bob" true None] group_call.

(** The group call after bob joined it and the call got connected. *)
Definition connected_call : World :=
  CallEntity.run_all environment
    [CallEntity.AddOrUpdateParticipant "bob" true None;
     CallEntity.SetConnected true] group_call.

(** The timeout that verifies the group check of the fresh group call, and
    the timeout that sends the group check of the connected call. *)
Definition verify_timer : Timer :=
  {| timer_id := 1; callback := VerifyGroupCheckTimeout;
     delay := CONFIG.ACTIVITY_TIMEOUT * SECOND environment |}.

Definition send_timer : Timer :=
  {| timer_id := 2; callback := SendGroupCheckTimeout 60;
     delay := 60 * SECOND environment |}.

End Samples.

(* ================================================================== *)
(** * Part II: theorems *)
(* ================================================================== *)

Unset Implicit Arguments.

Section VerificationHandlerFacts.

Import VerificationHandler.

(** A conversation "would change to degraded" exactly when its state is
    VERIFIED while [is_verified()] is [false]. *)
Lemma willChangeToDegraded_true_iff (h : Handler) (warn : bool) :
  fst (_willChangeToDegraded h warn) = true <->
  verification_state (conversationEntity h) = ConversationVerificationState.VERIFIED
  /\ is_verified (conversationEntity h) = Some false.
Proof.
  unfold _willChangeToDegraded.
  destruct (verification_state (conversationEntity h));
    destruct (is_verified (conversationEntity h)) as [[|]|]; simpl;
    split; intros H; try discriminate; try (destruct H; discriminate);
    auto.
Qed.

(** C9: when the conversation changes to degraded (its state is VERIFIED
    and it is no longer verified) and no user id is affected,
    [_checkChangeToDegraded] throws, the verification state of the
    conversation is VERIFIED afterwards, and no event is injected. *)
Theorem checkChangeToDegraded_without_users
        (h : Handler) (ty : VerificationMessageType.t) :
  fst (_willChangeToDegraded h
         (negb (VerificationMessageType.eqb ty VerificationMessageType.UNVERIFIED)))
  = true ->
  let r := _checkChangeToDegraded h [] ty in
  fst r = Thrown "Conversation degraded without affected users"
  /\ verification_state (conversationEntity (snd r))
     = ConversationVerificationState.VERIFIED
  /\ injected (snd r) = injected h.
Proof.
  intros Hwill r. subst r. unfold _checkChangeToDegraded.
  destruct (_willChangeToDegraded h _) as [degraded h1] eqn:E.
  cbn [fst] in Hwill. subst degraded. cbn.
  repeat split.
  unfold _willChangeToDegraded in E.
  destruct (ConversationVerificationState.eqb _ ConversationVerificationState.DEGRADED);
    [discriminate|].
  destruct (ConversationVerificationState.eqb _ ConversationVerificationState.VERIFIED
            && _); [|discriminate].
  injection E as <-. reflexivity.
Qed.

(** An instance: a verified conversation loses its verification and no user
    is named. *)
Lemma checkChangeToDegraded_without_users_witness :
  fst (_willChangeToDegraded Samples.verified_conversation
         (negb (VerificationMessageType.eqb VerificationMessageType.NEW_DEVICE
                                            VerificationMessageType.UNVERIFIED)))
  = true
  /\ fst (_checkChangeToDegraded Samples.verified_conversation []
            VerificationMessageType.NEW_DEVICE)
     = Thrown "Conversation degraded without affected users".
Proof.
  split; [reflexivity|].
  apply (checkChangeToDegraded_without_users Samples.verified_conversation
           VerificationMessageType.NEW_DEVICE eq_refl).
Defined.

End VerificationHandlerFacts.

(* ------------------------------------------------------------------ *)
(** ** CallEntity: frame lemmas *)
(* ------------------------------------------------------------------ *)

Section CallEntityFrames.

Import Call CallEntity.

Variable env : Environment.

Lemma fold_effect_world (f : ParticipantEntity -> Effect) (l : list ParticipantEntity) :
  forall w,
    fold_left (fun acc p => effect (f p) acc) l w =
    {| this := this w; timers := timers w; nextTimerId := nextTimerId w;
       draws := draws w; nextRef := nextRef w;
       effects := effects w ++ map f l |}.
Proof.
  induction l as [|p l IH]; intros w; simpl.
  - rewrite app_nil_r. destruct w; reflexivity.
  - rewrite IH. simpl. rewrite <- app_assoc. reflexivity.
Qed.

Lemma emitted_since_app (w w' : World) (es : list Effect) :
  effects w' = effects w ++ es -> emitted_since w w' = es.
Proof.
  intros H. unfold emitted_since. rewrite H.
  rewrite skipn_app, skipn_all, Nat.sub_diag. reflexivity.
Qed.

(** What [_clearTimeouts] leaves behind. *)
Lemma clearTimeouts_this (w : World) :
  this (_clearTimeouts w) =
  set_stateTimeout None (set_groupCheckTimeoutId None (this w)).
Proof.
  unfold _clearTimeouts. rewrite fold_effect_world.
  unfold _clearStateTimeout, _clearGroupCheckTimeout.
  destruct w as [c ts n d r es]; destruct c; simpl.
  destruct groupCheckTimeoutId0, stateTimeout0; reflexivity.
Qed.

Lemma clearTimeouts_effects (w : World) :
  effects (_clearTimeouts w) =
  effects w
  ++ map (fun p => FlowClearTimeouts (ref p)) (getFlows (this w))
  ++ (if JS.defined (groupCheckTimeoutId (this w))
      then [Log "Clear group check timeout"] else []).
Proof.
  unfold _clearTimeouts. rewrite fold_effect_world.
  unfold _clearStateTimeout, _clearGroupCheckTimeout.
  destruct w as [c ts n d r es]; destruct c; simpl.
  destruct groupCheckTimeoutId0, stateTimeout0; simpl;
    rewrite <- ?app_assoc, ?app_nil_r; reflexivity.
Qed.

Lemma clearTimeouts_timers (w : World) :
  timers (_clearTimeouts w) = filter (not_cleared (this w)) (timers w)
  /\ nextTimerId (_clearTimeouts w) = nextTimerId w
  /\ draws (_clearTimeouts w) = draws w.
Proof.
  unfold _clearTimeouts. rewrite fold_effect_world.
  unfold _clearStateTimeout, _clearGroupCheckTimeout, not_cleared.
  destruct w as [c ts n d r es]; destruct c; simpl.
  destruct groupCheckTimeoutId0 as [g|], stateTimeout0 as [t|]; simpl;
    repeat split; try reflexivity;
    induction ts as [|x ts IH]; simpl; try reflexivity;
    repeat (destruct (Pos.eqb _ _); simpl); congruence.
Qed.

End CallEntityFrames.

(* ------------------------------------------------------------------ *)
(** ** deactivateCall *)
(* ------------------------------------------------------------------ *)

Section Deactivation.

Import Call CallEntity.

Variable env : Environment.

Lemma TERMINATION_REASON_eqb_eq (a b : TERMINATION_REASON.t) :
  TERMINATION_REASON.eqb a b = true <-> a = b.
Proof.
  destruct a, b; simpl; split; intros H; try discriminate; try reflexivity.
  - apply String.eqb_eq in H. now subst.
  - injection H as ->. apply String.eqb_refl.
Qed.

Lemma onGroupCheck_true (reason : option TERMINATION_REASON.t) :
  onGroupCheck reason = true <-> reason = Some TERMINATION_REASON.GROUP_CHECK.
Proof.
  unfold onGroupCheck. rewrite TERMINATION_REASON_eqb_eq.
  destruct reason as [r|]; simpl; split; intros H;
    try congruence; try discriminate.
Qed.

Lemma everyoneLeft_truthy (w : World) (fromSelf : bool) :
  JS.truthy (everyoneLeft w fromSelf)
  = (List.length (participants (this w)) <=? (if fromSelf then 1 else 0))%nat.
Proof.
  unfold everyoneLeft.
  destruct (Z.leb_spec (Z.of_nat (List.length (participants (this w))))
                       (0 + JS.ToNumber fromSelf)) as [H|H];
    destruct (Nat.leb_spec (List.length (participants (this w)))
                           (if fromSelf then 1 else 0)%nat) as [H'|H'];
    try reflexivity; exfalso; destruct fromSelf; simpl in *; lia.
Qed.

Lemma clearTimeouts_participants (w : World) :
  participants (this (_clearTimeouts w)) = participants (this w).
Proof. rewrite clearTimeouts_this. destruct (this w); reflexivity. Qed.

(** The two branches of [deactivateCall]. *)
Lemma deactivateCall_deleting (w : World) (m : CallMessageEntity)
      (fromSelf : bool) (reason : option TERMINATION_REASON.t) :
  shouldDeleteCall w fromSelf reason = true ->
  deactivateCall env m fromSelf reason w
  = (Resolved true,
     _deleteCall m (everyoneLeft w fromSelf) (onGroupCheck reason)
       (upd (set_terminationReason (Some (reason_or_default reason)))
            (_clearTimeouts w))).
Proof.
  unfold shouldDeleteCall. rewrite <- everyoneLeft_truthy. intros H.
  unfold deactivateCall. fold (reason_or_default reason). fold (onGroupCheck reason).
  rewrite clearTimeouts_participants. fold (everyoneLeft w fromSelf).
  now rewrite H.
Qed.

Lemma deactivateCall_keeping (w : World) (m : CallMessageEntity)
      (fromSelf : bool) (reason : option TERMINATION_REASON.t) :
  shouldDeleteCall w fromSelf reason = false ->
  deactivateCall env m fromSelf reason w
  = (Resolved false,
     effect ResetMediaStream
       (if isGroup (this w)
        then scheduleGroupCheck env (_clearTimeouts w)
        else _clearTimeouts w)).
Proof.
  unfold shouldDeleteCall. rewrite <- everyoneLeft_truthy. intros H.
  unfold deactivateCall. fold (reason_or_default reason). fold (onGroupCheck reason).
  rewrite clearTimeouts_participants. fold (everyoneLeft w fromSelf).
  rewrite H. rewrite clearTimeouts_this.
  destruct (this w); reflexivity.
Qed.

Lemma deleteCall_world (m : CallMessageEntity) (e : Z) (g : bool) (w : World) :
  _deleteCall m e g w
  = {| this := this w; timers := timers w; nextTimerId := nextTimerId w;
       draws := draws w; nextRef := nextRef w;
       effects :=
         effects w
         ++ (if g && negb (JS.truthy e)
             then [Log "Deactivation on group check with remaining users"]
             else [])
         ++ [InjectDeactivateEvent
               (msg_set_userId (user_id (creatingUser (this w))) m)
               (if g then INJECTED else WEB_SOCKET)
               (if wasConnected (this w) then TERMINATION_REASON.COMPLETED
                else TERMINATION_REASON.MISSED);
             RepositoryDeleteCall (id (this w))] |}.
Proof.
  unfold _deleteCall. destruct w as [c ts n d r es]. simpl.
  destruct (g && negb (JS.truthy e)); destruct (wasConnected c);
    unfold effect; simpl; rewrite <- ?app_assoc; reflexivity.
Qed.

Lemma filter_flow_clear (f : Effect -> bool) (l : list ParticipantEntity) :
  (forall n, f (FlowClearTimeouts n) = false) ->
  filter f (map (fun p => FlowClearTimeouts (ref p)) l) = [].
Proof.
  intros Hf. induction l as [|p l IH]; simpl; [reflexivity|]. now rewrite Hf.
Qed.

Lemma deactivateCall_deleting_effects (w : World) (m : CallMessageEntity)
      (fromSelf : bool) (reason : option TERMINATION_REASON.t) :
  shouldDeleteCall w fromSelf reason = true ->
  effects (snd (deactivateCall env m fromSelf reason w))
  = effects w
    ++ (map (fun p => FlowClearTimeouts (ref p)) (getFlows (this w))
        ++ (if JS.defined (groupCheckTimeoutId (this w))
            then [Log "Clear group check timeout"] else [])
        ++ (if onGroupCheck reason && negb (JS.truthy (everyoneLeft w fromSelf))
            then [Log "Deactivation on group check with remaining users"]
            else [])
        ++ [deactivation_event w m reason; RepositoryDeleteCall (id (this w))]).
Proof.
  intros H. rewrite (deactivateCall_deleting w m fromSelf reason H).
  cbn [snd]. rewrite deleteCall_world. cbn [effects upd this].
  rewrite clearTimeouts_this, clearTimeouts_effects. unfold deactivation_event.
  destruct (this w); simpl. rewrite <- !app_assoc. reflexivity.
Qed.

(** Everything the deleting branch does, in one statement. *)
Lemma deactivateCall_deleting_facts (w : World) (m : CallMessageEntity)
      (fromSelf : bool) (reason : option TERMINATION_REASON.t) :
  shouldDeleteCall w fromSelf reason = true ->
  let r := deactivateCall env m fromSelf reason w in
  fst r = Resolved true
  /\ terminationReason (this (snd r)) = Some (reason_or_default reason)
  /\ filter is_deletion (emitted_since w (snd r)) = [RepositoryDeleteCall (id (this w))]
  /\ filter is_deactivation_event (emitted_since w (snd r))
     = [deactivation_event w m reason]
  /\ filter is_media_reset (emitted_since w (snd r)) = []
  /\ groupCheckTimeoutId (this (snd r)) = None
  /\ timers (snd r) = filter (not_cleared (this w)) (timers w)
  /\ nextTimerId (snd r) = nextTimerId w.
Proof.
  intros H r. subst r.
  pose proof (deactivateCall_deleting_effects w m fromSelf reason H) as He.
  apply emitted_since_app in He. rewrite He. clear He.
  rewrite (deactivateCall_deleting w m fromSelf reason H).
  cbn [fst snd]. rewrite deleteCall_world. cbn [this timers nextTimerId effects upd].
  rewrite clearTimeouts_this.
  destruct (clearTimeouts_timers w) as (Htm & Hnext & _).
  rewrite !filter_app. rewrite !filter_flow_clear by reflexivity.
  destruct (JS.defined (groupCheckTimeoutId (this w)));
    destruct (onGroupCheck reason && negb (JS.truthy (everyoneLeft w fromSelf)));
    simpl; repeat split; try reflexivity; try assumption;
    destruct (this w); reflexivity.
Qed.

(** [scheduleGroupCheck] when no group-check timer is held. *)
Lemma scheduleGroupCheck_fresh (w : World) :
  groupCheckTimeoutId (this w) = None ->
  this (scheduleGroupCheck env w)
  = set_groupCheckTimeoutId (Some (nextTimerId w)) (this w)
  /\ timers (scheduleGroupCheck env w) = timers w ++ [scheduled_timer env w]
  /\ nextTimerId (scheduleGroupCheck env w) = Pos.succ (nextTimerId w)
  /\ effects (scheduleGroupCheck env w)
     = effects w
       ++ [Log (if isConnected (this w)
                then "Set sending group check after timeout"
                else "Set verifying group check after timeout")].
Proof.
  intros E. unfold scheduleGroupCheck, _clearGroupCheckTimeout, scheduled_timer.
  rewrite E. cbv zeta.
  destruct (isConnected (this w));
    unfold _setSendGroupCheckTimeout, _setVerifyGroupCheckTimeout, window_setTimer;
    simpl; repeat split; reflexivity.
Qed.

Lemma deactivateCall_keeping_effects (w : World) (m : CallMessageEntity)
      (fromSelf : bool) (reason : option TERMINATION_REASON.t) :
  shouldDeleteCall w fromSelf reason = false ->
  effects (snd (deactivateCall env m fromSelf reason w))
  = effects w
    ++ (map (fun p => FlowClearTimeouts (ref p)) (getFlows (this w))
        ++ (if JS.defined (groupCheckTimeoutId (this w))
            then [Log "Clear group check timeout"] else [])
        ++ (if isGroup (this w)
            then [Log (if isConnected (this w)
                       then "Set sending group check after timeout"
                       else "Set verifying group check after timeout")]
            else [])
        ++ [ResetMediaStream]).
Proof.
  intros H. rewrite (deactivateCall_keeping w m fromSelf reason H).
  cbn [snd effect effects].
  assert (Hg : groupCheckTimeoutId (this (_clearTimeouts w)) = None)
    by (rewrite clearTimeouts_this; destruct (this w); reflexivity).
  assert (Hc : isConnected (this (_clearTimeouts w)) = isConnected (this w))
    by (rewrite clearTimeouts_this; destruct (this w); reflexivity).
  destruct (isGroup (this w)).
  - destruct (scheduleGroupCheck_fresh _ Hg) as (_ & _ & _ & He).
    rewrite He, Hc, clearTimeouts_effects. rewrite <- !app_assoc. reflexivity.
  - rewrite clearTimeouts_effects. rewrite <- !app_assoc. reflexivity.
Qed.

Lemma shouldDeleteCall_iff (w : World) (fromSelf : bool)
      (reason : option TERMINATION_REASON.t) :
  shouldDeleteCall w fromSelf reason = true <->
  (List.length (participants (this w)) <= (if fromSelf then 1 else 0))%nat
  \/ reason = Some TERMINATION_REASON.GROUP_CHECK.
Proof.
  unfold shouldDeleteCall. rewrite orb_true_iff, Nat.leb_le, onGroupCheck_true.
  reflexivity.
Qed.

(** C10: [deactivateCall] resolves true and deletes the call exactly when at
    most [fromSelf ? 1 : 0] participants are left or the reason is
    GROUP_CHECK (so with [fromSelf] and one remaining participant the call
    is deleted); otherwise it resolves false, deletes nothing, reschedules
    the group check for a group call only, and resets the media stream. *)
Theorem deactivateCall_decision (w : World) (m : CallMessageEntity)
        (fromSelf : bool) (reason : option TERMINATION_REASON.t) :
  let r := deactivateCall env m fromSelf reason w in
  let left_or_check :=
    (List.length (participants (this w)) <= (if fromSelf then 1 else 0))%nat
    \/ reason = Some TERMINATION_REASON.GROUP_CHECK in
  (fst r = Resolved true <-> left_or_check)
  /\ (fst r = Resolved false <-> ~ left_or_check)
  /\ (left_or_check ->
      filter is_deletion (emitted_since w (snd r)) = [RepositoryDeleteCall (id (this w))]
      /\ filter is_deactivation_event (emitted_since w (snd r))
         = [deactivation_event w m reason]
      /\ filter is_media_reset (emitted_since w (snd r)) = []
      /\ groupCheckTimeoutId (this (snd r)) = None
      /\ nextTimerId (snd r) = nextTimerId w)
  /\ (fromSelf = true -> List.length (participants (this w)) = 1%nat ->
      fst r = Resolved true
      /\ filter is_deletion (emitted_since w (snd r))
         = [RepositoryDeleteCall (id (this w))])
  /\ (~ left_or_check ->
      filter is_deletion (emitted_since w (snd r)) = []
      /\ filter is_deactivation_event (emitted_since w (snd r)) = []
      /\ filter is_media_reset (emitted_since w (snd r)) = [ResetMediaStream]
      /\ (if isGroup (this w)
          then groupCheckTimeoutId (this (snd r)) = Some (nextTimerId w)
               /\ active_group_checks (snd r)
                  = active_group_checks (_clearTimeouts w)
                    ++ [scheduled_timer env (_clearTimeouts w)]
               /\ nextTimerId (snd r) = Pos.succ (nextTimerId w)
          else groupCheckTimeoutId (this (snd r)) = None
               /\ active_group_checks (snd r) = active_group_checks (_clearTimeouts w)
               /\ nextTimerId (snd r) = nextTimerId w)).
Proof.
  intros r left_or_check. subst r left_or_check.
  rewrite <- shouldDeleteCall_iff.
  destruct (shouldDeleteCall w fromSelf reason) eqn:Hs.
  - destruct (deactivateCall_deleting_facts w m fromSelf reason Hs)
      as (Hr & _ & Hdel & Hev & Hmr & Hg & _ & Hn).
    cbv zeta in *. rewrite Hr. repeat split; auto; try discriminate;
      try (intros; congruence).
  - pose proof (deactivateCall_keeping_effects w m fromSelf reason Hs) as He.
    apply emitted_since_app in He. rewrite He. clear He.
    rewrite (deactivateCall_keeping w m fromSelf reason Hs). cbn [fst snd].
    split; [split; intros; discriminate|].
    split; [split; [intros _ C; discriminate|reflexivity]|].
    split; [intros C; discriminate|].
    split.
    { intros -> Hone. exfalso. unfold shouldDeleteCall in Hs. rewrite Hone in Hs.
      simpl in Hs. discriminate. }
    intros _. rewrite !filter_app. rewrite !filter_flow_clear by reflexivity.
    assert (Hg : groupCheckTimeoutId (this (_clearTimeouts w)) = None)
      by (rewrite clearTimeouts_this; destruct (this w); reflexivity).
    destruct (clearTimeouts_timers w) as (Htm & Hnext & _).
    split; [destruct (JS.defined _), (isGroup (this w)); reflexivity|].
    split; [destruct (JS.defined _), (isGroup (this w)); reflexivity|].
    split; [destruct (JS.defined _), (isGroup (this w)); reflexivity|].
    destruct (isGroup (this w)).
    + destruct (scheduleGroupCheck_fresh _ Hg) as (Hthis & Ht & Hn & _).
      unfold active_group_checks. cbn [this timers nextTimerId effect].
      rewrite Hthis, Ht, Hn, Hnext. split; [|split; [|reflexivity]].
      * destruct (this (_clearTimeouts w)); reflexivity.
      * rewrite filter_app. simpl.
        assert (Hsg : is_group_check (scheduled_timer env (_clearTimeouts w)) = true)
          by (unfold scheduled_timer, is_group_check;
              destruct (isConnected (this (_clearTimeouts w))); reflexivity).
        now rewrite Hsg.
    + cbn [this timers nextTimerId effect]. auto.
Qed.

(** C1: with no participant left, [deactivateCall] from the self user with
    a reason other than GROUP_CHECK resolves true, records the reason,
    deletes the call once, emits one deactivation event (MISSED when the
    call was never connected, COMPLETED otherwise) and sets no timer. *)
Theorem deactivateCall_fromSelf_nobody_left (w : World) (m : CallMessageEntity)
        (reason : option TERMINATION_REASON.t) :
  participants (this w) = [] ->
  reason <> Some TERMINATION_REASON.GROUP_CHECK ->
  let r := deactivateCall env m true reason w in
  fst r = Resolved true
  /\ terminationReason (this (snd r)) = Some (reason_or_default reason)
  /\ filter is_deletion (emitted_since w (snd r)) = [RepositoryDeleteCall (id (this w))]
  /\ filter is_deactivation_event (emitted_since w (snd r))
     = [InjectDeactivateEvent
          (msg_set_userId (user_id (creatingUser (this w))) m)
          WEB_SOCKET
          (if wasConnected (this w)
           then TERMINATION_REASON.COMPLETED else TERMINATION_REASON.MISSED)]
  /\ groupCheckTimeoutId (this (snd r)) = None
  /\ active_group_checks (snd r) = filter (not_cleared (this w)) (active_group_checks w)
  /\ nextTimerId (snd r) = nextTimerId w
  /\ incl (timers (snd r)) (timers w)
  /\ (heartbeat_invariant w -> active_group_checks (snd r) = []).
Proof.
  intros Hp Hr r. subst r.
  assert (Hs : shouldDeleteCall w true reason = true)
    by (unfold shouldDeleteCall; now rewrite Hp).
  assert (Hg : onGroupCheck reason = false).
  { destruct (onGroupCheck reason) eqn:E; [|reflexivity].
    apply onGroupCheck_true in E. contradiction. }
  destruct (deactivateCall_deleting_facts w m true reason Hs)
    as (H1 & H2 & H3 & H4 & _ & H6 & H7 & H8).
  cbv zeta in *. unfold deactivation_event in H4. rewrite Hg in H4.
  repeat split; auto.
  - unfold active_group_checks. rewrite H7.
    clear. induction (timers w) as [|t ts IH]; simpl; [reflexivity|].
    destruct (not_cleared (this w) t) eqn:A, (is_group_check t) eqn:B; simpl;
      rewrite ?A, ?B; congruence.
  - rewrite H7. intros t Hin. apply filter_In in Hin. tauto.
  - intros (_ & Htr & _). unfold active_group_checks. rewrite H7.
    destruct (filter is_group_check (filter (not_cleared (this w)) (timers w)))
      as [|t l] eqn:F; [reflexivity|]. exfalso.
    assert (Hin : In t (filter is_group_check
                          (filter (not_cleared (this w)) (timers w))))
      by (rewrite F; now left).
    apply filter_In in Hin as [Hin Hgc]. apply filter_In in Hin as [Hin Hnc].
    apply (Htr t Hin) in Hgc. unfold not_cleared in Hnc. rewrite Hgc in Hnc.
    rewrite Pos.eqb_refl in Hnc. discriminate.
Qed.

End Deactivation.

(* ------------------------------------------------------------------ *)
(** ** Properties that every method of the call entity preserves

    A property [P] of the world that survives the elementary state changes
    (an effect, a write to a field that is neither the participants nor the
    group-check handle, a timer of another kind set or cleared), the
    scheduling and clearing of the group check, and a write of participants
    that are all [Good], survives every method. *)
(* ------------------------------------------------------------------ *)

Section Closure.

Import Call CallEntity AsyncOps.

Variable env : Environment.
Variable P : World -> Prop.
Variable Good : ParticipantEntity -> Prop.

Hypothesis P_effect : forall e w, P w -> P (effect e w).
Hypothesis P_next_ref : forall w, P w -> P (next_ref w).
Hypothesis P_clearTimer : forall tid w, P w -> P (window_clearTimer tid w).
Hypothesis P_setTimer_state :
  forall b ms w, P w -> P (snd (window_setTimer (StateTimeout b) ms w)).
Hypothesis P_setTimer_duration :
  forall ms w, P w -> P (snd (window_setTimer DurationInterval ms w)).
Hypothesis P_wasConnected : forall v w, P w -> P (upd (set_wasConnected v) w).
Hypothesis P_isConnected : forall v w, P w -> P (upd (set_isConnected v) w).
Hypothesis P_selfClientJoined : forall v w, P w -> P (upd (set_selfClientJoined v) w).
Hypothesis P_selfUserJoined : forall v w, P w -> P (upd (set_selfUserJoined v) w).
Hypothesis P_state : forall v w, P w -> P (upd (set_state v) w).
Hypothesis P_previousState : forall v w, P w -> P (upd (set_previousState v) w).
Hypothesis P_interrupted :
  forall v w, P w -> P (upd (set_interruptedParticipants v) w).
Hypothesis P_remoteMediaType : forall v w, P w -> P (upd (set_remoteMediaType v) w).
Hypothesis P_terminationReason :
  forall v w, P w -> P (upd (set_terminationReason v) w).
Hypothesis P_stateTimeout : forall v w, P w -> P (upd (set_stateTimeout v) w).
Hypothesis P_callTimerInterval :
  forall v w, P w -> P (upd (set_callTimerInterval v) w).
Hypothesis P_sessionId : forall v w, P w -> P (upd (set_sessionId v) w).
Hypothesis P_scheduleGroupCheck : forall w, P w -> P (scheduleGroupCheck env w).
Hypothesis P_clearGroupCheck : forall w, P w -> P (_clearGroupCheckTimeout w).
Hypothesis P_participants :
  forall ps w, P w -> Forall Good ps -> P (upd (set_participants ps) w).
Hypothesis P_good : forall w, P w -> Forall Good (participants (this w)).
Hypothesis Good_same_object : forall p p', Good p -> Good (same_object p p').
Hypothesis Good_set_clientId : forall c p, Good p -> Good (set_clientId c p).
Hypothesis Good_set_panning : forall v p, Good p -> Good (set_panning v p).
Hypothesis Good_added :
  forall w userId u r,
    P w -> String.eqb userId (user_id (selfUser (this w))) = false ->
    get_user_by_id env (Some userId) = Resolved u ->
    Good (new_ParticipantEntity r u).
Hypothesis Good_added_undefined :
  forall u r, get_user_by_id env None = Resolved u -> Good (new_ParticipantEntity r u).

Ltac step :=
  match goal with
  | |- P (if ?b then _ else _) => destruct b eqn:?
  | |- P (match ?x with Some _ => _ | None => _ end) => destruct x eqn:?
  | |- P (effect _ _) => apply P_effect
  | |- P (upd (set_wasConnected _) _) => apply P_wasConnected
  | |- P (upd (set_isConnected _) _) => apply P_isConnected
  | |- P (upd (set_selfClientJoined _) _) => apply P_selfClientJoined
  | |- P (upd (set_selfUserJoined _) _) => apply P_selfUserJoined
  | |- P (upd (set_state _) _) => apply P_state
  | |- P (upd (set_previousState _) _) => apply P_previousState
  | |- P (upd (set_remoteMediaType _) _) => apply P_remoteMediaType
  | |- P (upd (set_terminationReason _) _) => apply P_terminationReason
  | |- P (upd (set_stateTimeout _) _) => apply P_stateTimeout
  | |- P (upd (set_callTimerInterval _) _) => apply P_callTimerInterval
  | |- P (upd (set_sessionId _) _) => apply P_sessionId
  | |- P (window_clearTimer _ _) => apply P_clearTimer
  | |- P (next_ref _) => apply P_next_ref
  | |- P (scheduleGroupCheck _ _) => apply P_scheduleGroupCheck
  | |- P (_clearGroupCheckTimeout _) => apply P_clearGroupCheck
  end.

Ltac steps := cbv zeta; repeat (first [assumption | step]; cbv zeta).

Lemma P_fold_effect (f : ParticipantEntity -> Effect) (l : list ParticipantEntity) :
  forall w, P w -> P (fold_left (fun acc p => effect (f p) acc) l w).
Proof. induction l as [|p l IH]; intros w H; simpl; auto. Qed.

Lemma P_clearStateTimeout w : P w -> P (_clearStateTimeout w).
Proof. intros H. unfold _clearStateTimeout. steps. Qed.

Lemma P_clearTimeouts w : P w -> P (_clearTimeouts w).
Proof.
  intros H. unfold _clearTimeouts. cbv zeta.
  apply P_clearStateTimeout, P_clearGroupCheck, P_fold_effect, H.
Qed.

Lemma P_stopRingTone b w : P w -> P (_stopRingTone b w).
Proof. intros H. unfold _stopRingTone. steps. Qed.

Lemma P_setStateTimeout b w : P w -> P (_setStateTimeout env b w).
Proof.
  intros H. unfold _setStateTimeout.
  pose proof (P_setTimer_state b (CONFIG.STATE_TIMEOUT env) w H) as H1.
  destruct (window_setTimer (StateTimeout b) (CONFIG.STATE_TIMEOUT env) w) as [tid w1].
  apply P_stateTimeout. exact H1.
Qed.

Lemma P_onStateStartRinging b w : P w -> P (_onStateStartRinging env b w).
Proof.
  intros H. unfold _onStateStartRinging, _playRingTone.
  apply P_setStateTimeout. steps.
Qed.

Lemma P_onStateStopRinging w : P w -> P (_onStateStopRinging env w).
Proof.
  intros H. unfold _onStateStopRinging. cbv zeta.
  destruct (match previousState (this w) with
            | Some s => CALL_STATE.includes (UNANSWERED env) s
            | None => false
            end); [apply P_stopRingTone|]; assumption.
Qed.

Lemma P_state_subscriber st w : P w -> P (state_subscriber env st w).
Proof.
  intros H. unfold state_subscriber. cbv zeta.
  apply P_previousState.
  assert (H2 : P (_clearStateTimeout (effect (Log "Call state changed") w)))
    by (apply P_clearStateTimeout, P_effect, H).
  set (w2 := _clearStateTimeout (effect (Log "Call state changed") w)) in *.
  destruct (CALL_STATE.eqb st CALL_STATE.CONNECTING);
    [apply P_effect|];
    (destruct (negb (CALL_STATE.eqb st CALL_STATE.UNKNOWN)); [|exact H2];
     destruct (CALL_STATE.includes (UNANSWERED env) st);
     [destruct (negb (CALL_STATE.eqb st CALL_STATE.INCOMING && selfUserIsAway (this w2)));
      [apply P_onStateStartRinging|]; exact H2
     |apply P_onStateStopRinging; exact H2]).
Qed.

Lemma P_write_state v w : P w -> P (write_state env v w).
Proof.
  intros H. unfold write_state.
  destruct (CALL_STATE.eqb (state (this w)) v); [exact H|]. cbv zeta.
  apply P_state_subscriber.
  destruct (isDeclined (this (upd (set_state v) w)));
    [apply P_stopRingTone|]; apply P_state, H.
Qed.

Lemma P_notify_networkInterruption b w : P w -> P (notify_networkInterruption b w).
Proof. intros H. unfold notify_networkInterruption. steps. Qed.

Lemma P_notify_numberOfParticipants n w : P w -> P (notify_numberOfParticipants n w).
Proof. intros H. unfold notify_numberOfParticipants. steps. Qed.

Lemma P_write_isConnected v w : P w -> P (write_isConnected env v w).
Proof.
  intros H. unfold write_isConnected.
  destruct (Bool.eqb (isConnected (this w)) v); [exact H|]. cbv zeta.
  apply P_notify_networkInterruption.
  destruct v; [|apply P_isConnected, H].
  set (wc := effect TelemetryEstablishedCall _).
  assert (Hc : P wc).
  { subst wc. apply P_effect.
    destruct (isGroup (this (upd (set_wasConnected true) (upd (set_isConnected true) w))));
      [apply P_scheduleGroupCheck|]; apply P_wasConnected, P_isConnected, H. }
  pose proof (P_setTimer_duration (CONFIG.UPDATE_INTERVAL env) wc Hc) as H1.
  destruct (window_setTimer DurationInterval (CONFIG.UPDATE_INTERVAL env) wc) as [tid wd].
  apply P_callTimerInterval. exact H1.
Qed.

Lemma P_resetTimer w : P w -> P (_resetTimer w).
Proof. intros H. unfold _resetTimer. steps. Qed.

Lemma P_resetFlows w : P w -> P (_resetFlows w).
Proof. intros H. unfold _resetFlows. apply P_fold_effect, H. Qed.

Lemma P_write_selfClientJoined v w : P w -> P (write_selfClientJoined env v w).
Proof.
  intros H. unfold write_selfClientJoined.
  destruct (Bool.eqb (selfClientJoined (this w)) v); [exact H|]. cbv zeta.
  assert (H2 : P (notify_numberOfParticipants (numberOfParticipants (this w))
                    (upd (set_selfClientJoined v) w)))
    by (apply P_notify_numberOfParticipants, P_selfClientJoined, H).
  destruct (negb v); [|exact H2].
  apply P_resetFlows, P_resetTimer.
  set (wa := write_isConnected env false _).
  assert (Ha : P wa) by (subst wa; apply P_write_isConnected, H2).
  set (wb := if isOngoing (this wa) || isDisconnecting (this wa)
             then effect (AudioPlay AudioType.TALK_LATER) wa else wa).
  assert (Hb : P wb)
    by (subst wb; destruct (isOngoing (this wa) || isDisconnecting (this wa)); steps).
  destruct (JS.defined (terminationReason (this wb))); steps.
Qed.

Lemma P_setSelfState b r w : P w -> P (setSelfState env b r w).
Proof.
  intros H. unfold setSelfState. cbv zeta.
  apply P_selfUserJoined, P_write_selfClientJoined. steps.
Qed.

Lemma P_deleteCall_ m e g w : P w -> P (_deleteCall m e g w).
Proof.
  intros H. unfold _deleteCall. cbv zeta.
  apply P_effect, P_effect. steps.
Qed.

Lemma P_deactivateCall m f r w : P w -> P (snd (deactivateCall env m f r w)).
Proof.
  intros H. unfold deactivateCall. cbv zeta.
  pose proof (P_clearTimeouts w H) as H1.
  set (w1 := _clearTimeouts w) in *.
  match goal with |- P (snd (if ?b then _ else _)) => destruct b end; cbn [snd].
  - apply P_deleteCall_, P_terminationReason, H1.
  - apply P_effect. steps.
Qed.

(** Participants. *)

Lemma lookup_In (ps : list ParticipantEntity) (userId : string) (p : ParticipantEntity) :
  getParticipantById_loop ps userId = Some p ->
  In p ps /\ participant_id p = userId.
Proof.
  induction ps as [|q ps IH]; simpl; [discriminate|].
  destruct (String.eqb (participant_id q) userId) eqn:E.
  - intros [= ->]. split; [now left|]. now apply String.eqb_eq.
  - intros H. destruct (IH H) as [Hin Hid]. split; [now right|exact Hid].
Qed.

Lemma Good_lookup w userId p :
  P w -> getParticipantById_loop (participants (this w)) userId = Some p -> Good p.
Proof.
  intros H E. apply lookup_In in E as [Hin _].
  pose proof (P_good w H) as HG. rewrite Forall_forall in HG. auto.
Qed.

Lemma P_write_participant p w : P w -> Good p -> P (write_participant p w).
Proof.
  intros H Hp. unfold write_participant.
  change (P (upd (set_participants
                    (map (fun q => if Nat.eqb (ref q) (ref p) then p else q)
                         (participants (this w)))) w)).
  apply P_participants; [exact H|].
  pose proof (P_good w H) as HG.
  induction HG as [|q l Hq _ IH]; simpl; constructor; auto.
  destruct (Nat.eqb (ref q) (ref p)); assumption.
Qed.

Lemma P_write_participants ps w : P w -> Forall Good ps -> P (write_participants ps w).
Proof.
  intros H Hps. unfold write_participants. cbv zeta.
  apply P_notify_numberOfParticipants, P_participants; assumption.
Qed.

Lemma P_participants_push p w : P w -> Good p -> P (participants_push p w).
Proof.
  intros H Hp. unfold participants_push. apply P_write_participants; [exact H|].
  apply Forall_app. split; [apply P_good, H|]. constructor; [exact Hp|constructor].
Qed.

Lemma Forall_filter_Good (f : ParticipantEntity -> bool) (ps : list ParticipantEntity) :
  Forall Good ps -> Forall Good (filter f ps).
Proof.
  intros H. induction H as [|q l Hq _ IH]; simpl; [constructor|].
  destruct (f q); [constructor|]; assumption.
Qed.

Lemma P_participants_remove p w : P w -> P (participants_remove p w).
Proof.
  intros H. unfold participants_remove. apply P_write_participants; [exact H|].
  apply Forall_filter_Good, P_good, H.
Qed.

Lemma P_interrupted_remove p w : P w -> P (interruptedParticipants_remove p w).
Proof.
  intros H. unfold interruptedParticipants_remove. cbv zeta.
  apply P_notify_networkInterruption.
  change (P (upd (set_interruptedParticipants
                    (filter (fun r => negb (Nat.eqb r (ref p)))
                            (interruptedParticipants (this w)))) w)).
  apply P_interrupted, H.
Qed.

Lemma P_updateRemoteState w : P w -> P (_updateRemoteState w).
Proof.
  intros H. unfold _updateRemoteState. cbv zeta.
  destruct (fold_left _ _ _); apply P_remoteMediaType, H.
Qed.

(** A method that settles with a participant: the world keeps [P] and a
    participant it resolves with is [Good]. *)
Local Abbreviation keeps r :=
  (P (snd r) /\ (forall p, fst r = @Resolved CallError.t ParticipantEntity p -> Good p)).

Lemma keeps_updateParticipantState p negotiate m w :
  P w -> Good p -> keeps (_updateParticipantState env p negotiate m w).
Proof.
  intros H Hp. unfold _updateParticipantState. cbv zeta.
  set (updatePromise := match m with Some _ => _ | None => _ end).
  assert (Hu : forall skip p1, updatePromise = Resolved (skip, p1) -> Good p1).
  { subst updatePromise. intros skip p1. destruct m as [msg|].
    - destruct (participant_updateState env p msg) as [[sk p']|e]; [|discriminate].
      intros [= _ <-]. apply Good_same_object, Hp.
    - intros [= _ <-]. exact Hp. }
  destruct updatePromise as [[skip p1]|e].
  - pose proof (Hu skip p1 eq_refl) as Hp1.
    assert (H2 : P (_updateRemoteState (write_participant p1 w)))
      by (apply P_updateRemoteState, P_write_participant; assumption).
    destruct (if skip then false else negotiate); cbn [fst snd].
    + split.
      * apply P_effect, P_write_participant; [exact H2|].
        apply Good_same_object, Hp1.
      * intros q [= <-]. apply Good_same_object, Hp1.
    + split; [exact H2|]. intros q [= <-]. exact Hp1.
  - cbn [fst snd]. split; [exact H|]. intros q; discriminate.
Qed.

Lemma Good_verify p c p1 : Good p -> verify_if_given p c = Resolved p1 -> Good p1.
Proof.
  intros Hp. unfold verify_if_given, verifyClientId.
  destruct c as [c'|]; [|intros [= <-]; exact Hp].
  destruct (JS.truthy_string c'); [|intros [= <-]; exact Hp].
  destruct (clientId p) as [bound|].
  - destruct (String.eqb bound c'); [intros [= <-]; exact Hp|discriminate].
  - intros [= <-]. apply Good_set_clientId, Hp.
Qed.

Lemma keeps_updateParticipant p negotiate m w :
  P w -> Good p -> keeps (_updateParticipant env p negotiate m w).
Proof.
  intros H Hp. unfold _updateParticipant. cbv zeta.
  destruct (verify_if_given p _) as [p1|e] eqn:E.
  - apply keeps_updateParticipantState.
    + apply P_effect, P_write_participant; [exact H|]. eapply Good_verify; eauto.
    + eapply Good_verify; eauto.
  - split; [exact H|]. intros q; discriminate.
Qed.

Lemma keeps_addParticipant userId negotiate m w :
  P w -> keeps (_addParticipant env userId negotiate m w).
Proof.
  intros H. unfold _addParticipant. cbv zeta.
  destruct (String.eqb userId (user_id (selfUser (this w)))) eqn:Eself.
  - split; [exact H|]. intros q; discriminate.
  - destruct (get_user_by_id env (Some userId)) as [u|e] eqn:Eu.
    + assert (Hg : Good (new_ParticipantEntity (nextRef w) u))
        by (eapply Good_added; eauto).
      apply keeps_updateParticipantState; [|exact Hg].
      apply P_effect, P_participants_push; [apply P_next_ref, H|exact Hg].
    + split; [exact H|]. intros q; discriminate.
Qed.

Lemma keeps_addOrUpdateParticipant userId negotiate m w :
  P w -> keeps (addOrUpdateParticipant env userId negotiate m w).
Proof.
  intros H. unfold addOrUpdateParticipant, catch_, then_, getParticipantById.
  destruct (getParticipantById_loop (participants (this w)) userId) as [p|] eqn:E.
  - pose proof (keeps_updateParticipant p negotiate m w H (Good_lookup w userId p H E)) as K.
    destruct (_updateParticipant env p negotiate m w) as [[q|e] w1]; [exact K|].
    destruct K as [K1 _]. cbn [snd] in K1.
    destruct (CallError.is_NOT_FOUND e).
    + apply keeps_addParticipant, K1.
    + unfold reject. split; [exact K1|]. intros q; discriminate.
  - cbn [CallError.is_NOT_FOUND NOT_FOUND_error CallError.type].
    apply keeps_addParticipant, H.
Qed.

Lemma P_audio_on_removal r w : P w -> P (audio_on_removal r w).
Proof.
  intros H. unfold audio_on_removal.
  destruct r as [[]|]; try exact H; apply P_effect, H.
Qed.

Lemma P_deleteParticipant userId c r w :
  P w -> P (snd (deleteParticipant env userId c r w)).
Proof.
  intros H. unfold deleteParticipant, catch_, then_, getParticipantById.
  destruct (getParticipantById_loop (participants (this w)) userId) as [p|] eqn:E.
  - pose proof (Good_lookup w userId p H E) as Hp.
    destruct (verify_if_given p c) as [p1|e] eqn:Ev.
    + cbn [snd]. apply P_effect.
      pose proof (Good_verify p c p1 Hp Ev) as Hp1.
      set (p2 := same_object p1 (participant_resetParticipant env p1)).
      assert (H5 : P (effect (RemoveMediaElement userId)
                        (_updateRemoteState
                           (participants_remove p2
                              (interruptedParticipants_remove p2
                                 (write_participant p2 w)))))).
      { apply P_effect, P_updateRemoteState, P_participants_remove,
          P_interrupted_remove, P_write_participant; [exact H|].
        apply Good_same_object, Hp1. }
      match goal with |- P (if ?b then _ else _) => destruct b end;
        [apply P_audio_on_removal|]; exact H5.
    + destruct (CallError.is_NOT_FOUND e); exact H.
  - exact H.
Qed.

Lemma P_resetParticipant userId w : P w -> P (snd (resetParticipant env userId w)).
Proof.
  intros H. unfold resetParticipant, then_, getParticipantById.
  destruct (getParticipantById_loop (participants (this w)) userId) as [p|] eqn:E;
    [|exact H].
  cbn [snd]. apply P_effect, P_updateRemoteState, P_interrupted_remove,
               P_write_participant; [exact H|].
  apply Good_same_object. eapply Good_lookup; eauto.
Qed.

(** Panning. *)

Lemma Forall_insert_by_hash p l :
  Good p -> Forall Good l -> Forall Good (insert_by_hash p l).
Proof.
  intros Hp Hl. induction Hl as [|q l Hq Hl IH]; simpl.
  - constructor; [exact Hp|constructor].
  - destruct (joaatHash (user p) - joaatHash (user q) <=? 0);
      repeat constructor; assumption.
Qed.

Lemma Forall_sort_by_hash l : Forall Good l -> Forall Good (sort_by_hash l).
Proof.
  intros Hl. induction Hl as [|q l Hq Hl IH]; simpl; [constructor|].
  apply Forall_insert_by_hash; assumption.
Qed.

Lemma Forall_assign_panning n l :
  forall i, Forall Good l -> Forall Good (assign_panning n i l).
Proof.
  induction l as [|q l IH]; intros i Hl; simpl; [constructor|].
  inversion Hl; subst. constructor; [apply Good_set_panning; assumption|].
  apply IH; assumption.
Qed.

Lemma P_fold_log (A : Type) (e : Effect) (l : list A) :
  forall w, P w -> P (fold_left (fun acc _ => effect e acc) l w).
Proof. induction l as [|x l IH]; intros w H; simpl; auto. Qed.

Lemma P_sortParticipantsByPanning w : P w -> P (_sortParticipantsByPanning w).
Proof.
  intros H. unfold _sortParticipantsByPanning. cbv zeta.
  destruct (2 <=? List.length (participants (this w)))%nat; [|exact H].
  pose proof (Forall_sort_by_hash _ (P_good w H)) as Hs.
  apply P_effect, P_participants.
  - apply P_fold_log, P_participants; assumption.
  - apply Forall_assign_panning, Hs.
Qed.

(** Joining, leaving, rejecting. *)

Lemma P_join1to1Call w : P w -> P (_join1to1Call env w).
Proof.
  intros H. unfold _join1to1Call.
  destruct (participating_user_ids (this w)) as [|remoteUserId rest].
  - destruct (get_user_by_id env None) as [u|e] eqn:Eu; [|exact H].
    assert (Hg : Good (new_ParticipantEntity (nextRef w) u))
      by (eapply Good_added_undefined; eauto).
    apply keeps_updateParticipantState; [|exact Hg].
    apply P_effect, P_participants_push; [apply P_next_ref, H|exact Hg].
  - apply keeps_addOrUpdateParticipant, H.
Qed.

Lemma P_joinCall mediaType w : P w -> P (joinCall env mediaType w).
Proof.
  intros H. unfold joinCall. cbv zeta.
  set (w1 := if canConnectState env (this w) then _ else w).
  assert (H1 : P w1)
    by (subst w1; destruct (canConnectState env (this w));
        [apply P_write_state|]; exact H).
  destruct (isGroup (this w1)); [|apply P_join1to1Call, H1].
  unfold _joinGroupCall, sendCallMessage. cbv zeta. apply P_effect, H1.
Qed.

Lemma P_rejectCall b w : P w -> P (rejectCall env b w).
Proof.
  intros H. unfold rejectCall, sendCallMessage. cbv zeta.
  pose proof (P_write_state CALL_STATE.REJECTED w H) as H1.
  set (w1 := write_state env CALL_STATE.REJECTED w) in *.
  destruct b; [apply P_effect|]; destruct (isRemoteVideoCall (this w1)); steps.
Qed.

Lemma P_fold_send selfId (l : list ParticipantEntity) :
  forall m ok w,
    P w ->
    P (snd (fold_left
              (fun '(m, ok, acc) p =>
                 let m' := msg_addPayload selfId (Some (participant_id p)) (clientId p) m in
                 (m', ok && message_delivered env (effects acc) m',
                  sendCallMessage m' acc))
              l (m, ok, w))).
Proof.
  induction l as [|p l IH]; intros m ok w H; simpl; [exact H|].
  apply IH. unfold sendCallMessage. apply P_effect, H.
Qed.

Lemma P_fold_reset (l : list ParticipantEntity) :
  forall w,
    P w ->
    P (fold_left (fun acc p => snd (resetParticipant env (participant_id p) acc)) l w).
Proof.
  induction l as [|p l IH]; intros w H; simpl; [exact H|].
  apply IH, P_resetParticipant, H.
Qed.

Lemma P_leaveCall r w : P w -> P (leaveCall env r w).
Proof.
  intros H. unfold leaveCall. cbv zeta.
  set (w1 := if isOngoing (this w) && negb (isGroup (this w)) then _ else w).
  assert (H1 : P w1)
    by (subst w1; destruct (isOngoing (this w) && negb (isGroup (this w)));
        [apply P_write_state|]; exact H).
  set (m0 := if isConnected (this w1) then _ else _).
  pose proof (P_fold_send (user_id (selfUser (this w1))) (getFlows (this w1))
                          m0 true w1 H1) as H2.
  destruct (fold_left _ (getFlows (this w1)) (m0, true, w1)) as [[m1 ok] w2].
  cbn [snd] in H2. destruct ok; [|exact H2].
  pose proof (P_fold_reset (participants (this w2)) w2 H2) as H3.
  set (w3 := fold_left _ (participants (this w2)) w2) in *.
  set (pr := if isGroup (this w3) then _ else _).
  assert (H4 : P (snd pr))
    by (subst pr; destruct (isGroup (this w3)); cbn [snd];
        [unfold sendCallMessage; apply P_effect|]; exact H3).
  destruct pr as [m2 w4]. cbn [snd] in H4.
  pose proof (P_deactivateCall m2 true r _ (P_setSelfState false r w4 H4)) as H6.
  destruct (deactivateCall env m2 true r (setSelfState env false r w4)) as [[wasDeleted|e] w6];
    cbn [snd] in H6; [|exact H6].
  destruct (negb wasDeleted); [apply P_write_state|]; exact H6.
Qed.

Lemma P_participantLeft m r w : P w -> P (participantLeft env m r w).
Proof.
  intros H. unfold participantLeft.
  destruct (negb (JS.truthy (Z.of_nat (List.length (participants (this w))))));
    [|exact H].
  destruct (selfClientJoined (this w));
    [apply P_leaveCall|apply P_deactivateCall]; exact H.
Qed.

Lemma P_deleteCall w : P w -> P (deleteCall env w).
Proof.
  intros H. unfold deleteCall. cbv zeta.
  apply P_effect, P_terminationReason, P_sessionId, P_write_isConnected,
    P_setSelfState, P_write_state, H.
Qed.

(** Timer callbacks. *)

Lemma P_onSendGroupCheckTimeout t w : P w -> P (_onSendGroupCheckTimeout env t w).
Proof.
  intros H. unfold _onSendGroupCheckTimeout, sendCallMessage.
  destruct (JS.truthy (Z.of_nat (List.length (participants (this w)))));
    [|apply P_leaveCall, H].
  cbv zeta. apply P_scheduleGroupCheck, P_effect, P_effect, H.
Qed.

Lemma P_onVerifyGroupCheckTimeout w : P w -> P (_onVerifyGroupCheckTimeout env w).
Proof.
  intros H. unfold _onVerifyGroupCheckTimeout. cbv zeta.
  apply P_deactivateCall, P_effect, H.
Qed.

Lemma P_onStateTimeout b w : P w -> P (onStateTimeout env b w).
Proof.
  intros H. unfold onStateTimeout. cbv zeta.
  pose proof (P_stopRingTone b w H) as H1.
  destruct b; [destruct (isGroup (this (_stopRingTone true w)));
               [apply P_rejectCall|apply P_effect]|apply P_effect]; exact H1.
Qed.

Lemma P_fire tid w : P w -> P (fire env tid w).
Proof.
  intros H. unfold fire.
  destruct (find _ (timers w)) as [t|]; [|exact H].
  pose proof (P_clearTimer tid w H) as H1.
  destruct (callback t); unfold run_callback;
    [apply P_onSendGroupCheckTimeout|apply P_onVerifyGroupCheckTimeout
     |apply P_onStateTimeout|]; assumption.
Qed.

Theorem P_run op w : P w -> P (run env op w).
Proof.
  intros H. destruct op; cbn [run].
  - apply P_joinCall, H.
  - apply P_leaveCall, H.
  - apply P_rejectCall, H.
  - apply P_deactivateCall, H.
  - apply P_participantLeft, H.
  - apply P_deleteCall, H.
  - apply P_setSelfState, H.
  - apply P_write_isConnected, H.
  - apply P_write_state, H.
  - apply P_scheduleGroupCheck, H.
  - apply keeps_addOrUpdateParticipant, H.
  - apply P_deleteParticipant, H.
  - apply P_resetParticipant, H.
  - apply P_sortParticipantsByPanning, H.
  - apply P_fire, H.
Qed.

Theorem P_run_all ops : forall w, P w -> P (run_all env ops w).
Proof.
  unfold run_all. induction ops as [|op ops IH]; intros w H; simpl; [exact H|].
  apply IH, P_run, H.
Qed.

End Closure.

(* ------------------------------------------------------------------ *)
(** ** The group-check heartbeat *)
(* ------------------------------------------------------------------ *)

Section Heartbeat.

Import Call CallEntity.

Variable env : Environment.

Lemma hb_frame (w w' : World) :
  timers w' = timers w -> nextTimerId w' = nextTimerId w ->
  groupCheckTimeoutId (this w') = groupCheckTimeoutId (this w) ->
  heartbeat_invariant w -> heartbeat_invariant w'.
Proof.
  intros Ht Hn Hg H. unfold heartbeat_invariant, timers_wf,
    group_checks_tracked, handle_issued in *. rewrite Ht, Hn, Hg. exact H.
Qed.

Lemma hb_effect e w : heartbeat_invariant w -> heartbeat_invariant (effect e w).
Proof. apply hb_frame; reflexivity. Qed.

Lemma hb_next_ref w : heartbeat_invariant w -> heartbeat_invariant (next_ref w).
Proof. apply hb_frame; reflexivity. Qed.

Lemma hb_upd (f : CallEntity -> CallEntity) w :
  groupCheckTimeoutId (f (this w)) = groupCheckTimeoutId (this w) ->
  heartbeat_invariant w -> heartbeat_invariant (upd f w).
Proof. intros Hf. apply hb_frame; auto. Qed.

Lemma NoDup_map_filter (f : Timer -> bool) (ts : list Timer) :
  NoDup (map timer_id ts) -> NoDup (map timer_id (filter f ts)).
Proof.
  induction ts as [|t ts IH]; simpl; intros H; [constructor|].
  inversion H as [|x l Hnotin Hnd]; subst.
  destruct (f t); simpl; [|auto].
  constructor; [|auto].
  intros Hin. apply Hnotin. apply in_map_iff in Hin as (y & Hy & Hiny).
  apply filter_In in Hiny as [Hiny _]. apply in_map_iff. eauto.
Qed.

Lemma Forall_filter (A : Type) (Q : A -> Prop) (f : A -> bool) (l : list A) :
  Forall Q l -> Forall Q (filter f l).
Proof.
  intros H. induction H as [|x l Hx _ IH]; simpl; [constructor|].
  destruct (f x); [constructor|]; assumption.
Qed.

Lemma wf_filter (f : Timer -> bool) (w : World) :
  timers_wf w -> timers_wf (with_timers (filter f (timers w)) w).
Proof.
  intros [Hnd Hlt]. split; simpl.
  - apply NoDup_map_filter, Hnd.
  - apply Forall_filter, Hlt.
Qed.

Lemma hb_clearTimer tid w :
  heartbeat_invariant w -> heartbeat_invariant (window_clearTimer tid w).
Proof.
  intros (Hwf & Htr & Hh). unfold window_clearTimer.
  split; [apply wf_filter, Hwf|]. split.
  - intros t Hin. simpl in Hin. apply filter_In in Hin as [Hin _].
    apply (Htr t Hin).
  - exact Hh.
Qed.

Lemma ids_below (ts : list Timer) (next : positive) :
  Forall (fun t => (timer_id t < next)%positive) ts ->
  ~ In next (map timer_id ts).
Proof.
  intros H Hin. apply in_map_iff in Hin as (t & Hid & Hin).
  rewrite Forall_forall in H. specialize (H t Hin). lia.
Qed.

Lemma wf_setTimer cb ms w :
  timers_wf w -> timers_wf (snd (window_setTimer cb ms w)).
Proof.
  intros [Hnd Hlt]. unfold window_setTimer, timers_wf. simpl. split.
  - rewrite map_app. simpl. apply NoDup_app; [exact Hnd|repeat constructor; auto|].
    intros a Ha [<-|[]]. revert Ha. apply ids_below, Hlt.
  - apply Forall_app. split.
    + eapply Forall_impl; [|exact Hlt]. simpl. intros t Ht. lia.
    + repeat constructor. simpl. lia.
Qed.

Lemma hb_setTimer cb ms w :
  (match cb with
   | SendGroupCheckTimeout _ | VerifyGroupCheckTimeout => false
   | _ => true
   end) = true ->
  heartbeat_invariant w -> heartbeat_invariant (snd (window_setTimer cb ms w)).
Proof.
  intros Hcb (Hwf & Htr & Hh). split; [apply wf_setTimer, Hwf|]. split.
  - unfold group_checks_tracked, window_setTimer. simpl.
    intros t Hin. apply in_app_or in Hin as [Hin|[<-|[]]].
    + apply Htr; assumption.
    + unfold is_group_check. simpl. split.
      * destruct cb; discriminate.
      * intros E. apply Hh in E. lia.
  - intros tid E. simpl in *. apply Hh in E. lia.
Qed.

(** [_clearGroupCheckTimeout] removes the active group-check timer and
    nothing else. *)
Lemma clearGroupCheck_world w :
  heartbeat_invariant w ->
  this (_clearGroupCheckTimeout w) = set_groupCheckTimeoutId None (this w)
  /\ timers (_clearGroupCheckTimeout w)
     = filter (fun t => negb (is_group_check t)) (timers w)
  /\ nextTimerId (_clearGroupCheckTimeout w) = nextTimerId w
  /\ draws (_clearGroupCheckTimeout w) = draws w.
Proof.
  intros (Hwf & Htr & Hh). unfold _clearGroupCheckTimeout.
  destruct (groupCheckTimeoutId (this w)) as [tid|] eqn:E; simpl.
  - repeat split; try reflexivity.
    apply filter_ext_in. intros t Hin.
    destruct (Htr t Hin) as [H1 H2]. rewrite E in H1, H2.
    destruct (Pos.eqb_spec (timer_id t) tid) as [Heq|Hne].
    + rewrite H2; [reflexivity|congruence].
    + destruct (is_group_check t); [|reflexivity].
      exfalso. apply Hne. specialize (H1 eq_refl). congruence.
  - repeat split; try reflexivity.
    + destruct (this w); simpl in *. now subst.
    + symmetry. rewrite <- (filter_ext_in (fun _ => true)).
      * induction (timers w) as [|t ts IH]; simpl; congruence.
      * intros t Hin. destruct (Htr t Hin) as [H1 _]. rewrite E in H1.
        destruct (is_group_check t); [|reflexivity].
        specialize (H1 eq_refl). discriminate.
Qed.

Lemma filter_negb_none (ts : list Timer) :
  filter is_group_check (filter (fun t => negb (is_group_check t)) ts) = [].
Proof.
  induction ts as [|t ts IH]; simpl; [reflexivity|].
  destruct (is_group_check t) eqn:E; simpl; [exact IH|]. now rewrite E.
Qed.

Lemma hb_clearGroupCheck w :
  heartbeat_invariant w -> heartbeat_invariant (_clearGroupCheckTimeout w).
Proof.
  intros H. destruct (clearGroupCheck_world w H) as (Hthis & Htm & Hnext & _).
  destruct H as (Hwf & Htr & Hh).
  unfold heartbeat_invariant, timers_wf, group_checks_tracked, handle_issued.
  rewrite Hthis, Htm, Hnext. repeat split.
  - apply NoDup_map_filter, Hwf.
  - apply Forall_filter, Hwf.
  - intros Hgc. apply filter_In in H as [_ Hn]. rewrite Hgc in Hn. discriminate.
  - destruct (this w); simpl. discriminate.
  - destruct (this w); simpl. discriminate.
Qed.

(** The world after [scheduleGroupCheck]. *)
Lemma scheduleGroupCheck_world w :
  heartbeat_invariant w ->
  this (scheduleGroupCheck env w)
  = set_groupCheckTimeoutId (Some (nextTimerId w)) (this w)
  /\ timers (scheduleGroupCheck env w)
     = filter (fun t => negb (is_group_check t)) (timers w) ++ [scheduled_timer env w]
  /\ nextTimerId (scheduleGroupCheck env w) = Pos.succ (nextTimerId w).
Proof.
  intros H. destruct (clearGroupCheck_world w H) as (Hthis & Htm & Hnext & Hdr).
  unfold scheduleGroupCheck, scheduled_timer. cbv zeta.
  set (w1 := _clearGroupCheckTimeout w) in *.
  assert (Hc : isConnected (this w1) = isConnected (this w))
    by (rewrite Hthis; destruct (this w); reflexivity).
  rewrite Hc. destruct (isConnected (this w));
    unfold _setSendGroupCheckTimeout, _setVerifyGroupCheckTimeout,
      window_setTimer; simpl; rewrite ?Hthis, ?Htm, ?Hnext, ?Hdr;
    repeat split; destruct (this w); reflexivity.
Qed.

Lemma scheduled_timer_is_group_check w : is_group_check (scheduled_timer env w) = true.
Proof. unfold scheduled_timer, is_group_check. destruct (isConnected (this w)); reflexivity. Qed.

Lemma scheduled_timer_id w : timer_id (scheduled_timer env w) = nextTimerId w.
Proof. unfold scheduled_timer. destruct (isConnected (this w)); reflexivity. Qed.

Lemma hb_scheduleGroupCheck w :
  heartbeat_invariant w -> heartbeat_invariant (scheduleGroupCheck env w).
Proof.
  intros H. destruct (scheduleGroupCheck_world w H) as (Hthis & Htm & Hnext).
  destruct H as ((Hnd & Hlt) & Htr & Hh).
  unfold heartbeat_invariant, timers_wf, group_checks_tracked, handle_issued.
  rewrite Hthis, Htm, Hnext.
  assert (Hg : forall c v, groupCheckTimeoutId (set_groupCheckTimeoutId v c) = v)
    by (intros c v; destruct c; reflexivity).
  rewrite Hg. repeat split.
  - rewrite map_app. simpl. rewrite scheduled_timer_id.
    apply NoDup_app; [apply NoDup_map_filter, Hnd|repeat constructor; auto|].
    intros a Ha [<-|[]]. revert Ha. apply ids_below, Forall_filter, Hlt.
  - apply Forall_app. split.
    + apply Forall_filter. eapply Forall_impl; [|exact Hlt]. simpl. intros; lia.
    + repeat constructor. rewrite scheduled_timer_id. lia.
  - intros Hgc. apply in_app_or in H as [Hin|[<-|[]]].
    + apply filter_In in Hin as [_ Hn]. rewrite Hgc in Hn. discriminate.
    + now rewrite scheduled_timer_id.
  - intros E. apply in_app_or in H as [Hin|[<-|[]]].
    + apply filter_In in Hin as [Hin _]. rewrite Forall_forall in Hlt.
      specialize (Hlt t Hin). injection E as E. lia.
    + apply scheduled_timer_is_group_check.
  - intros tid [= <-]. lia.
Qed.

(** Every method of the call entity keeps the heartbeat invariant. *)
Theorem heartbeat_invariant_run_all (ops : list Operation) (w : World) :
  heartbeat_invariant w -> heartbeat_invariant (run_all env ops w).
Proof.
  apply (P_run_all env heartbeat_invariant (fun _ => True));
    try (intros; apply hb_upd; [destruct (this w0); reflexivity|assumption]);
    auto using hb_effect, hb_next_ref, hb_clearTimer, hb_scheduleGroupCheck,
      hb_clearGroupCheck.
  - intros b ms w0. apply hb_setTimer. reflexivity.
  - intros ms w0. apply hb_setTimer. reflexivity.
  - intros w0 _. apply Forall_forall. auto.
Qed.

Lemma construct_heartbeat conversationId group others creator self away session ts next :
  foreign_window ts next ->
  heartbeat_invariant
    (construct env conversationId group others creator self away session ts next).
Proof.
  intros (Hnd & Hlt & Hfor). unfold construct. cbv zeta.
  match goal with
  | |- heartbeat_invariant (if group then scheduleGroupCheck env ?w0 else _) =>
      assert (H0 : heartbeat_invariant w0)
  end.
  { repeat split; simpl; try assumption; try discriminate.
    rewrite Forall_forall in Hfor. intros Hgc. rewrite (Hfor t H) in Hgc.
    discriminate. }
  destruct group; [apply hb_scheduleGroupCheck|]; exact H0.
Qed.

Lemma reachable_heartbeat w : reachable env w -> heartbeat_invariant w.
Proof.
  intros (c & g & o & cr & sf & aw & ss & ts & next & ops & Hfw & ->).
  apply heartbeat_invariant_run_all, construct_heartbeat, Hfw.
Qed.

Lemma reachable_run op w : reachable env w -> reachable env (run env op w).
Proof.
  intros (c & g & o & cr & sf & aw & ss & ts & next & ops & Hfw & ->).
  exists c, g, o, cr, sf, aw, ss, ts, next, (ops ++ [op]).
  split; [exact Hfw|]. unfold run_all. rewrite fold_left_app. reflexivity.
Qed.

Lemma same_id_short (l : list Timer) (c : positive) :
  NoDup (map timer_id l) -> (forall t, In t l -> timer_id t = c) ->
  (List.length l <= 1)%nat.
Proof.
  destruct l as [|a [|b l]]; simpl; intros Hnd Hall; try lia.
  exfalso. inversion Hnd as [|x xs Hnotin _]; subst. apply Hnotin. left.
  rewrite (Hall a), (Hall b); auto.
Qed.

Lemma at_most_one_group_check w :
  heartbeat_invariant w -> (List.length (active_group_checks w) <= 1)%nat.
Proof.
  intros ((Hnd & _) & Htr & _). unfold active_group_checks.
  destruct (groupCheckTimeoutId (this w)) as [tid|] eqn:E.
  - apply (same_id_short _ tid); [apply NoDup_map_filter, Hnd|].
    intros t Hin. apply filter_In in Hin as [Hin Hgc].
    apply (Htr t Hin) in Hgc. congruence.
  - destruct (filter is_group_check (timers w)) as [|t l] eqn:F; simpl; [lia|].
    assert (Hin : In t (filter is_group_check (timers w))) by (rewrite F; now left).
    apply filter_In in Hin as [Hin Hgc]. apply (Htr t Hin) in Hgc. congruence.
Qed.

(** C8: every invocation of [scheduleGroupCheck] cancels the active
    group-check timer and sets exactly one new timer, which is the send
    check with a delay of 60 to 90 seconds when the call is connected and
    the verification after ACTIVITY_TIMEOUT seconds otherwise; in every
    world a call entity can reach at most one group-check timer is active,
    so a send check and a verification are never active together. *)
Theorem scheduleGroupCheck_single_timer (w : World) :
  random_contract env -> reachable env w ->
  let w' := scheduleGroupCheck env w in
  (forall t, In t (active_group_checks w) -> ~ In t (timers w'))
  /\ timers w'
     = filter (fun t => negb (is_group_check t)) (timers w) ++ [scheduled_timer env w]
  /\ active_group_checks w' = [scheduled_timer env w]
  /\ groupCheckTimeoutId (this w') = Some (timer_id (scheduled_timer env w))
  /\ (if isConnected (this w)
      then exists k, callback (scheduled_timer env w) = SendGroupCheckTimeout k
                     /\ CONFIG.MINIMUM_TIMEOUT <= k <= CONFIG.MAXIMUM_TIMEOUT
                     /\ CONFIG.MINIMUM_TIMEOUT = 60 /\ CONFIG.MAXIMUM_TIMEOUT = 90
                     /\ delay (scheduled_timer env w) = k * SECOND env
      else callback (scheduled_timer env w) = VerifyGroupCheckTimeout
           /\ delay (scheduled_timer env w) = CONFIG.ACTIVITY_TIMEOUT * SECOND env)
  /\ (List.length (active_group_checks w) <= 1)%nat
  /\ (forall t1 t2 k, In t1 (timers w) -> In t2 (timers w) ->
                      callback t1 = SendGroupCheckTimeout k ->
                      callback t2 = VerifyGroupCheckTimeout -> False)
  /\ reachable env w'.
Proof.
  intros Hrand Hreach w'. pose proof (reachable_heartbeat w Hreach) as Hinv.
  destruct (scheduleGroupCheck_world w Hinv) as (Hthis & Htm & Hnext).
  pose proof Hinv as ((Hnd & Hlt) & Htr & Hh).
  subst w'. rewrite Htm, Hthis.
  split; [|split; [reflexivity|split; [|split; [|split; [|split; [|split]]]]]].
  - intros t Hin Hin'. apply filter_In in Hin as [Hin Hgc].
    apply in_app_or in Hin' as [Hf|[Hnew|[]]].
    + apply filter_In in Hf as [_ Hn]. rewrite Hgc in Hn. discriminate.
    + rewrite Forall_forall in Hlt. specialize (Hlt t Hin).
      rewrite <- Hnew, scheduled_timer_id in Hlt. lia.
  - unfold active_group_checks. rewrite Htm, filter_app, filter_negb_none. simpl.
    now rewrite scheduled_timer_is_group_check.
  - rewrite scheduled_timer_id. destruct (this w); reflexivity.
  - unfold scheduled_timer. destruct (isConnected (this w)); simpl.
    + eexists. split; [reflexivity|]. split; [|repeat split; reflexivity].
      apply Hrand. unfold CONFIG.MINIMUM_TIMEOUT, CONFIG.MAXIMUM_TIMEOUT. lia.
    + split; reflexivity.
  - apply at_most_one_group_check, Hinv.
  - intros t1 t2 k H1 H2 C1 C2.
    assert (G1 : is_group_check t1 = true) by (unfold is_group_check; now rewrite C1).
    assert (G2 : is_group_check t2 = true) by (unfold is_group_check; now rewrite C2).
    apply (Htr t1 H1) in G1. apply (Htr t2 H2) in G2.
    assert (Hid : timer_id t1 = timer_id t2) by congruence.
    assert (t1 = t2); [|subst; congruence].
    clear - Hnd H1 H2 Hid. induction (timers w) as [|a l IH]; [destruct H1|].
    simpl in Hnd. inversion Hnd as [|x xs Hnotin Hnd']; subst.
    destruct H1 as [->|H1], H2 as [->|H2]; auto.
    * exfalso. apply Hnotin. rewrite Hid. now apply in_map.
    * exfalso. apply Hnotin. rewrite <- Hid. now apply in_map.
  - apply (reachable_run ScheduleGroupCheck w Hreach).
Qed.

End Heartbeat.

(** The samples meet the contracts. *)
Lemma sample_random_contract : CallEntity.random_contract Samples.environment.
Proof.
  intros lo hi k Hle. simpl.
  pose proof (Z.mod_pos_bound (Z.of_nat k) (hi - lo + 1)). lia.
Qed.

Lemma sample_group_call_reachable :
  CallEntity.reachable Samples.environment Samples.group_call.
Proof.
  exists "conversation-1", true, ["bob"; "carol"], Samples.bob, Samples.alice,
    false, (Some "session-1"), [], 1%positive, [].
  split; [|reflexivity]. repeat split; constructor.
Qed.

(** An instance: the group call of the samples, fresh from its constructor. *)
Lemma scheduleGroupCheck_single_timer_witness :
  CallEntity.random_contract Samples.environment
  /\ CallEntity.reachable Samples.environment Samples.group_call
  /\ CallEntity.active_group_checks
       (CallEntity.scheduleGroupCheck Samples.environment Samples.group_call)
     = [CallEntity.scheduled_timer Samples.environment Samples.group_call].
Proof.
  split; [exact sample_random_contract|].
  split; [exact sample_group_call_reachable|].
  apply (scheduleGroupCheck_single_timer Samples.environment Samples.group_call
           sample_random_contract sample_group_call_reachable).
Defined.

(** An instance: the self user leaves the group call nobody has joined. *)
Lemma deactivateCall_fromSelf_nobody_left_witness :
  Call.participants (Call.this Samples.group_call) = []
  /\ Some TERMINATION_REASON.SELF_USER <> Some TERMINATION_REASON.GROUP_CHECK
  /\ fst (CallEntity.deactivateCall Samples.environment Samples.leave_message true
            (Some TERMINATION_REASON.SELF_USER) Samples.group_call)
     = Resolved true.
Proof.
  split; [reflexivity|]. split; [discriminate|].
  apply (deactivateCall_fromSelf_nobody_left Samples.environment Samples.group_call
           Samples.leave_message (Some TERMINATION_REASON.SELF_USER)
           eq_refl ltac:(discriminate)).
Defined.

(* ------------------------------------------------------------------ *)
(** ** Participants *)
(* ------------------------------------------------------------------ *)

Section Participants.

Import Call CallEntity AsyncOps.

Variable env : Environment.

Lemma getParticipantById_loop_spec (ps : list ParticipantEntity) (userId : string) :
  match getParticipantById_loop ps userId with
  | Some p =>
      exists before after,
        ps = before ++ p :: after
        /\ participant_id p = userId
        /\ (forall q, In q before -> participant_id q <> userId)
  | None => forall q, In q ps -> participant_id q <> userId
  end.
Proof.
  induction ps as [|a ps IH]; simpl; [intros q []|].
  destruct (String.eqb_spec (participant_id a) userId) as [E|E].
  - exists [], ps. repeat split; auto.
  - destruct (getParticipantById_loop ps userId) as [p|].
    + destruct IH as (before & after & -> & Hid & Hb).
      exists (a :: before), after. repeat split; auto.
      intros q [<-|Hq]; auto.
    + intros q [<-|Hq]; auto.
Qed.

(** C7: [getParticipantById] never changes the call; when a participant
    with the id is present it resolves with the first such participant,
    which is the only one when the id is unique in the call; when none is
    present it rejects with a NOT_FOUND call error. *)
Theorem getParticipantById_contract (w : World) (userId : string) :
  let r := getParticipantById userId w in
  snd r = w
  /\ ((exists p, In p (participants (this w)) /\ participant_id p = userId) ->
      exists p before after,
        fst r = Resolved p
        /\ participant_id p = userId
        /\ participants (this w) = before ++ p :: after
        /\ (forall q, In q before -> participant_id q <> userId))
  /\ (forall p,
         In p (participants (this w)) -> participant_id p = userId ->
         (forall q, In q (participants (this w)) -> participant_id q = userId -> q = p) ->
         fst r = Resolved p)
  /\ ((forall p, In p (participants (this w)) -> participant_id p <> userId) ->
      fst r = Rejected NOT_FOUND_error
      /\ CallError.type NOT_FOUND_error = CallError.NOT_FOUND)
  /\ (forall e, fst r = Rejected e ->
                forall p, In p (participants (this w)) -> participant_id p <> userId).
Proof.
  intros r. subst r. unfold getParticipantById.
  pose proof (getParticipantById_loop_spec (participants (this w)) userId) as H.
  destruct (getParticipantById_loop (participants (this w)) userId) as [p|]; cbn [fst snd].
  - destruct H as (before & after & Hps & Hid & Hb).
    split; [reflexivity|]. split; [|split; [|split]].
    + intros _. exists p, before, after. auto.
    + intros p' Hin Hid' Huniq. f_equal. apply Huniq; [|exact Hid].
      rewrite Hps. apply in_or_app. right. now left.
    + intros Hnone. exfalso. apply (Hnone p); [|exact Hid].
      rewrite Hps. apply in_or_app. right. now left.
    + intros e C. discriminate.
  - split; [reflexivity|]. split; [|split; [|split]].
    + intros (p & Hin & Hid). exfalso. exact (H p Hin Hid).
    + intros p Hin Hid _. exfalso. exact (H p Hin Hid).
    + intros _. split; reflexivity.
    + intros e _. exact H.
Qed.

Lemma without_frame (sid : string) (w w' : World) :
  selfUser (this w') = selfUser (this w) ->
  participants (this w') = participants (this w) ->
  without sid w -> without sid w'.
Proof. unfold without. intros -> ->. auto. Qed.

Lemma without_scheduleGroupCheck sid w :
  without sid w -> without sid (scheduleGroupCheck env w).
Proof.
  apply without_frame;
    unfold scheduleGroupCheck, _clearGroupCheckTimeout, _setSendGroupCheckTimeout,
      _setVerifyGroupCheckTimeout, window_setTimer;
    destruct w as [c ts n d r es]; destruct c; simpl;
    destruct groupCheckTimeoutId0; simpl; destruct isConnected0; reflexivity.
Qed.

Lemma without_clearGroupCheck sid w :
  without sid w -> without sid (_clearGroupCheckTimeout w).
Proof.
  apply without_frame; unfold _clearGroupCheckTimeout;
    destruct w as [c ts n d r es]; destruct c; simpl;
    destruct groupCheckTimeoutId0; reflexivity.
Qed.

Theorem without_run_all (sid : string) (ops : list Operation) (w : World) :
  repository_contract env -> without sid w -> without sid (run_all env ops w).
Proof.
  intros Hrepo.
  apply (P_run_all env (without sid) (fun p => participant_id p <> sid));
    try (intros; eapply without_frame; [| |eassumption];
         destruct (this w0); reflexivity);
    auto using without_scheduleGroupCheck, without_clearGroupCheck.
  - intros ps w0 [Hs _] Hps. unfold without. simpl.
    destruct (this w0); simpl in *. auto.
  all: try solve [intros w0 [_ H]; exact H].
  all: try solve [intros; simpl; assumption].
  - intros w0 userId u r [Hs _] Hne Hu. apply Hrepo in Hu. injection Hu as Hu.
    simpl. rewrite <- Hu. apply String.eqb_neq in Hne. congruence.
  - intros u r Hu. apply Hrepo in Hu. discriminate.
Qed.

Lemma without_self_not_participant w :
  without (user_id (selfUser (this w))) w <-> self_not_participant w.
Proof.
  unfold without, self_not_participant. rewrite Forall_forall. split.
  - intros [_ H] Hin. apply in_map_iff in Hin as (p & Hid & Hin).
    exact (H p Hin Hid).
  - intros H. split; [reflexivity|]. intros p Hin Hid. apply H.
    apply in_map_iff. eauto.
Qed.

(** C3: when no participant has the id of the self user,
    [addOrUpdateParticipant] for that id rejects with a WRONG_STATE error
    and leaves the call as it was; and from such a call on, whatever
    happens to the call entity, the self user is never among its
    participants. *)
Theorem addOrUpdateParticipant_rejects_self
        (w : World) (userId : string) (negotiate : bool)
        (m : option CallMessageEntity) :
  repository_contract env ->
  userId = user_id (selfUser (this w)) ->
  (forall p, In p (participants (this w)) -> participant_id p <> userId) ->
  let r := addOrUpdateParticipant env userId negotiate m w in
  fst r = Rejected WRONG_STATE_error
  /\ CallError.type WRONG_STATE_error = CallError.WRONG_STATE
  /\ snd r = w
  /\ participants (this (snd r)) = participants (this w)
  /\ self_not_participant w
  /\ (forall ops, self_not_participant (run_all env ops w)).
Proof.
  intros Hrepo Hself Habsent r. subst r.
  assert (Hloop : getParticipantById_loop (participants (this w)) userId = None).
  { pose proof (getParticipantById_loop_spec (participants (this w)) userId) as H.
    destruct (getParticipantById_loop (participants (this w)) userId) as [p|];
      [|reflexivity].
    destruct H as (before & after & Hps & Hid & _). exfalso.
    apply (Habsent p); [|exact Hid]. rewrite Hps. apply in_or_app. right. now left. }
  assert (Hrun : addOrUpdateParticipant env userId negotiate m w
                 = (Rejected WRONG_STATE_error, w)).
  { unfold addOrUpdateParticipant, catch_, then_, getParticipantById.
    rewrite Hloop. cbn. unfold _addParticipant. rewrite <- Hself.
    now rewrite String.eqb_refl. }
  rewrite Hrun. cbn [fst snd].
  assert (Hnot : self_not_participant w).
  { unfold self_not_participant. rewrite <- Hself. intros Hin.
    apply in_map_iff in Hin as (p & Hid & Hin). exact (Habsent p Hin Hid). }
  repeat split; auto.
  intros ops. apply without_self_not_participant in Hnot.
  pose proof (without_run_all _ ops w Hrepo Hnot) as H.
  apply without_self_not_participant.
  destruct H as [Hs H]. split; [reflexivity|]. now rewrite Hs.
Qed.

End Participants.

(* ------------------------------------------------------------------ *)
(** ** joinCall *)
(* ------------------------------------------------------------------ *)

Section Joining.

Import Call CallEntity AsyncOps.

Variable env : Environment.

Lemma CALL_STATE_eqb_eq (a b : CALL_STATE.t) : CALL_STATE.eqb a b = true <-> a = b.
Proof. destruct a, b; simpl; split; intros H; try discriminate; reflexivity. Qed.


Ltac frame :=
  intros; cbn in *;
  repeat match goal with
         | H : _ /\ _ |- _ => destruct H
         | |- context [this ?w] => destruct (this w); cbn in *
         end;
  auto.

(** The subscribers of [state] do not write [state]. *)
Lemma write_state_state (v : CALL_STATE.t) (w : World) :
  state (this (write_state env v w)) = v.
Proof.
  unfold write_state.
  destruct (CALL_STATE.eqb (state (this w)) v) eqn:E;
    [now apply CALL_STATE_eqb_eq|]. cbv zeta.
  apply (P_state_subscriber env (fun w => state (this w) = v)); try (frame; fail).
  destruct (isDeclined (this (upd (set_state v) w))); frame.
Qed.



End Joining.

(* ------------------------------------------------------------------ *)
(** ** BackendClient: a request that fails for lack of connectivity *)
(* ------------------------------------------------------------------ *)

Section ConnectivityGuard.

Import Backend.

Variable tb : Tables.
Variable SECOND : Z.

Lemma executeRequestQueue_facts (c : BackendClient) :
  queueState (executeRequestQueue c) = QUEUE_STATE.READY
  /\ PromiseQueue._queue (requestQueue (executeRequestQueue c))
     = PromiseQueue._queue (requestQueue c)
  /\ PromiseQueue.concurrent (requestQueue (executeRequestQueue c))
     = PromiseQueue.concurrent (requestQueue c)
  /\ accessToken (executeRequestQueue c) = accessToken c
  /\ running (executeRequestQueue c) = running c
  /\ settlements (executeRequestQueue c) = settlements c
  /\ (PromiseQueue._paused (requestQueue (executeRequestQueue c)) =
      if JS.truthy_string (accessToken c)
         && JS.truthy (Z.of_nat (PromiseQueue.getLength (requestQueue c)))
      then false else PromiseQueue._paused (requestQueue c)).
Proof.
  unfold executeRequestQueue, settlements. cbv zeta. cbn [set_queueState accessToken requestQueue].
  destruct (JS.truthy_string (accessToken c)
            && JS.truthy (Z.of_nat (PromiseQueue.getLength (requestQueue c))));
    cbn; rewrite ?filter_app, ?app_nil_r; repeat split; reflexivity.
Qed.

Lemma continuations_facts (ks : list Continuation) :
  forall c,
    JS.truthy_string (accessToken c) = true ->
    PromiseQueue._queue (requestQueue c) <> [] ->
    ks <> [] ->
    let c' := fold_left (fun acc k => run_continuation k acc) ks c in
    queueState c' = QUEUE_STATE.READY
    /\ PromiseQueue._queue (requestQueue c') = PromiseQueue._queue (requestQueue c)
    /\ PromiseQueue.concurrent (requestQueue c') = PromiseQueue.concurrent (requestQueue c)
    /\ PromiseQueue._paused (requestQueue c') = false
    /\ running c' = running c
    /\ settlements c' = settlements c.
Proof.
  induction ks as [|k ks IH]; intros c Htok Hq Hks; [contradiction|].
  cbn [fold_left]. destruct k. cbn [run_continuation].
  destruct (executeRequestQueue_facts c) as (Hs & Hqq & Hcc & Ht & Hr & Hst & Hp).
  assert (Hlen : JS.truthy (Z.of_nat (PromiseQueue.getLength (requestQueue c))) = true).
  { unfold PromiseQueue.getLength, JS.truthy.
    destruct (PromiseQueue._queue (requestQueue c)); [contradiction|reflexivity]. }
  rewrite Htok, Hlen in Hp. cbn in Hp.
  destruct ks as [|k' ks'].
  - cbn [fold_left]. cbv zeta. repeat split; assumption.
  - assert (Hne : k' :: ks' <> []) by discriminate.
    specialize (IH (executeRequestQueue c)).
    rewrite Ht, Hqq in IH. specialize (IH Htok Hq Hne). cbv zeta in IH.
    destruct IH as (A & B & C & D & E & F).
    cbv zeta. rewrite A, B, C, D, E, F. repeat split; auto.
Qed.

(** C4: a request that fails with the connectivity-problem status code puts
    the client into the state CONNECTIVITY_PROBLEM, pauses the request
    queue and puts exactly that request (same configuration, same promise)
    at the front of the queue, in front of the requests that were waiting,
    whose order is untouched; its promise is not settled.  Nothing is
    dispatched while the queue is paused, and once the connectivity is
    verified the client is READY again and the first request it dispatches
    is the failed one. *)
Theorem connectivity_failure_requeues_first
        (c : BackendClient) (r : Request) (statusCode : Z)
        (response : option Response) :
  statusCode = CONNECTIVITY_PROBLEM tb ->
  let c' := onFail tb r statusCode response c in
  queueState c' = QUEUE_STATE.CONNECTIVITY_PROBLEM
  /\ PromiseQueue._paused (requestQueue c') = true
  /\ PromiseQueue._queue (requestQueue c')
     = r :: PromiseQueue._queue (requestQueue c)
  /\ settlements c' = settlements c
  /\ dispatch c' = None
  /\ (forall answer,
         answer <> StatusUnreachable ->
         JS.truthy_string (accessToken c) = true ->
         let c'' := _checkStatus SECOND answer c' in
         queueState c'' = QUEUE_STATE.READY
         /\ PromiseQueue._paused (requestQueue c'') = false
         /\ PromiseQueue._queue (requestQueue c'')
            = r :: PromiseQueue._queue (requestQueue c)
         /\ (forall x c3, dispatch c'' = Some (x, c3) ->
                          x = r
                          /\ PromiseQueue._queue (requestQueue c3)
                             = PromiseQueue._queue (requestQueue c))
         /\ ((List.length (running c) < PromiseQueue.concurrent (requestQueue c))%nat ->
             exists c3, dispatch c'' = Some (r, c3))).
Proof.
  intros -> c'. subst c'. unfold onFail. rewrite Z.eqb_refl. cbv zeta.
  set (c2 := _prependRequestQueue r (set_queueState QUEUE_STATE.CONNECTIVITY_PROBLEM c)).
  assert (Hc2 : queueState c2 = QUEUE_STATE.CONNECTIVITY_PROBLEM
                /\ requestQueue c2
                   = PromiseQueue.unshift r (PromiseQueue.pause true (requestQueue c))
                /\ running c2 = running c /\ accessToken c2 = accessToken c
                /\ effects c2 = effects c
                /\ connectivityQueue c2 = connectivityQueue c
                /\ connectivityTimeout c2 = connectivityTimeout c)
    by (subst c2; repeat split; reflexivity).
  destruct Hc2 as (Hs & Hq & Hr & Ht & He & Hcq & Hct).
  clearbody c2.
  set (c3 := executeOnConnectivity ThenExecuteRequestQueue c2).
  assert (Hc3 : queueState c3 = queueState c2 /\ requestQueue c3 = requestQueue c2
                /\ running c3 = running c2 /\ accessToken c3 = accessToken c2
                /\ effects c3 = effects c2 ++ [LoggerInfo "Connectivity check requested"]
                /\ PromiseQueue._queue (connectivityQueue c3)
                   = PromiseQueue._queue (connectivityQueue c2) ++ [ThenExecuteRequestQueue]
                /\ JS.defined (connectivityTimeout c3) = true).
  { subst c3. unfold executeOnConnectivity. cbv zeta.
    cbn [connectivityTimeout set_connectivityQueue emit].
    destruct (connectivityTimeout c2) eqn:E; cbn; rewrite ?E; repeat split; reflexivity. }
  destruct Hc3 as (Hs3 & Hq3 & Hr3 & Ht3 & He3 & Hcq3 & Hct3).
  clearbody c3.
  split; [congruence|].
  split; [rewrite Hq3, Hq; reflexivity|].
  split; [rewrite Hq3, Hq; reflexivity|].
  split.
  { unfold settlements. rewrite He3, He, filter_app. cbn. apply app_nil_r. }
  split.
  { unfold dispatch, PromiseQueue.shift. rewrite Hq3, Hq. reflexivity. }
  intros answer Hanswer Htok.
  assert (Hreset : _checkStatus SECOND answer c3
                   = _resetQueue (emit (LoggerInfo
                      (match answer with
                       | StatusDone => "Connectivity verified"
                       | _ => "Connectivity verified by server error"
                       end)) c3)).
  { destruct answer; try reflexivity. contradiction. }
  rewrite Hreset. clear Hreset.
  set (c4 := emit _ c3).
  unfold _resetQueue.
  assert (Hdef : JS.defined (connectivityTimeout c4) = true) by exact Hct3.
  rewrite Hdef. cbv zeta.
  set (c5 := set_connectivityQueue _ c4).
  pose proof (continuations_facts
                (PromiseQueue._queue (connectivityQueue c4)) c5) as K.
  assert (Htok5 : JS.truthy_string (accessToken c5) = true)
    by (subst c5 c4; cbn; rewrite Ht3, Ht; exact Htok).
  assert (Hq5 : PromiseQueue._queue (requestQueue c5)
                = r :: PromiseQueue._queue (requestQueue c))
    by (subst c5 c4; cbn; rewrite Hq3, Hq; reflexivity).
  assert (Hks : PromiseQueue._queue (connectivityQueue c4) <> []).
  { subst c4. cbn. rewrite Hcq3. destruct (PromiseQueue._queue (connectivityQueue c2));
      discriminate. }
  specialize (K Htok5 ltac:(rewrite Hq5; discriminate) Hks). cbv zeta in K.
  destruct K as (K1 & K2 & K3 & K4 & K5 & _).
  set (c6 := fold_left _ _ c5) in *.
  cbn [set_connectivityTimeout queueState requestQueue running].
  assert (Hrun : running c6 = running c)
    by (rewrite K5; subst c5 c4; cbn; congruence).
  assert (Hconc : PromiseQueue.concurrent (requestQueue c6)
                  = PromiseQueue.concurrent (requestQueue c))
    by (rewrite K3; subst c5 c4; cbn; rewrite Hq3, Hq; reflexivity).
  split; [exact K1|]. split; [exact K4|]. split; [rewrite K2; exact Hq5|].
  unfold dispatch. cbn [requestQueue running set_connectivityTimeout].
  unfold PromiseQueue.shift. rewrite K4, K2, Hq5, Hrun, Hconc. split.
  - intros x cx.
    destruct (PromiseQueue.concurrent (requestQueue c) <=? List.length (running c))%nat;
      [discriminate|].
    intros [= <- <-]. split; reflexivity.
  - intros Hlt.
    destruct (Nat.leb_spec (PromiseQueue.concurrent (requestQueue c))
                           (List.length (running c))) as [Hle|_]; [lia|].
    eexists. reflexivity.
Qed.

End ConnectivityGuard.

(* ------------------------------------------------------------------ *)
(** ** Panning *)
(* ------------------------------------------------------------------ *)

Section PanningFacts.

Import Call CallEntity.

Lemma insert_by_hash_perm (p : ParticipantEntity) (l : list ParticipantEntity) :
  Permutation (insert_by_hash p l) (p :: l).
Proof.
  induction l as [|q l IH]; simpl; [reflexivity|].
  destruct (joaatHash (user p) - joaatHash (user q) <=? 0); [reflexivity|].
  rewrite IH. apply perm_swap.
Qed.

Lemma sort_by_hash_perm (l : list ParticipantEntity) :
  Permutation (sort_by_hash l) l.
Proof.
  induction l as [|p l IH]; simpl; [reflexivity|].
  rewrite insert_by_hash_perm. now constructor.
Qed.

Lemma insert_by_hash_sorted (p : ParticipantEntity) (l : list ParticipantEntity) :
  StronglySorted Panning.by_hash l -> StronglySorted Panning.by_hash (insert_by_hash p l).
Proof.
  induction l as [|q l IH]; simpl; intros Hs.
  - repeat constructor.
  - inversion Hs as [|x xs Hs' Hall]; subst.
    destruct (Z.leb_spec (joaatHash (user p) - joaatHash (user q)) 0) as [Hle|Hgt].
    + constructor; [exact Hs|]. constructor; [unfold Panning.by_hash; lia|].
      eapply Forall_impl; [|exact Hall]. unfold Panning.by_hash. intros a Ha. lia.
    + constructor; [apply IH, Hs'|].
      eapply Permutation_Forall; [symmetry; apply insert_by_hash_perm|].
      constructor; [unfold Panning.by_hash; lia|exact Hall].
Qed.

Lemma sort_by_hash_sorted (l : list ParticipantEntity) :
  StronglySorted Panning.by_hash (sort_by_hash l).
Proof.
  induction l as [|p l IH]; simpl; [constructor|].
  apply insert_by_hash_sorted, IH.
Qed.

(** [assign_panning] changes the panning and nothing else. *)
Lemma assign_panning_erased (n : nat) (l : list ParticipantEntity) :
  forall k, map (set_panning 0%float) (assign_panning n k l)
            = map (set_panning 0%float) l.
Proof.
  induction l as [|p l IH]; intros k; simpl; [reflexivity|].
  now rewrite IH.
Qed.

Lemma sorted_by_key (l : list ParticipantEntity) :
  StronglySorted Panning.by_hash l
  <-> StronglySorted Z.le (map (fun p => joaatHash (user p)) l).
Proof.
  induction l as [|a l IH]; simpl; split; intros H; try constructor;
    inversion H as [|x xs Hs Hall]; subst.
  - apply IH, Hs.
  - rewrite Forall_map. exact Hall.
  - apply IH, Hs.
  - rewrite Forall_map in Hall. exact Hall.
Qed.

Lemma assign_panning_keys (n : nat) (l : list ParticipantEntity) :
  forall k, map (fun p => joaatHash (user p)) (assign_panning n k l)
            = map (fun p => joaatHash (user p)) l.
Proof.
  induction l as [|p l IH]; intros k; simpl; [reflexivity|]. now rewrite IH.
Qed.

Lemma assign_panning_nth (n : nat) (l : list ParticipantEntity) :
  forall k i p,
    nth_error (assign_panning n k l) i = Some p ->
    panning p = _calculatePanning (num := float) (k + i) n.
Proof.
  induction l as [|q l IH]; intros k i p; simpl.
  - destruct i; discriminate.
  - destruct i as [|i]; simpl.
    + intros [= <-]. simpl. now rewrite Nat.add_0_r.
    + intros H. apply IH in H. now rewrite Nat.add_succ_r.
Qed.

Lemma assign_panning_length (n : nat) (l : list ParticipantEntity) :
  forall k, List.length (assign_panning n k l) = List.length l.
Proof. induction l as [|q l IH]; intros k; simpl; [reflexivity|]. now rewrite IH. Qed.

Lemma calculatePanning_formula_binary64 (i n : nat) :
  n <> 1%nat -> _calculatePanning (num := float) i n = Panning.formula i n.
Proof.
  intros Hn. unfold _calculatePanning, Panning.formula.
  destruct (Nat.eqb_spec n 1) as [E|_]; [contradiction|]. reflexivity.
Qed.

Lemma calculatePanning_formula_exact (i n : nat) :
  n <> 1%nat -> _calculatePanning (num := Q) i n = Panning.formula i n.
Proof.
  intros Hn. unfold _calculatePanning, Panning.formula.
  destruct (Nat.eqb_spec n 1) as [E|_]; [contradiction|]. reflexivity.
Qed.

Lemma sortParticipantsByPanning_participants (w : World) :
  (2 <= List.length (participants (this w)))%nat ->
  participants (this (_sortParticipantsByPanning w))
  = assign_panning (List.length (participants (this w))) 0
                   (sort_by_hash (participants (this w))).
Proof.
  intros Hn. unfold _sortParticipantsByPanning. cbv zeta.
  destruct (Nat.leb_spec 2 (List.length (participants (this w)))) as [_|Hlt]; [|lia].
  cbn [effect this upd].
  assert (Hlen : List.length (sort_by_hash (participants (this w)))
                 = List.length (participants (this w)))
    by (apply Permutation_length, sort_by_hash_perm).
  destruct (this w); cbn in *. now rewrite Hlen.
Qed.

(** C5, as the code has it: with two or more participants
    [_sortParticipantsByPanning] sorts the participants by the hash of
    their users and gives the participant at position [i] the panning of
    the formula, computed in binary64; with fewer than two it changes
    nothing; [_calculatePanning] itself answers 0.0 for a single
    participant. *)
Theorem sortParticipantsByPanning_assigns (w : World) :
  let ps := participants (this w) in
  let n := List.length ps in
  let w' := _sortParticipantsByPanning w in
  ((2 <= n)%nat ->
   Permutation (map (set_panning 0%float) (participants (this w')))
               (map (set_panning 0%float) ps)
   /\ StronglySorted Panning.by_hash (participants (this w'))
   /\ List.length (participants (this w')) = n
   /\ (forall i p, nth_error (participants (this w')) i = Some p ->
                   panning p = Panning.formula (num := float) i n))
  /\ ((n < 2)%nat -> w' = w)
  /\ (forall i, _calculatePanning (num := float) i 1 = 0%float)
  /\ (forall i m, m <> 1%nat ->
                  _calculatePanning (num := float) i m = Panning.formula i m
                  /\ _calculatePanning (num := Q) i m = Panning.formula i m).
Proof.
  intros ps n w'. subst ps n w'. split; [|split; [|split]].
  - intros Hn. rewrite (sortParticipantsByPanning_participants w Hn).
    rewrite assign_panning_erased, assign_panning_length.
    split; [apply Permutation_map, sort_by_hash_perm|].
    split.
    { apply sorted_by_key. rewrite assign_panning_keys. apply sorted_by_key.
      apply sort_by_hash_sorted. }
    split; [apply Permutation_length, sort_by_hash_perm|].
    intros i p Hnth. apply assign_panning_nth in Hnth. rewrite Hnth.
    apply calculatePanning_formula_binary64. lia.
  - intros Hn. unfold _sortParticipantsByPanning. cbv zeta.
    destruct (Nat.leb_spec 2 (List.length (participants (this w)))) as [Hle|_];
      [lia|reflexivity].
  - intros i. reflexivity.
  - intros i m Hm. split;
      [apply calculatePanning_formula_binary64|apply calculatePanning_formula_exact];
      exact Hm.
Qed.

(** The claim C5 fails for a single participant: after two participants
    were panned and one of them left, [_sortParticipantsByPanning] leaves
    the remaining participant at the panning it had, which is not 0.0. *)
Lemma single_participant_keeps_stale_panning :
  List.length (participants (this Samples.left_alone)) = 1%nat
  /\ ~ (forall p, nth_error (participants (this Samples.left_alone)) 0 = Some p ->
                  panning p = _calculatePanning (num := float) 0 1).
Proof.
  split; [reflexivity|]. intros H.
  destruct (participants (this Samples.left_alone)) as [|p l] eqn:E;
    [discriminate E|].
  specialize (H p eq_refl).
  assert (Hp : panning p = (-0x1.5555555555555p-2)%float).
  { change p with (hd p (p :: l)). rewrite <- E. vm_compute. reflexivity. }
  rewrite Hp in H.
  apply (f_equal (fun v => PrimFloat.eqb v 0%float)) in H.
  vm_compute in H. discriminate H.
Qed.

(** Exact arithmetic. *)









End PanningFacts.

(* ------------------------------------------------------------------ *)
(** ** Worked examples *)
(* ------------------------------------------------------------------ *)

Lemma sample_repository_contract : CallEntity.repository_contract Samples.environment.
Proof.
  intros o u H. simpl in H. destruct o as [uid|]; [|discriminate].
  unfold Samples.directory in H.
  destruct (String.eqb_spec uid "alice") as [->|_]; [now injection H as <-|].
  destruct (String.eqb_spec uid "bob") as [->|_]; [now injection H as <-|].
  destruct (String.eqb_spec uid "carol") as [->|_]; [now injection H as <-|].
  discriminate.
Qed.

(** An instance: alice, the self user, is added to her own group call. *)
Lemma addOrUpdateParticipant_rejects_self_witness :
  CallEntity.repository_contract Samples.environment
  /\ "alice" = Call.user_id (Call.selfUser (Call.this Samples.group_call))
  /\ (forall p, In p (Call.participants (Call.this Samples.group_call)) ->
                Call.participant_id p <> "alice")
  /\ fst (CallEntity.addOrUpdateParticipant Samples.environment "alice" true None
                                            Samples.group_call)
     = Rejected CallEntity.WRONG_STATE_error.
Proof.
  assert (Habsent : forall p, In p (Call.participants (Call.this Samples.group_call)) ->
                              Call.participant_id p <> "alice")
    by (intros p []).
  split; [exact sample_repository_contract|]. split; [reflexivity|].
  split; [exact Habsent|].
  apply (addOrUpdateParticipant_rejects_self Samples.environment Samples.group_call
           "alice" true None sample_repository_contract eq_refl Habsent).
Defined.

(** An instance: the running request fails while two requests wait. *)
Lemma connectivity_failure_requeues_first_witness :
  0 = Backend.CONNECTIVITY_PROBLEM Samples.tables
  /\ PromiseQueue._queue
       (Backend.requestQueue
          (Backend.onFail Samples.tables (Samples.request "/self" 0) 0 None
                          Samples.client))
     = [Samples.request "/self" 0; Samples.request "/conversations" 1;
        Samples.request "/clients" 2].
Proof.
  split; [reflexivity|].
  apply (connectivity_failure_requeues_first Samples.tables 1000 Samples.client
           (Samples.request "/self" 0) 0 None eq_refl).
Defined.

(* ------------------------------------------------------------------ *)
(** ** The handlers of client and member events *)
(* ------------------------------------------------------------------ *)

Section VerificationEvents.

Import VerificationHandler.

Lemma set_verification_state_same (c : Conversation) :
  set_verification_state c (verification_state c) = c.
Proof. destruct c; reflexivity. Qed.

Lemma with_entity_same (c : ConversationEntity) : with_entity c (entity c) = c.
Proof. destruct c; reflexivity. Qed.

(** What the two checks do to the handler. *)
Lemma checkChangeToVerified_world (h : Handler) :
  _checkChangeToVerified h
  = match is_verified (conversationEntity h), verification_state (conversationEntity h) with
    | _, ConversationVerificationState.VERIFIED => (Returned None, h)
    | Some true, _ =>
        (Returned (Some true),
         {| conversationEntity :=
              set_verification_state (conversationEntity h)
                                     ConversationVerificationState.VERIFIED;
            injected :=
              injected h
              ++ [buildAllVerified
                    (set_verification_state (conversationEntity h)
                                            ConversationVerificationState.VERIFIED)
                    (serverTimestamp h)];
            logged :=
              logged h ++ [("Verification state of conversation '"
                             ++ id (conversationEntity h) ++ "' changed to verified")%string];
            serverTimestamp := serverTimestamp h |})
    | _, _ => (Returned None, h)
    end.
Proof.
  unfold _checkChangeToVerified, _willChangeToVerified.
  destruct (verification_state (conversationEntity h));
    destruct (is_verified (conversationEntity h)) as [[|]|]; reflexivity.
Qed.

Lemma checkChangeToDegraded_world (h : Handler) (u : string) (rest : list string)
      (ty : VerificationMessageType.t) :
  _checkChangeToDegraded h (u :: rest) ty
  = match is_verified (conversationEntity h), verification_state (conversationEntity h) with
    | Some false, ConversationVerificationState.VERIFIED =>
        let c' := set_verification_state (conversationEntity h)
                    (degraded_state ty (conversationEntity h)) in
        (Returned (Some true),
         {| conversationEntity := c';
            injected := injected h ++ [buildDegraded c' (u :: rest) ty (serverTimestamp h)];
            logged :=
              logged h ++ [("Verification of conversation '"
                             ++ id (conversationEntity h) ++ "' changed to degraded")%string];
            serverTimestamp := serverTimestamp h |})
    | _, _ => (Returned None, h)
    end.
Proof.
  unfold _checkChangeToDegraded, _willChangeToDegraded, degraded_state.
  destruct (verification_state (conversationEntity h));
    destruct (is_verified (conversationEntity h)) as [[|]|]; try reflexivity.
  destruct ty; reflexivity.
Qed.


(** X1: Running [_checkChangeToVerified] and then [_checkChangeToDegraded]
    with at least one user id leaves the conversation VERIFIED when all its
    devices are verified, takes it out of VERIFIED (to UNVERIFIED for an
    unverified device, to DEGRADED otherwise) when it was VERIFIED with an
    unverified device, and leaves it unchanged otherwise; at most one event
    is injected, and running either check again changes nothing. *)
Theorem verification_checks_settle (h : Handler) (u : string) (rest : list string)
        (ty : VerificationMessageType.t) :
  let h1 := snd (_checkChangeToVerified h) in
  let h2 := snd (_checkChangeToDegraded h1 (u :: rest) ty) in
  verification_state (conversationEntity h2) = settled_state ty (conversationEntity h)
  /\ (List.length (injected h2) <= S (List.length (injected h)))%nat
  /\ _checkChangeToVerified h2 = (Returned None, h2)
  /\ (forall userIds ty', _checkChangeToDegraded h2 userIds ty' = (Returned None, h2)).
Proof.
  cbv zeta. rewrite checkChangeToVerified_world.
  destruct h as [c inj lg ts]. destruct c as [i s st v]. cbn [conversationEntity is_verified verification_state].
  destruct st; destruct v as [[|]|]; cbn [snd];
    rewrite checkChangeToDegraded_world; cbn;
    (split; [try reflexivity; destruct ty; reflexivity|]);
    (split; [rewrite ?length_app; simpl; lia|]);
    (split; [unfold _checkChangeToVerified, _willChangeToVerified; cbn;
             try reflexivity; destruct ty; reflexivity|]);
    intros userIds ty'; unfold _checkChangeToDegraded, _willChangeToDegraded; cbn;
    try reflexivity; destruct ty; reflexivity.
Qed.

(** underscore's intersection *)
Lemma contains_In (l : list string) (x : string) : contains l x = true <-> In x l.
Proof.
  unfold contains. rewrite existsb_exists. split.
  - intros (y & Hin & E). apply String.eqb_eq in E. now subst.
  - intros Hin. exists x. split; [exact Hin|apply String.eqb_refl].
Qed.

Lemma intersection_from_spec (array other : list string) :
  forall result,
    NoDup result ->
    NoDup (intersection_from result array other)
    /\ (forall x, In x (intersection_from result array other)
                  <-> In x result \/ (In x array /\ In x other)).
Proof.
  induction array as [|a array IH]; intros result Hnd; simpl.
  - split; [exact Hnd|]. intros x. tauto.
  - destruct (contains result a) eqn:Er.
    + apply contains_In in Er. destruct (IH result Hnd) as [H1 H2].
      split; [exact H1|]. intros x. rewrite H2. split.
      * intros [H|[H H']]; auto.
      * intros [H|[[<-|H] H']]; auto.
    + assert (Hn : ~ In a result).
      { intros C. apply contains_In in C. congruence. }
      destruct (contains other a) eqn:Eo.
      * apply contains_In in Eo.
        assert (Hnd' : NoDup (result ++ [a])).
        { apply NoDup_app; [exact Hnd|repeat constructor; auto|].
          intros x Hx [<-|[]]. contradiction. }
        destruct (IH _ Hnd') as [H1 H2].
        split; [exact H1|]. intros x. rewrite H2, in_app_iff. simpl. split.
        -- intros [[H|[<-|[]]]|[H H']]; auto.
        -- intros [H|[[<-|H] H']]; auto.
      * assert (Hno : ~ In a other).
        { intros C. apply contains_In in C. congruence. }
        destruct (IH result Hnd) as [H1 H2].
        split; [exact H1|]. intros x. rewrite H2. split.
        -- intros [H|[H H']]; auto.
        -- intros [H|[[<-|H] H']]; auto. contradiction.
Qed.

Lemma intersection_spec (array other : list string) :
  NoDup (intersection array other)
  /\ (forall x, In x (intersection array other) <-> In x array /\ In x other).
Proof.
  destruct (intersection_from_spec array other [] (NoDup_nil _)) as [H1 H2].
  split; [exact H1|]. intros x. unfold intersection. rewrite H2. simpl. tauto.
Qed.

Lemma truthy_length (A : Type) (l : list A) :
  JS.truthy (Z.of_nat (List.length l)) = match l with [] => false | _ => true end.
Proof. destruct l; reflexivity. Qed.

(** The entry of [_getActiveConversationsWithUsers] for one conversation. *)
Lemma active_entry (r : Repository) (userIds : list string) (i : nat)
      (c : ConversationEntity) :
  (if negb (removed_from_conversation c) then
     if JS.truthy
          (Z.of_nat
             (List.length
                (intersection (participating_user_ids c ++ [repository_selfUserId r])
                              userIds)))
     then Some {| info_conversationEntity := i;
                  info_userIds :=
                    intersection (participating_user_ids c ++ [repository_selfUserId r])
                                 userIds |}
     else None
   else None)
  = match matching r userIds c with
    | [] => None
    | x :: l => Some {| info_conversationEntity := i; info_userIds := x :: l |}
    end.
Proof.
  unfold matching. destruct (removed_from_conversation c); [reflexivity|]. simpl.
  rewrite truthy_length.
  destruct (intersection _ userIds); reflexivity.
Qed.


Lemma map_indexed_ext (A B : Type) (f g : nat -> A -> B) (l : list A) :
  (forall i a, f i a = g i a) -> forall i, map_indexed f i l = map_indexed g i l.
Proof.
  intros H. induction l as [|a l IH]; intros i; simpl; [reflexivity|].
  now rewrite H, IH.
Qed.

Lemma getActive_entries (r : Repository) (userIds : list string) :
  _getActiveConversationsWithUsers r userIds
  = defined_only (map_indexed (entry r userIds) 0 (filtered_conversations r)).
Proof.
  unfold _getActiveConversationsWithUsers. f_equal.
  apply map_indexed_ext. intros i a. cbv zeta. apply active_entry.
Qed.


Lemma entries_spec (r : Repository) (userIds : list string) (cs : list ConversationEntity) :
  forall k,
    let infos := defined_only (map_indexed (entry r userIds) k cs) in
    (forall info, In info infos ->
                  exists j c, info_conversationEntity info = (k + j)%nat
                              /\ nth_error cs j = Some c
                              /\ matching r userIds c = info_userIds info
                              /\ info_userIds info <> [])
    /\ (forall j c, nth_error cs j = Some c -> matching r userIds c <> [] ->
                    In {| info_conversationEntity := (k + j)%nat;
                          info_userIds := matching r userIds c |} infos)
    /\ StronglySorted lt (map info_conversationEntity infos).
Proof.
  induction cs as [|c cs IH]; intros k; cbn [map_indexed defined_only].
  - split; [intros info []|]. split; [intros [|j] c; discriminate|constructor].
  - destruct (IH (S k)) as (H1 & H2 & H3). cbv zeta in H1, H2, H3.
    assert (Hge : forall info,
               In info (defined_only (map_indexed (entry r userIds) (S k) cs)) ->
               (k < info_conversationEntity info)%nat).
    { intros info Hin. destruct (H1 info Hin) as (j & c' & -> & _). lia. }
    destruct (matching r userIds c) as [|x l] eqn:E.
    + assert (He : entry r userIds k c = None) by (unfold entry; now rewrite E).
      rewrite He. split; [|split; [|exact H3]].
      * intros info Hin. destruct (H1 info Hin) as (j & c' & Hp & Hn & Hm).
        exists (S j), c'. rewrite Hp. split; [lia|]. split; assumption.
      * intros [|j] c' Hn Hm; simpl in Hn.
        -- injection Hn as <-. contradiction.
        -- replace (k + S j)%nat with (S k + j)%nat by lia. now apply H2.
    + assert (He : entry r userIds k c
                   = Some {| info_conversationEntity := k; info_userIds := x :: l |})
        by (unfold entry; now rewrite E).
      rewrite He. cbn [defined_only map]. split; [|split].
      * intros info [<-|Hin].
        -- exists 0%nat, c. simpl. rewrite E. repeat split; auto; try lia. discriminate.
        -- destruct (H1 info Hin) as (j & c' & Hp & Hn & Hm).
           exists (S j), c'. rewrite Hp. split; [lia|]. split; assumption.
      * intros [|j] c' Hn Hm; simpl in Hn.
        -- injection Hn as <-. left. rewrite E, Nat.add_0_r. reflexivity.
        -- right. replace (k + S j)%nat with (S k + j)%nat by lia. now apply H2.
      * constructor; [exact H3|]. cbn [info_conversationEntity].
        apply Forall_forall. intros p Hp. apply in_map_iff in Hp as (info & <- & Hin).
        now apply Hge.
Qed.

Lemma matching_spec (r : Repository) (userIds : list string) (c : ConversationEntity) :
  NoDup (matching r userIds c)
  /\ (forall u, In u (matching r userIds c) <->
                removed_from_conversation c = false
                /\ In u userIds
                /\ (In u (participating_user_ids c) \/ u = repository_selfUserId r)).
Proof.
  unfold matching. destruct (removed_from_conversation c).
  - split; [constructor|]. intros u. simpl. split; [intros []|intros [C _]; discriminate].
  - destruct (intersection_spec (participating_user_ids c ++ [repository_selfUserId r])
                                userIds) as [H1 H2].
    split; [exact H1|]. intros u. rewrite H2, in_app_iff. simpl. split.
    + intros [[H|[<-|[]]] H']; auto.
    + intros (_ & H' & [H|E]); [auto|subst u; auto].
Qed.

(** X2: [_getActiveConversationsWithUsers] returns, in the order of the
    repository and at most once each, exactly the conversations the self
    user was not removed from that share a user with [userIds] (the self
    user counting as a participant), each with the matching user ids in the
    order of the conversation's participants and without duplicates. *)
Theorem getActiveConversationsWithUsers_spec (r : Repository) (userIds : list string) :
  let infos := _getActiveConversationsWithUsers r userIds in
  Forall (fun info =>
            exists c,
              nth_error (filtered_conversations r) (info_conversationEntity info) = Some c
              /\ removed_from_conversation c = false
              /\ info_userIds info <> []
              /\ NoDup (info_userIds info)
              /\ (forall u, In u (info_userIds info) <->
                            In u userIds
                            /\ (In u (participating_user_ids c)
                                \/ u = repository_selfUserId r)))
         infos
  /\ (forall i c u,
         nth_error (filtered_conversations r) i = Some c ->
         removed_from_conversation c = false ->
         In u userIds ->
         In u (participating_user_ids c) \/ u = repository_selfUserId r ->
         exists uids, In {| info_conversationEntity := i; info_userIds := uids |} infos)
  /\ StronglySorted lt (map info_conversationEntity infos).
Proof.
  cbv zeta. rewrite getActive_entries.
  destruct (entries_spec r userIds (filtered_conversations r) 0) as (H1 & H2 & H3).
  cbv zeta in H1, H2, H3. split; [|split; [|exact H3]].
  - apply Forall_forall. intros info Hin.
    destruct (H1 info Hin) as (j & c & Hp & Hn & Hm & Hne).
    exists c. simpl in Hp. rewrite Hp. split; [exact Hn|].
    destruct (matching_spec r userIds c) as [Hnd Hiff]. rewrite Hm in Hnd, Hiff.
    assert (Hrem : removed_from_conversation c = false).
    { destruct (info_userIds info) as [|x l] eqn:E; [contradiction|].
      apply (Hiff x). now left. }
    split; [exact Hrem|]. split; [exact Hne|]. split; [exact Hnd|].
    intros u. rewrite Hiff. split; [intros (_ & A & B); auto|intros [A B]; auto].
  - intros i c u Hn Hrem Hu Hu'.
    exists (matching r userIds c). apply (H2 i c Hn).
    intros E. destruct (matching_spec r userIds c) as [_ Hiff].
    assert (Hin : In u (matching r userIds c)) by (apply Hiff; auto).
    rewrite E in Hin. destruct Hin.
Qed.


Lemma nth_error_update_at (A : Type) (f : A -> A) (l : list A) :
  forall i c, nth_error l i = Some c -> nth_error (update_at i f l) i = Some (f c).
Proof.
  induction l as [|a l IH]; intros [|i] c H; simpl in *; try discriminate.
  - now injection H as ->.
  - now apply IH.
Qed.

Lemma update_at_twice (A : Type) (f g : A -> A) (l : list A) :
  forall i, update_at i g (update_at i f l) = update_at i (fun x => g (f x)) l.
Proof.
  induction l as [|a l IH]; intros [|i]; simpl; try reflexivity. now rewrite IH.
Qed.

Lemma update_at_ext_at (A : Type) (f g : A -> A) (l : list A) :
  forall i c, nth_error l i = Some c -> f c = g c -> update_at i f l = update_at i g l.
Proof.
  induction l as [|a l IH]; intros [|i] c H E; simpl in *; try discriminate.
  - injection H as ->. now rewrite E.
  - f_equal. now apply (IH i c).
Qed.

Lemma update_at_app (A : Type) (f : A -> A) (pre : list A) (c : A) (cs : list A) :
  update_at (List.length pre) f (pre ++ c :: cs) = pre ++ f c :: cs.
Proof. induction pre as [|a pre IH]; simpl; [reflexivity|]. now rewrite IH. Qed.

Lemma nth_error_middle (A : Type) (pre : list A) (c : A) (cs : list A) :
  nth_error (pre ++ c :: cs) (List.length pre) = Some c.
Proof. induction pre as [|a pre IH]; simpl; auto. Qed.


Lemma forEach_settles next cb (r : Repository) (userIds : list string) :
  settles next cb ->
  forall cs pre r0,
    filtered_conversations r0 = pre ++ cs ->
    let out := forEach cb (defined_only (map_indexed (entry r userIds) (List.length pre) cs))
                       r0 in
    fst out = Returned None
    /\ filtered_conversations (snd out)
       = pre ++ map (fun c =>
                       match matching r userIds c with
                       | [] => c
                       | _ :: _ => with_entity c (set_verification_state (entity c)
                                                                          (next (entity c)))
                       end) cs.
Proof.
  intros Hcb. induction cs as [|c cs IH]; intros pre r0 Hr0; cbn [map_indexed defined_only].
  - simpl. rewrite app_nil_r in *. auto.
  - destruct (matching r userIds c) as [|x l] eqn:E.
    + assert (He : entry r userIds (List.length pre) c = None)
        by (unfold entry; now rewrite E).
      rewrite He. cbn [map]. rewrite E.
      specialize (IH (pre ++ [c]) r0). rewrite <- app_assoc in IH. simpl in IH.
      rewrite length_app, Nat.add_1_r in IH. rewrite <- app_assoc in IH. apply IH, Hr0.
    + assert (He : entry r userIds (List.length pre) c
                   = Some {| info_conversationEntity := List.length pre;
                             info_userIds := x :: l |})
        by (unfold entry; now rewrite E).
      rewrite He. cbn [map forEach]. rewrite E.
      destruct (Hcb {| info_conversationEntity := List.length pre;
                       info_userIds := x :: l |} r0 c) as (v & r1 & Hrun & Hf & Hs).
      { discriminate. }
      { simpl. rewrite Hr0. apply nth_error_middle. }
      rewrite Hrun. simpl in Hf. rewrite Hr0, update_at_app in Hf.
      set (c' := with_entity c (set_verification_state (entity c) (next (entity c)))) in *.
      specialize (IH (pre ++ [c']) r1). rewrite <- app_assoc in IH. simpl in IH.
      rewrite length_app, Nat.add_1_r in IH. rewrite <- app_assoc in IH. apply IH, Hf.
Qed.

Lemma on_entity_settles next (m : Handler -> Completion bool * Handler)
      (i : nat) (r0 : Repository) (c : ConversationEntity) :
  nth_error (filtered_conversations r0) i = Some c ->
  (exists v, fst (m (focus r0 c)) = Returned v) ->
  conversationEntity (snd (m (focus r0 c)))
  = set_verification_state (entity c) (next (entity c)) ->
  exists v r1,
    on_entity m i r0 = (Returned v, r1)
    /\ filtered_conversations r1
       = update_at i (fun c => with_entity c (set_verification_state (entity c)
                                                                     (next (entity c))))
                   (filtered_conversations r0)
    /\ repository_selfUserId r1 = repository_selfUserId r0
    /\ repository_injected r1 = injected (snd (m (focus r0 c)))
    /\ repository_logged r1 = logged (snd (m (focus r0 c)))
    /\ repository_serverTimestamp r1 = serverTimestamp (snd (m (focus r0 c))).
Proof.
  intros Hn (v & Hv) He. unfold on_entity. rewrite Hn.
  destruct (m (focus r0 c)) as [res h]. simpl in *. subst res.
  exists v, (store i h r0). split; [reflexivity|]. simpl. repeat split.
  apply (update_at_ext_at _ _ _ _ i c Hn). now rewrite He.
Qed.

Lemma verified_state_world (h : Handler) :
  (exists v, fst (_checkChangeToVerified h) = Returned v)
  /\ conversationEntity (snd (_checkChangeToVerified h))
     = set_verification_state (conversationEntity h) (verified_state (conversationEntity h))
  /\ serverTimestamp (snd (_checkChangeToVerified h)) = serverTimestamp h.
Proof.
  rewrite checkChangeToVerified_world. unfold verified_state.
  destruct h as [c inj lg ts]. destruct c as [i s st v]. simpl.
  destruct st; destruct v as [[|]|]; simpl; repeat split; eauto.
Qed.

Lemma degraded_state_world (h : Handler) (u : string) (rest : list string)
      (ty : VerificationMessageType.t) :
  (exists v, fst (_checkChangeToDegraded h (u :: rest) ty) = Returned v)
  /\ conversationEntity (snd (_checkChangeToDegraded h (u :: rest) ty))
     = set_verification_state (conversationEntity h) (degraded_state ty (conversationEntity h))
  /\ serverTimestamp (snd (_checkChangeToDegraded h (u :: rest) ty)) = serverTimestamp h.
Proof.
  rewrite checkChangeToDegraded_world. unfold degraded_state.
  destruct h as [c inj lg ts]. destruct c as [i s st v]. simpl.
  destruct st; destruct v as [[|]|]; simpl; repeat split; eauto.
Qed.

Lemma settles_verified :
  settles verified_state
          (fun info r0 => on_entity _checkChangeToVerified (info_conversationEntity info) r0).
Proof.
  intros info r0 c _ Hn.
  destruct (verified_state_world (focus r0 c)) as (Hv & He & _).
  destruct (on_entity_settles verified_state _checkChangeToVerified
              (info_conversationEntity info) r0 c Hn Hv He) as (v & r1 & H1 & H2 & H3 & _).
  eauto.
Qed.

Lemma settles_degraded (ty : VerificationMessageType.t) :
  settles (degraded_state ty)
          (fun info r0 =>
             on_entity (fun h => _checkChangeToDegraded h (info_userIds info) ty)
                       (info_conversationEntity info) r0).
Proof.
  intros info r0 c Hne Hn.
  destruct (info_userIds info) as [|u rest] eqn:E; [contradiction|].
  destruct (degraded_state_world (focus r0 c) u rest ty) as (Hv & He & _).
  destruct (on_entity_settles (degraded_state ty)
              (fun h => _checkChangeToDegraded h (u :: rest) ty)
              (info_conversationEntity info) r0 c Hn Hv He) as (v & r1 & H1 & H2 & H3 & _).
  eauto.
Qed.


Lemma on_entity_run (A : Type) (m : Handler -> Completion A * Handler) (i : nat)
      (r0 : Repository) (c : ConversationEntity) :
  nth_error (filtered_conversations r0) i = Some c ->
  on_entity m i r0 = (fst (m (focus r0 c)), store i (snd (m (focus r0 c))) r0).
Proof.
  intros Hn. unfold on_entity. rewrite Hn. destruct (m (focus r0 c)); reflexivity.
Qed.

Lemma settles_verified_else_degraded (ty : VerificationMessageType.t) :
  settles (settled_state ty) (verified_else_degraded ty).
Proof.
  intros info r0 c Hne Hn.
  destruct (info_userIds info) as [|u rest] eqn:E; [contradiction|].
  unfold verified_else_degraded. rewrite E.
  rewrite (on_entity_run _ _ _ _ c Hn).
  set (i := info_conversationEntity info) in *.
  assert (Hn1 : forall h, nth_error (filtered_conversations (store i h r0)) i
                          = Some (with_entity c (conversationEntity h))).
  { intros h. simpl.
    apply (nth_error_update_at _ (fun c0 => with_entity c0 (conversationEntity h))
                               _ i c Hn). }
  rewrite checkChangeToVerified_world.
  destruct c as [e rem users]. destruct e as [ci cs st ve].
  unfold focus at 1 2. cbn [conversationEntity is_verified verification_state entity].
  destruct st; destruct ve as [[|]|]; cbn [fst snd];
    try (eexists; eexists; split; [reflexivity|]; split; [|reflexivity];
         simpl; apply (update_at_ext_at _ _ _ _ i _ Hn); reflexivity);
    rewrite (on_entity_run _ _ _ _ _ (Hn1 _));
    rewrite checkChangeToDegraded_world; cbn;
    (eexists; eexists; split; [reflexivity|]; split; [|reflexivity]);
    simpl; rewrite update_at_twice;
    apply (update_at_ext_at _ _ _ _ i _ Hn); try reflexivity;
    destruct ty; reflexivity.
Qed.

Lemma handler_settles next cb (r : Repository) (userIds : list string) :
  settles next cb ->
  let out := forEach cb (_getActiveConversationsWithUsers r userIds) r in
  fst out = Returned None
  /\ filtered_conversations (snd out) = conversations_after next r userIds.
Proof.
  intros Hcb. rewrite getActive_entries.
  apply (forEach_settles next cb r userIds Hcb (filtered_conversations r) [] r).
  reflexivity.
Qed.

(** X3: The handlers of client changes ([onClientVerificationChanged],
    [onClientAdded], [onClientsAdded], [onClientRemoved],
    [onClientsUpdated]) never throw: the anomaly that makes
    [_checkChangeToDegraded] throw needs an empty list of user ids, and the
    handlers only call it for conversations that share a user with the
    event. *)
Theorem client_handlers_never_throw (r : Repository) (userId : string)
        (userIds : list string) :
  fst (onClientVerificationChanged userId r) = Returned None
  /\ fst (onClientAdded userId r) = Returned None
  /\ fst (onClientsAdded userIds r) = Returned None
  /\ fst (onClientRemoved userId r) = Returned None
  /\ fst (onClientsUpdated userId r) = Returned None.
Proof.
  unfold onClientVerificationChanged, onClientAdded, onClientsAdded, onClientRemoved,
    onClientsUpdated.
  split; [apply (handler_settles _ _ r [userId]
                   (settles_verified_else_degraded VerificationMessageType.UNVERIFIED))|].
  split; [apply (handler_settles _ _ r [userId]
                   (settles_degraded VerificationMessageType.NEW_DEVICE))|].
  split; [apply (handler_settles _ _ r userIds
                   (settles_degraded VerificationMessageType.NEW_DEVICE))|].
  split; [apply (handler_settles _ _ r [userId] settles_verified)|].
  apply (handler_settles _ _ r [userId]
           (settles_verified_else_degraded VerificationMessageType.NEW_DEVICE)).
Qed.

(** X4: What the handlers of client changes do to the conversations of the
    repository: each conversation that shares a user with the event is left
    in the state the handler's checks settle on (both checks for
    [onClientVerificationChanged] and [onClientsUpdated], only the degrading
    check for [onClientsAdded], only the verifying check for
    [onClientRemoved]); every other conversation keeps its state. *)
Theorem client_handlers_settle_conversations (r : Repository) (userId : string)
        (userIds : list string) :
  filtered_conversations (snd (onClientVerificationChanged userId r))
  = conversations_after (settled_state VerificationMessageType.UNVERIFIED) r [userId]
  /\ filtered_conversations (snd (onClientsUpdated userId r))
     = conversations_after (settled_state VerificationMessageType.NEW_DEVICE) r [userId]
  /\ filtered_conversations (snd (onClientsAdded userIds r))
     = conversations_after (degraded_state VerificationMessageType.NEW_DEVICE) r userIds
  /\ filtered_conversations (snd (onClientRemoved userId r))
     = conversations_after verified_state r [userId].
Proof.
  unfold onClientVerificationChanged, onClientsAdded, onClientRemoved, onClientsUpdated.
  split; [apply (handler_settles _ _ r [userId]
                   (settles_verified_else_degraded VerificationMessageType.UNVERIFIED))|].
  split; [apply (handler_settles _ _ r [userId]
                   (settles_verified_else_degraded VerificationMessageType.NEW_DEVICE))|].
  split; [apply (handler_settles _ _ r userIds
                   (settles_degraded VerificationMessageType.NEW_DEVICE))|].
  apply (handler_settles _ _ r [userId] settles_verified).
Qed.

End VerificationEvents.

(* ------------------------------------------------------------------ *)
(** ** More of the call entity: session ids, participants, timers, ring tone *)
(* ------------------------------------------------------------------ *)

Section CallEntityMore.

Import Call CallEntity AsyncOps.

Variable env : Environment.


Lemma strictly_equal_eq (a b : option string) : strictly_equal a b = true <-> a = b.
Proof.
  destruct a as [x|], b as [y|]; simpl; split; intros H; try discriminate; auto.
  - apply String.eqb_eq in H. now subst.
  - injection H as ->. apply String.eqb_refl.
Qed.

(** X5: [verifySessionId] never changes the call.  It resolves when the session
    id of the message is the one of the call; otherwise it looks the sender
    up and resolves when the message carries the session id of that
    participant, rejects with WRONG_SENDER when it carries another one, and
    rejects with NOT_FOUND when the sender is no participant. *)
Theorem verifySessionId_contract (w : World) (m : CallMessageEntity) :
  let r := verifySessionId m w in
  snd r = w
  /\ (msg_sessionId m = sessionId (this w) -> fst r = Resolved tt)
  /\ (msg_sessionId m <> sessionId (this w) ->
      match msg_userId m with
      | Some u =>
          match fst (getParticipantById u w) with
          | Resolved p =>
              if strictly_equal (msg_sessionId m) (participant_sessionId p)
              then fst r = Resolved tt
              else fst r = Rejected WRONG_SENDER_error
          | Rejected e => fst r = Rejected NOT_FOUND_error
          end
      | None => fst r = Rejected NOT_FOUND_error
      end)
  /\ CallError.type WRONG_SENDER_error = CallError.WRONG_SENDER.
Proof.
  cbv zeta. unfold verifySessionId. cbv zeta.
  destruct (strictly_equal (msg_sessionId m) (sessionId (this w))) eqn:E.
  - apply strictly_equal_eq in E. repeat split; auto. intros C. contradiction.
  - assert (Hne : msg_sessionId m <> sessionId (this w)).
    { intros C. apply strictly_equal_eq in C. congruence. }
    unfold then_, getParticipantById_of, getParticipantById, reject, resolve.
    destruct (msg_userId m) as [u|]; cbn.
    + destruct (getParticipantById_loop (participants (this w)) u) as [p|]; cbn.
      * destruct (strictly_equal (msg_sessionId m) (participant_sessionId p)); cbn;
          repeat split; auto; intros C; contradiction.
      * repeat split; auto; intros C; contradiction.
    + repeat split; auto; intros C; contradiction.
Qed.


(** *** Helpers: what the small steps leave alone *)

Lemma this_notify_networkInterruption (b : bool) (w : World) :
  this (notify_networkInterruption b w) = this w.
Proof.
  unfold notify_networkInterruption.
  destruct (Bool.eqb b (networkInterruption (this w))); [reflexivity|].
  destruct (networkInterruption (this w)); reflexivity.
Qed.

Lemma this_notify_numberOfParticipants (n : nat) (w : World) :
  this (notify_numberOfParticipants n w) = this w.
Proof.
  unfold notify_numberOfParticipants.
  destruct (Nat.eqb n (numberOfParticipants (this w))); reflexivity.
Qed.

Lemma nextRef_notify_networkInterruption (b : bool) (w : World) :
  nextRef (notify_networkInterruption b w) = nextRef w.
Proof.
  unfold notify_networkInterruption.
  destruct (Bool.eqb b (networkInterruption (this w))); [reflexivity|].
  destruct (networkInterruption (this w)); reflexivity.
Qed.

Lemma nextRef_notify_numberOfParticipants (n : nat) (w : World) :
  nextRef (notify_numberOfParticipants n w) = nextRef w.
Proof.
  unfold notify_numberOfParticipants.
  destruct (Nat.eqb n (numberOfParticipants (this w))); reflexivity.
Qed.

Lemma this_updateRemoteState (w : World) :
  exists mediaType,
    _updateRemoteState w = upd (set_remoteMediaType mediaType) w.
Proof.
  unfold _updateRemoteState. destruct (fold_left _ _ None); eauto.
Qed.

Lemma participants_updateRemoteState (w : World) :
  participants (this (_updateRemoteState w)) = participants (this w)
  /\ nextRef (_updateRemoteState w) = nextRef w
  /\ selfClientJoined (this (_updateRemoteState w)) = selfClientJoined (this w).
Proof.
  destruct (this_updateRemoteState w) as [mt ->]. simpl. destruct (this w); auto.
Qed.

Lemma this_audio_on_removal (reason : option TERMINATION_REASON.t) (w : World) :
  this (audio_on_removal reason w) = this w /\ nextRef (audio_on_removal reason w) = nextRef w.
Proof. unfold audio_on_removal. destruct reason as [[]|]; auto. Qed.

Lemma participants_write_participants (ps : list ParticipantEntity) (w : World) :
  participants (this (write_participants ps w)) = ps
  /\ nextRef (write_participants ps w) = nextRef w.
Proof.
  unfold write_participants.
  rewrite this_notify_numberOfParticipants, nextRef_notify_numberOfParticipants.
  simpl. destruct (this w); auto.
Qed.

Lemma participants_write_participant (p : ParticipantEntity) (w : World) :
  participants (this (write_participant p w))
  = map (fun q => if Nat.eqb (ref q) (ref p) then p else q) (participants (this w))
  /\ nextRef (write_participant p w) = nextRef w.
Proof. unfold write_participant. simpl. destruct (this w); auto. Qed.

Lemma participants_interrupted_remove (p : ParticipantEntity) (w : World) :
  participants (this (interruptedParticipants_remove p w)) = participants (this w)
  /\ nextRef (interruptedParticipants_remove p w) = nextRef w.
Proof.
  unfold interruptedParticipants_remove.
  rewrite this_notify_networkInterruption, nextRef_notify_networkInterruption.
  simpl. destruct (this w); auto.
Qed.

Lemma verify_if_given_same (p p1 : ParticipantEntity) (c : option string) :
  verify_if_given p c = Resolved p1 ->
  ref p1 = ref p /\ participant_id p1 = participant_id p.
Proof.
  unfold verify_if_given, verifyClientId.
  destruct c as [c|]; [|intros [= <-]; auto].
  destruct (JS.truthy_string c); [|intros [= <-]; auto].
  destruct (clientId p) as [bound|]; [|intros [= <-]; auto].
  destruct (String.eqb bound c); [intros [= <-]; auto|discriminate].
Qed.

Lemma verify_if_given_rejects (p : ParticipantEntity) (c : option string) (e : CallError.t) :
  verify_if_given p c = Rejected e -> CallError.is_NOT_FOUND e = false.
Proof.
  unfold verify_if_given, verifyClientId.
  destruct c as [c|]; [|discriminate].
  destruct (JS.truthy_string c); [|discriminate].
  destruct (clientId p) as [bound|]; [|discriminate].
  destruct (String.eqb bound c); [discriminate|]. intros [= <-]. reflexivity.
Qed.

Lemma lookup_none (ps : list ParticipantEntity) (userId : string) :
  (forall p, In p ps -> participant_id p <> userId) <->
  getParticipantById_loop ps userId = None.
Proof.
  pose proof (getParticipantById_loop_spec ps userId) as H.
  destruct (getParticipantById_loop ps userId) as [p|].
  - destruct H as (before & after & -> & Hid & _). split; [|discriminate].
    intros Hall. exfalso. apply (Hall p); [|exact Hid].
    apply in_or_app. right. now left.
  - split; auto.
Qed.

Lemma filter_after_write (r : nat) (p2 : ParticipantEntity) (ps : list ParticipantEntity) :
  ref p2 = r ->
  filter (fun q => negb (Nat.eqb (ref q) r))
         (map (fun q => if Nat.eqb (ref q) (ref p2) then p2 else q) ps)
  = filter (fun q => negb (Nat.eqb (ref q) r)) ps.
Proof.
  intros <-. induction ps as [|q ps IH]; simpl; [reflexivity|].
  destruct (Nat.eqb (ref q) (ref p2)) eqn:E; simpl.
  - rewrite Nat.eqb_refl. simpl. exact IH.
  - rewrite E. simpl. now rewrite IH.
Qed.

Lemma last_sender (ps : list ParticipantEntity) :
  forall acc,
    let last :=
      fold_left
        (fun acc p =>
           if screenSend p then Some MediaType.SCREEN
           else if videoSend p then Some MediaType.VIDEO
           else acc) ps acc in
    (someone_sends_video ps = false -> last = acc)
    /\ (someone_sends_video ps = true ->
        last = Some MediaType.SCREEN \/ last = Some MediaType.VIDEO).
Proof.
  unfold someone_sends_video.
  induction ps as [|p ps IH]; intros acc; cbv zeta; simpl.
  - split; [reflexivity|discriminate].
  - destruct (IH (if screenSend p then Some MediaType.SCREEN
                  else if videoSend p then Some MediaType.VIDEO else acc)) as [H1 H2].
    cbv zeta in H1, H2. split.
    + intros H. apply orb_false_iff in H as [Hp Hps]. apply orb_false_iff in Hp as [Hs Hv].
      rewrite (H1 Hps), Hs, Hv. reflexivity.
    + intros H. destruct (existsb _ ps) eqn:Eps; [now apply H2|].
      rewrite orb_false_r in H. rewrite (H1 eq_refl).
      destruct (screenSend p); [now left|]. destruct (videoSend p); [now right|discriminate].
Qed.

Lemma updateRemoteState_world (w : World) :
  this (_updateRemoteState w)
  = set_remoteMediaType (remoteMediaType (this (_updateRemoteState w))) (this w)
  /\ isRemoteVideoCall (this (_updateRemoteState w))
     = someone_sends_video (participants (this w))
  /\ (remoteMediaType (this (_updateRemoteState w)) = MediaType.AUDIO
      <-> someone_sends_video (participants (this w)) = false).
Proof.
  unfold _updateRemoteState, isRemoteVideoCall.
  destruct (last_sender (participants (this w)) None) as [H1 H2]. cbv zeta in H1, H2.
  destruct (someone_sends_video (participants (this w))).
  - destruct (H2 eq_refl) as [-> | ->]; simpl; destruct (this w); simpl;
      (split; [reflexivity|]); (split; [reflexivity|]); split; discriminate.
  - rewrite (H1 eq_refl). simpl. destruct (this w); simpl.
    split; [reflexivity|]. split; [reflexivity|]. split; reflexivity.
Qed.

(** The world after [deleteParticipant] found the participant [p]. *)
Lemma deleteParticipant_found (w : World) (userId : string) (clientId : option string)
      (reason : option TERMINATION_REASON.t) (p p1 : ParticipantEntity) :
  getParticipantById_loop (participants (this w)) userId = Some p ->
  verify_if_given p clientId = Resolved p1 ->
  let r := deleteParticipant env userId clientId reason w in
  fst r = Resolved tt
  /\ participants (this (snd r))
     = filter (fun q => negb (Nat.eqb (ref q) (ref p))) (participants (this w))
  /\ nextRef (snd r) = nextRef w
  /\ isRemoteVideoCall (this (snd r))
     = someone_sends_video (participants (this (snd r)))
  /\ In (RemoveMediaElement userId) (effects (snd r)).
Proof.
  intros Hl Hv. cbv zeta.
  unfold deleteParticipant, catch_, then_, getParticipantById. rewrite Hl, Hv.
  cbv zeta. cbn [fst snd].
  destruct (verify_if_given_same p p1 clientId Hv) as [Hr _].
  set (p2 := same_object p1 (participant_resetParticipant env p1)).
  assert (Hr2 : ref p2 = ref p) by (subst p2; simpl; exact Hr).
  set (w1 := write_participant p2 w).
  set (w2 := interruptedParticipants_remove p2 w1).
  set (w3 := participants_remove p2 w2).
  set (w4 := _updateRemoteState w3).
  set (w5 := effect (RemoveMediaElement userId) w4).
  set (w6 := if selfClientJoined (this w5) then audio_on_removal reason w5 else w5).
  assert (H6 : this w6 = this w5 /\ nextRef w6 = nextRef w5
               /\ exists es, effects w6 = effects w5 ++ es).
  { subst w6. destruct (selfClientJoined (this w5)).
    - destruct (this_audio_on_removal reason w5) as [A B]. repeat split; auto.
      unfold audio_on_removal. destruct reason as [[]|]; simpl; eauto;
        exists []; now rewrite app_nil_r.
    - repeat split; auto. exists []. now rewrite app_nil_r. }
  destruct H6 as (H6t & H6n & es & H6e).
  destruct (participants_write_participant p2 w) as [P1 N1]. fold w1 in P1, N1.
  destruct (participants_interrupted_remove p2 w1) as [P2 N2]. fold w2 in P2, N2.
  destruct (participants_write_participants
              (filter (fun q => negb (Nat.eqb (ref q) (ref p2))) (participants (this w2)))
              w2) as [P3 N3].
  change (write_participants _ w2) with w3 in P3, N3.
  destruct (participants_updateRemoteState w3) as (P4 & N4 & _). fold w4 in P4, N4.
  assert (P5 : this w5 = this w4 /\ nextRef w5 = nextRef w4
               /\ effects w5 = effects w4 ++ [RemoveMediaElement userId])
    by (subst w5; repeat split; reflexivity).
  destruct P5 as (P5 & N5 & E5).
  split; [reflexivity|]. cbn [this effect nextRef effects].
  destruct (updateRemoteState_world w3) as (_ & V4 & _). fold w4 in V4.
  rewrite H6t, H6n, H6e, P5, N5, E5, V4, P4, N4, P3, N3, P2, N2, P1, N1.
  split; [rewrite (filter_after_write (ref p2) p2 _ eq_refl), Hr2; reflexivity|].
  split; [reflexivity|]. split; [reflexivity|].
  apply in_or_app. left. apply in_or_app. left. apply in_or_app. right. now left.
Qed.


(** X6: [_updateRemoteState] leaves the participants alone and makes the
    remote state reflect them: [isRemoteVideoCall] holds exactly when some
    participant sends video or shares the screen, the remote media type is
    AUDIO exactly when nobody does, and otherwise it is the media type of
    the last participant that sends (SCREEN before VIDEO). *)
Theorem updateRemoteState_reflects_participants (w : World) :
  let w' := _updateRemoteState w in
  participants (this w') = participants (this w)
  /\ isRemoteVideoCall (this w') = someone_sends_video (participants (this w'))
  /\ (remoteMediaType (this w') = MediaType.AUDIO
      <-> someone_sends_video (participants (this w')) = false)
  /\ remoteMediaType (this w') <> MediaType.NONE
  /\ remoteMediaType (this w') <> MediaType.AUDIO_VIDEO
  /\ (forall before p after,
         participants (this w) = before ++ p :: after ->
         screenSend p || videoSend p = true ->
         someone_sends_video after = false ->
         remoteMediaType (this w')
         = if screenSend p then MediaType.SCREEN else MediaType.VIDEO).
Proof.
  cbv zeta. destruct (participants_updateRemoteState w) as (Hp & _).
  destruct (updateRemoteState_world w) as (_ & Hv & Ha). rewrite Hp.
  split; [reflexivity|]. split; [exact Hv|]. split; [exact Ha|].
  unfold _updateRemoteState in *.
  destruct (last_sender (participants (this w)) None) as [H1 H2]. cbv zeta in H1, H2.
  split; [|split].
  - destruct (someone_sends_video (participants (this w))).
    + destruct (H2 eq_refl) as [-> | ->]; simpl; destruct (this w); discriminate.
    + rewrite (H1 eq_refl). simpl. destruct (this w); discriminate.
  - destruct (someone_sends_video (participants (this w))).
    + destruct (H2 eq_refl) as [-> | ->]; simpl; destruct (this w); discriminate.
    + rewrite (H1 eq_refl). simpl. destruct (this w); discriminate.
  - intros before p after Hps Hsend Hafter. rewrite Hps, fold_left_app. simpl.
    destruct (last_sender after
                (if screenSend p then Some MediaType.SCREEN
                 else if videoSend p then Some MediaType.VIDEO
                 else fold_left
                        (fun acc p0 =>
                           if screenSend p0 then Some MediaType.SCREEN
                           else if videoSend p0 then Some MediaType.VIDEO else acc)
                        before None)) as [K _].
    cbv zeta in K. rewrite (K Hafter).
    destruct (screenSend p); [destruct (this w); reflexivity|].
    simpl in Hsend. rewrite Hsend. destruct (this w); reflexivity.
Qed.

Lemma NoDup_map_eq (A B : Type) (f : A -> B) (l : list A) (a b : A) :
  NoDup (map f l) -> In a l -> In b l -> f a = f b -> a = b.
Proof.
  induction l as [|x l IH]; simpl; intros Hnd Ha Hb E; [destruct Ha|].
  inversion Hnd as [|y ys Hnotin Hnd']; subst.
  destruct Ha as [->|Ha], Hb as [->|Hb]; auto.
  - exfalso. apply Hnotin. rewrite E. now apply in_map.
  - exfalso. apply Hnotin. rewrite <- E. now apply in_map.
Qed.


(** X8: [deleteParticipant] for a participant whose client matches resolves,
    removes exactly that participant object (the others keep their order),
    so the call has fewer participants, removes its media element and
    recomputes the remote state; with distinct participant ids the user
    cannot be found afterwards. *)
Theorem deleteParticipant_removes (w : World) (userId : string)
        (clientId : option string) (reason : option TERMINATION_REASON.t)
        (p p1 : ParticipantEntity) :
  fst (getParticipantById userId w) = Resolved p ->
  verify_if_given p clientId = Resolved p1 ->
  let r := deleteParticipant env userId clientId reason w in
  fst r = Resolved tt
  /\ participants (this (snd r))
     = filter (fun q => negb (Nat.eqb (ref q) (ref p))) (participants (this w))
  /\ (List.length (participants (this (snd r))) < List.length (participants (this w)))%nat
  /\ isRemoteVideoCall (this (snd r))
     = someone_sends_video (participants (this (snd r)))
  /\ In (RemoveMediaElement userId) (effects (snd r))
  /\ (NoDup (map participant_id (participants (this w))) ->
      fst (getParticipantById userId (snd r)) = Rejected NOT_FOUND_error).
Proof.
  intros Hl Hv.
  assert (Hloop : getParticipantById_loop (participants (this w)) userId = Some p).
  { unfold getParticipantById in Hl.
    destruct (getParticipantById_loop (participants (this w)) userId);
      [now injection Hl as ->|discriminate]. }
  destruct (deleteParticipant_found w userId clientId reason p p1 Hloop Hv)
    as (H1 & H2 & _ & H4 & H5).
  cbv zeta in *. destruct (lookup_In _ _ _ Hloop) as [Hin Hid].
  split; [exact H1|]. split; [exact H2|]. split; [|split; [exact H4|split; [exact H5|]]].
  - rewrite H2. clear - Hin. induction (participants (this w)) as [|a l IH]; [destruct Hin|].
    simpl. destruct Hin as [->|Hin].
    + rewrite Nat.eqb_refl. simpl.
      pose proof (filter_length_le (fun q => negb (Nat.eqb (ref q) (ref p))) l). lia.
    + specialize (IH Hin). destruct (negb (Nat.eqb (ref a) (ref p))); simpl; lia.
  - intros Hnd. unfold getParticipantById.
    assert (Hnone : getParticipantById_loop
                      (participants (this (snd (deleteParticipant env userId clientId
                                                                  reason w)))) userId
                    = None).
    { apply lookup_none. rewrite H2. intros q Hq Hidq.
      apply filter_In in Hq as [Hq Hr].
      assert (q = p) by (apply (NoDup_map_eq _ _ participant_id _ q p Hnd Hq Hin);
                         congruence).
      subst q. rewrite Nat.eqb_refl in Hr. discriminate. }
    rewrite Hnone. reflexivity.
Qed.


(** *** The participants stay distinct *)

Lemma participants_wf_frame (w w' : World) :
  participants (this w') = participants (this w) -> nextRef w' = nextRef w ->
  participants_wf w -> participants_wf w'.
Proof. unfold participants_wf. intros -> ->. auto. Qed.



Lemma map_write (A : Type) (f : ParticipantEntity -> A) (p : ParticipantEntity)
      (ps : list ParticipantEntity) :
  (forall q, In q ps -> ref q = ref p -> f p = f q) ->
  map f (map (fun q => if Nat.eqb (ref q) (ref p) then p else q) ps) = map f ps.
Proof.
  induction ps as [|a ps IH]; simpl; intros H; [reflexivity|].
  rewrite IH by (intros q Hq; apply H; now right). f_equal.
  destruct (Nat.eqb_spec (ref a) (ref p)) as [E|_]; [|reflexivity].
  apply H; [now left|exact E].
Qed.

Lemma participants_wf_write (p q : ParticipantEntity) (w : World) :
  In q (participants (this w)) -> ref p = ref q -> participant_id p = participant_id q ->
  participants_wf w -> participants_wf (write_participant p w).
Proof.
  intros Hin Hr Hid (H1 & H2 & H3). unfold participants_wf.
  destruct (participants_write_participant p w) as [-> ->].
  assert (Href : map ref (map (fun q0 => if Nat.eqb (ref q0) (ref p) then p else q0)
                              (participants (this w)))
                 = map ref (participants (this w))).
  { apply map_write. intros q0 _ E. now symmetry. }
  assert (Hids : map participant_id
                     (map (fun q0 => if Nat.eqb (ref q0) (ref p) then p else q0)
                          (participants (this w)))
                 = map participant_id (participants (this w))).
  { apply map_write. intros q0 Hq0 E.
    assert (q0 = q) by (apply (NoDup_map_eq _ _ ref _ q0 q H1 Hq0 Hin); congruence).
    subst q0. exact Hid. }
  rewrite Href, Hids. split; [exact H1|]. split; [exact H2|].
  rewrite Forall_forall in H3. apply Forall_forall. intros x Hx.
  apply in_map_iff in Hx as (q0 & <- & Hq0).
  destruct (Nat.eqb (ref q0) (ref p)); [rewrite Hr|]; auto.
Qed.

Lemma lookup_after_write (ps : list ParticipantEntity) (userId : string)
      (p0 p' : ParticipantEntity) :
  getParticipantById_loop ps userId = Some p0 ->
  ref p' = ref p0 -> participant_id p' = userId ->
  getParticipantById_loop (map (fun q => if Nat.eqb (ref q) (ref p') then p' else q) ps)
                          userId
  = Some p'.
Proof.
  intros Hl Hr Hid. induction ps as [|a ps IH]; simpl in *; [discriminate|].
  destruct (Nat.eqb_spec (ref a) (ref p')) as [E|E].
  - rewrite Hid, String.eqb_refl. reflexivity.
  - destruct (String.eqb (participant_id a) userId) eqn:Ea.
    + injection Hl as ->. congruence.
    + now apply IH.
Qed.


Lemma found_frame (userId : string) (p : ParticipantEntity) (w w' : World) :
  participants (this w') = participants (this w) -> found userId p w -> found userId p w'.
Proof. unfold found. now intros ->. Qed.

Lemma found_write (userId : string) (p p' : ParticipantEntity) (w : World) :
  found userId p w -> ref p' = ref p -> participant_id p' = participant_id p ->
  found userId p' (write_participant p' w)
  /\ (participants_wf w -> participants_wf (write_participant p' w)).
Proof.
  intros Hf Hr Hid. destruct (lookup_In _ _ _ Hf) as [Hin Hu]. split.
  - unfold found. destruct (participants_write_participant p' w) as [-> _].
    apply (lookup_after_write _ _ p); auto. congruence.
  - apply (participants_wf_write p' p); auto.
Qed.

Lemma updateParticipantState_found (userId : string) (p1 : ParticipantEntity)
      (negotiate : bool) (m : option CallMessageEntity) (w : World) :
  updateState_contract env ->
  found userId p1 w ->
  let r := _updateParticipantState env p1 negotiate m w in
  match fst r with
  | Resolved p => found userId p (snd r)
  | Rejected e => CallError.is_NOT_FOUND e = false /\ found userId p1 (snd r)
  end
  /\ (participants_wf w -> participants_wf (snd r)).
Proof.
  intros Hc Hf. cbv zeta. unfold _updateParticipantState.
  assert (Hstep : forall skip p',
             let p1' := same_object p1 p' in
             let w1 := write_participant p1' w in
             let w2 := _updateRemoteState w1 in
             let r := if (if skip : bool then false else negotiate)
                      then (Resolved (same_object p1' (participant_startNegotiation env p1')),
                            effect (StartNegotiation
                                      (ref (same_object p1' (participant_startNegotiation
                                                               env p1'))))
                                   (write_participant
                                      (same_object p1' (participant_startNegotiation env p1'))
                                      w2))
                      else (Resolved p1', w2) in
             match fst r with
             | Resolved p => found userId p (snd r)
             | Rejected e => CallError.is_NOT_FOUND e = false /\ found userId p1 (snd r)
             end
             /\ (participants_wf w -> participants_wf (snd r))).
  { intros skip p'. cbv zeta.
    set (p1' := same_object p1 p').
    destruct (found_write userId p1 p1' w Hf eq_refl eq_refl) as [F1 W1].
    set (w1 := write_participant p1' w) in *.
    destruct (participants_updateRemoteState w1) as (P2 & N2 & _).
    set (w2 := _updateRemoteState w1) in *.
    assert (F2 : found userId p1' w2) by (apply (found_frame _ _ w1); auto).
    assert (W2 : participants_wf w -> participants_wf w2).
    { intros H. apply (participants_wf_frame w1); auto. }
    destruct (if skip then false else negotiate); cbn [fst snd].
    - set (p2 := same_object p1' (participant_startNegotiation env p1')).
      destruct (found_write userId p1' p2 w2 F2 eq_refl eq_refl) as [F3 W3].
      split.
      + apply (found_frame _ _ (write_participant p2 w2)); [reflexivity|exact F3].
      + intros H. apply (participants_wf_frame (write_participant p2 w2));
          [reflexivity|reflexivity|auto].
    - split; assumption. }
  destruct m as [m|].
  - destruct (participant_updateState env p1 m) as [[skip p']|e] eqn:E.
    + apply (Hstep skip p').
    + cbn [fst snd]. split; [|auto]. split; [exact (Hc _ _ _ E)|exact Hf].
  - pose proof (Hstep false p1) as H. cbv zeta in H.
    assert (Hsame : same_object p1 p1 = p1) by (destruct p1; reflexivity).
    rewrite Hsame in H. exact H.
Qed.


Lemma updateParticipant_found (userId : string) (p : ParticipantEntity)
      (negotiate : bool) (m : option CallMessageEntity) (w : World) :
  updateState_contract env ->
  found userId p w ->
  let r := _updateParticipant env p negotiate m w in
  match fst r with
  | Resolved p' => found userId p' (snd r)
  | Rejected e => CallError.is_NOT_FOUND e = false
  end
  /\ (participants_wf w -> participants_wf (snd r)).
Proof.
  intros Hc Hf. cbv zeta. unfold _updateParticipant.
  destruct (verify_if_given p _) as [p1|e] eqn:Ev; cbn [fst snd].
  - destruct (verify_if_given_same _ _ _ Ev) as [Hr Hid].
    destruct (found_write userId p p1 w Hf Hr Hid) as [F1 W1].
    set (w2 := effect (Log "Updating call participant") (write_participant p1 w)).
    assert (F2 : found userId p1 w2) by exact F1.
    destruct (updateParticipantState_found userId p1 negotiate m w2 Hc F2) as [A B].
    cbv zeta in A, B. split.
    + destruct (fst (_updateParticipantState env p1 negotiate m w2)); tauto.
    + intros H. apply B. apply (participants_wf_frame (write_participant p1 w)); auto.
  - split; [exact (verify_if_given_rejects _ _ _ Ev)|auto].
Qed.

Lemma lookup_push (ps : list ParticipantEntity) (userId : string) (p : ParticipantEntity) :
  getParticipantById_loop ps userId = None -> participant_id p = userId ->
  getParticipantById_loop (ps ++ [p]) userId = Some p.
Proof.
  intros Hn Hid. induction ps as [|a ps IH]; simpl in *.
  - now rewrite Hid, String.eqb_refl.
  - destruct (String.eqb (participant_id a) userId); [discriminate|auto].
Qed.

Lemma participants_wf_push (p : ParticipantEntity) (w : World) :
  ref p = nextRef w ->
  ~ In (participant_id p) (map participant_id (participants (this w))) ->
  participants_wf w -> participants_wf (participants_push p (next_ref w)).
Proof.
  intros Hr Hid (H1 & H2 & H3). unfold participants_wf, participants_push.
  destruct (participants_write_participants
              (participants (this (next_ref w)) ++ [p]) (next_ref w)) as [-> ->].
  simpl. rewrite !map_app. simpl. split; [|split].
  - apply NoDup_app; [exact H1|repeat constructor; auto|].
    intros a Ha [<-|[]]. apply in_map_iff in Ha as (q & Hq & Hin).
    rewrite Forall_forall in H3. specialize (H3 q Hin). lia.
  - apply NoDup_app; [exact H2|repeat constructor; auto|].
    intros a Ha [<-|[]]. contradiction.
  - apply Forall_app. split.
    + eapply Forall_impl; [|exact H3]. simpl. intros; lia.
    + constructor; [|constructor]. rewrite Hr. lia.
Qed.

Lemma addParticipant_found (userId : string) (negotiate : bool)
      (m : option CallMessageEntity) (w : World) :
  repository_contract env -> updateState_contract env ->
  getParticipantById_loop (participants (this w)) userId = None ->
  let r := _addParticipant env userId negotiate m w in
  match fst r with
  | Resolved p => found userId p (snd r)
  | Rejected e => True
  end
  /\ (participants_wf w -> participants_wf (snd r)).
Proof.
  intros Hrepo Hc Hn. cbv zeta. unfold _addParticipant.
  destruct (String.eqb userId (user_id (selfUser (this w)))); [cbn; auto|].
  destruct (get_user_by_id env (Some userId)) as [u|e] eqn:Eu; [|cbn; auto].
  apply Hrepo in Eu. injection Eu as Eu.
  set (p := new_ParticipantEntity (nextRef w) u).
  assert (Hid : participant_id p = userId) by (subst p; simpl; congruence).
  set (w3 := effect (Log "Adding call participant") (participants_push p (next_ref w))).
  assert (F3 : found userId p w3).
  { unfold found. subst w3. cbn [this effect]. unfold participants_push.
    destruct (participants_write_participants
                (participants (this (next_ref w)) ++ [p]) (next_ref w)) as [-> _].
    simpl. now apply lookup_push. }
  destruct (updateParticipantState_found userId p negotiate m w3 Hc F3) as [A B].
  cbv zeta in A, B. split.
  - destruct (fst (_updateParticipantState env p negotiate m w3)); tauto.
  - intros H. apply B. apply (participants_wf_frame (participants_push p (next_ref w)));
      [reflexivity|reflexivity|].
    apply participants_wf_push; [reflexivity| |exact H].
    rewrite Hid. intros Hin. apply in_map_iff in Hin as (q & Hq & Hin).
    exact (proj2 (lookup_none _ _) Hn q Hin Hq).
Qed.

Lemma addOrUpdateParticipant_found (userId : string) (negotiate : bool)
      (m : option CallMessageEntity) (w : World) :
  repository_contract env -> updateState_contract env ->
  let r := addOrUpdateParticipant env userId negotiate m w in
  match fst r with
  | Resolved p => found userId p (snd r)
  | Rejected e => True
  end
  /\ (participants_wf w -> participants_wf (snd r)).
Proof.
  intros Hrepo Hc. cbv zeta. unfold addOrUpdateParticipant, catch_, then_, getParticipantById.
  destruct (getParticipantById_loop (participants (this w)) userId) as [p|] eqn:El.
  - destruct (updateParticipant_found userId p negotiate m w Hc El) as [A B].
    cbv zeta in A, B.
    destruct (_updateParticipant env p negotiate m w) as [[p'|e] w'] eqn:Er;
      cbn [fst snd] in *; [auto|].
    rewrite A. cbn. auto.
  - cbn. apply (addParticipant_found userId negotiate m w Hrepo Hc El).
Qed.

(** X9: The participant [addOrUpdateParticipant] resolves with is the one
    [getParticipantById] finds for that user afterwards, it carries the
    user id, and it is among the participants of the call. *)
Theorem addOrUpdateParticipant_then_lookup (w : World) (userId : string)
        (negotiate : bool) (m : option CallMessageEntity) (p : ParticipantEntity) :
  repository_contract env -> updateState_contract env ->
  let r := addOrUpdateParticipant env userId negotiate m w in
  fst r = Resolved p ->
  getParticipantById userId (snd r) = (Resolved p, snd r)
  /\ participant_id p = userId
  /\ In p (participants (this (snd r))).
Proof.
  intros Hrepo Hc r Hres. subst r.
  destruct (addOrUpdateParticipant_found userId negotiate m w Hrepo Hc) as [A _].
  cbv zeta in A. rewrite Hres in A. unfold found in A.
  unfold getParticipantById. rewrite A. destruct (lookup_In _ _ _ A) as [Hin Hid].
  auto.
Qed.





Lemma fold_log_world (A : Type) (e : Effect) (l : list A) :
  forall w, this (fold_left (fun acc _ => effect e acc) l w) = this w
            /\ nextRef (fold_left (fun acc _ => effect e acc) l w) = nextRef w.
Proof.
  induction l as [|a l IH]; intros w; simpl; [auto|].
  destruct (IH (effect e w)) as [-> ->]. auto.
Qed.





(** *** Panning twice *)

Lemma sort_by_hash_sorted_id (l : list ParticipantEntity) :
  StronglySorted Panning.by_hash l -> sort_by_hash l = l.
Proof.
  induction l as [|a l IH]; intros H; [reflexivity|].
  inversion H as [|x xs Hs Hall]; subst.
  change (sort_by_hash (a :: l)) with (insert_by_hash a (sort_by_hash l)).
  rewrite (IH Hs).
  destruct l as [|q rest]; simpl; [reflexivity|].
  inversion Hall as [|y ys Hq _]; subst. unfold Panning.by_hash in Hq.
  destruct (Z.leb_spec (joaatHash (user a) - joaatHash (user q)) 0); [reflexivity|lia].
Qed.

Lemma assign_panning_twice (n : nat) (l : list ParticipantEntity) :
  forall k, assign_panning n k (assign_panning n k l) = assign_panning n k l.
Proof.
  induction l as [|p l IH]; intros k; simpl; [reflexivity|]. now rewrite IH.
Qed.

Lemma sortParticipantsByPanning_this (w : World) :
  (2 <= List.length (participants (this w)))%nat ->
  this (_sortParticipantsByPanning w)
  = set_participants
      (assign_panning (List.length (participants (this w))) 0
                      (sort_by_hash (participants (this w))))
      (this w).
Proof.
  intros Hn. unfold _sortParticipantsByPanning. cbv zeta.
  destruct (Nat.leb_spec 2 (List.length (participants (this w)))) as [_|Hlt]; [|lia].
  cbn [effect this upd].
  destruct (fold_log_world _ (Log "Panning recalculated")
              (sort_by_hash (participants (this w)))
              (upd (set_participants (sort_by_hash (participants (this w)))) w)) as [-> _].
  assert (Hlen : List.length (sort_by_hash (participants (this w)))
                 = List.length (participants (this w)))
    by (apply Permutation_length, sort_by_hash_perm).
  cbn [this upd]. destruct (this w); cbn in *. now rewrite Hlen.
Qed.

(** X11: [_sortParticipantsByPanning] is idempotent on the call: sorting and
    panning a second time changes neither the order nor any panning. *)
Theorem sortParticipantsByPanning_idempotent (w : World) :
  this (_sortParticipantsByPanning (_sortParticipantsByPanning w))
  = this (_sortParticipantsByPanning w).
Proof.
  destruct (Nat.leb_spec 2 (List.length (participants (this w)))) as [Hle|Hlt].
  - set (L := assign_panning (List.length (participants (this w))) 0
                             (sort_by_hash (participants (this w)))).
    assert (H1 : this (_sortParticipantsByPanning w) = set_participants L (this w))
      by (apply sortParticipantsByPanning_this, Hle).
    assert (HL : participants (this (_sortParticipantsByPanning w)) = L)
      by (rewrite H1; destruct (this w); reflexivity).
    assert (Hlen : List.length L = List.length (participants (this w))).
    { subst L. rewrite assign_panning_length. apply Permutation_length, sort_by_hash_perm. }
    assert (Hs : StronglySorted Panning.by_hash L).
    { subst L. apply sorted_by_key. rewrite assign_panning_keys. apply sorted_by_key.
      apply sort_by_hash_sorted. }
    rewrite sortParticipantsByPanning_this by (rewrite HL, Hlen; exact Hle).
    rewrite HL, Hlen, (sort_by_hash_sorted_id L Hs). unfold L at 1.
    rewrite assign_panning_twice. fold L. rewrite H1. destruct (this w); reflexivity.
  - assert (E : _sortParticipantsByPanning w = w).
    { unfold _sortParticipantsByPanning. cbv zeta.
      destruct (Nat.leb_spec 2 (List.length (participants (this w)))); [lia|reflexivity]. }
    now rewrite !E.
Qed.


(** *** Fields that a method does not write *)

Lemma clearGroupCheck_this (w : World) :
  this (_clearGroupCheckTimeout w) = set_groupCheckTimeoutId None (this w).
Proof.
  unfold _clearGroupCheckTimeout.
  destruct (groupCheckTimeoutId (this w)) eqn:E; simpl.
  - destruct (this w); reflexivity.
  - destruct (this w); simpl in *. now subst.
Qed.

Lemma scheduleGroupCheck_this (w : World) :
  exists tid, this (scheduleGroupCheck env w) = set_groupCheckTimeoutId (Some tid) (this w).
Proof.
  unfold scheduleGroupCheck. cbv zeta.
  pose proof (clearGroupCheck_this w) as H.
  destruct (isConnected (this (_clearGroupCheckTimeout w)));
    unfold _setSendGroupCheckTimeout, _setVerifyGroupCheckTimeout, window_setTimer;
    cbn; rewrite H; eexists; destruct (this w); reflexivity.
Qed.


Ltac fields :=
  intros;
  repeat match goal with
         | H : _ /\ _ |- _ => destruct H
         end;
  cbn in *;
  repeat match goal with
         | |- context [this (scheduleGroupCheck ?e ?w)] =>
             let t := fresh "t" in
             let E := fresh "E" in
             destruct (scheduleGroupCheck_this w) as [t E]; rewrite E; clear E; cbn
         | |- context [this (_clearGroupCheckTimeout ?w)] =>
             rewrite (clearGroupCheck_this w); cbn
         end;
  repeat match goal with
         | |- context [this ?w] => destruct (this w); cbn in *
         end;
  auto.

Lemma write_isConnected_value (v : bool) (w : World) :
  isConnected (this (write_isConnected env v w)) = v.
Proof.
  unfold write_isConnected.
  destruct (Bool.eqb (isConnected (this w)) v) eqn:E; [now apply eqb_prop|].
  cbv zeta. rewrite this_notify_networkInterruption.
  destruct v; [|fields].
  destruct (isGroup (this (upd (set_wasConnected true) (upd (set_isConnected true) w))));
    fields.
Qed.

Lemma write_selfClientJoined_value (v : bool) (w : World) :
  selfClientJoined (this (write_selfClientJoined env v w)) = v.
Proof.
  unfold write_selfClientJoined.
  destruct (Bool.eqb (selfClientJoined (this w)) v) eqn:E; [now apply eqb_prop|].
  cbv zeta.
  assert (H2 : selfClientJoined
                 (this (notify_numberOfParticipants (numberOfParticipants (this w))
                          (upd (set_selfClientJoined v) w))) = v)
    by (rewrite this_notify_numberOfParticipants; fields).
  set (w2 := notify_numberOfParticipants _ _) in *.
  destruct (negb v); [|exact H2].
  apply (P_resetFlows (fun w' => selfClientJoined (this w') = v)); [fields|].
  apply (P_resetTimer (fun w' => selfClientJoined (this w') = v)); [fields|].
  assert (H3 : selfClientJoined (this (write_isConnected env false w2)) = v)
    by (apply (P_write_isConnected env (fun w' => selfClientJoined (this w') = v));
        try (fields; fail); exact H2).
  set (w3 := write_isConnected env false w2) in *.
  destruct (isOngoing (this w3) || isDisconnecting (this w3));
    destruct (JS.defined (terminationReason _)); fields.
Qed.

Lemma setSelfState_fields (joinedState : bool)
        (reason : option TERMINATION_REASON.t) (w : World) :
  let w' := setSelfState env joinedState reason w in
  terminationReason (this w')
  = match terminationReason (this w) with
    | Some first => Some first
    | None => reason
    end
  /\ selfClientJoined (this w') = joinedState
  /\ selfUserJoined (this w') = joinedState
  /\ state (this w') = state (this w)
  /\ participants (this w') = participants (this w).
Proof.
  cbv zeta. unfold setSelfState. cbv zeta.
  set (w1 := if JS.defined reason && negb (JS.defined (terminationReason (this w)))
             then upd (set_terminationReason reason) w else w).
  assert (H1 : terminationReason (this w1)
               = match terminationReason (this w) with
                 | Some first => Some first
                 | None => reason
                 end
               /\ state (this w1) = state (this w)
               /\ participants (this w1) = participants (this w)).
  { subst w1. destruct reason as [r|]; destruct (terminationReason (this w)) eqn:E;
      simpl; rewrite ?E; repeat split; auto; destruct (this w); simpl in *; auto. }
  clearbody w1.
  pose proof (write_selfClientJoined_value joinedState w1) as Hv.
  assert (H2 : terminationReason (this (write_selfClientJoined env joinedState w1))
               = match terminationReason (this w) with
                 | Some first => Some first
                 | None => reason
                 end
               /\ state (this (write_selfClientJoined env joinedState w1)) = state (this w)
               /\ participants (this (write_selfClientJoined env joinedState w1))
                  = participants (this w)).
  { apply (P_write_selfClientJoined env
             (fun w' => terminationReason (this w')
                        = match terminationReason (this w) with
                          | Some first => Some first
                          | None => reason
                          end
                        /\ state (this w') = state (this w)
                        /\ participants (this w') = participants (this w)));
      try (fields; fail); try exact H1. }
  set (w2 := write_selfClientJoined env joinedState w1) in *.
  destruct H2 as (A & B & C). cbn [this upd].
  destruct (this w2); simpl in *. auto.
Qed.


(** X12: [setSelfState] sets both joined flags to the given value and records
    the termination reason only when none was recorded before; the state
    and the participants of the call are not touched. *)
Theorem setSelfState_keeps_first_reason (joinedState : bool)
        (reason : option TERMINATION_REASON.t) (w : World) :
  let w' := setSelfState env joinedState reason w in
  terminationReason (this w')
  = match terminationReason (this w) with
    | Some first => Some first
    | None => reason
    end
  /\ selfClientJoined (this w') = joinedState
  /\ selfUserJoined (this w') = joinedState
  /\ state (this w') = state (this w)
  /\ participants (this w') = participants (this w).
Proof. exact (setSelfState_fields joinedState reason w). Qed.

(** X13: After [deleteCall] the call is ENDED, the self user is not joined, the
    call is not connected, the session id and the termination reason are
    cleared and no media stream is needed; the participants are kept. *)
Theorem deleteCall_resets (w : World) :
  let w' := deleteCall env w in
  state (this w') = CALL_STATE.ENDED
  /\ selfClientJoined (this w') = false
  /\ selfUserJoined (this w') = false
  /\ isConnected (this w') = false
  /\ sessionId (this w') = None
  /\ terminationReason (this w') = None
  /\ needsMediaStream (this w') = false
  /\ participants (this w') = participants (this w).
Proof.
  cbv zeta. unfold deleteCall. cbv zeta.
  pose proof (write_state_state env CALL_STATE.ENDED w) as S1.
  assert (P1 : participants (this (write_state env CALL_STATE.ENDED w))
               = participants (this w)).
  { apply (P_write_state env (fun w' => participants (this w') = participants (this w)));
      try (fields; fail); reflexivity. }
  set (w1 := write_state env CALL_STATE.ENDED w) in *.
  destruct (setSelfState_fields false None w1) as (_ & J2 & U2 & S2 & P2).
  cbv zeta in J2, U2, S2, P2.
  set (w2 := setSelfState env false None w1) in *.
  pose proof (write_isConnected_value false w2) as C3.
  assert (K3 : state (this (write_isConnected env false w2)) = CALL_STATE.ENDED
               /\ selfClientJoined (this (write_isConnected env false w2)) = false
               /\ selfUserJoined (this (write_isConnected env false w2)) = false
               /\ participants (this (write_isConnected env false w2))
                  = participants (this w)).
  { apply (P_write_isConnected env
             (fun w' => state (this w') = CALL_STATE.ENDED
                        /\ selfClientJoined (this w') = false
                        /\ selfUserJoined (this w') = false
                        /\ participants (this w') = participants (this w)));
      try (fields; fail).
    repeat split; congruence. }
  set (w3 := write_isConnected env false w2) in *.
  destruct K3 as (S3 & J3 & U3 & P3).
  cbn [this upd effect]. unfold needsMediaStream, isIncoming, isOngoingOnAnotherClient.
  destruct (this w3); simpl in *. subst. repeat split; reflexivity.
Qed.

(** *** Timers that were cleared or have fired *)

Section Retired.

Variable tid : positive.









End Retired.

Lemma find_timer (ts : list Timer) (t : Timer) :
  NoDup (map timer_id ts) -> In t ts ->
  find (fun x => Pos.eqb (timer_id x) (timer_id t)) ts = Some t.
Proof.
  induction ts as [|a ts IH]; simpl; intros Hnd Hin; [destruct Hin|].
  inversion Hnd as [|x xs Hnotin Hnd']; subst.
  destruct Hin as [->|Hin]; [now rewrite Pos.eqb_refl|].
  destruct (Pos.eqb_spec (timer_id a) (timer_id t)) as [E|_]; [|auto].
  exfalso. apply Hnotin. rewrite E. now apply in_map.
Qed.







(** *** Leaving the call *)

Lemma send_fold_facts (selfId : string) (flows : list ParticipantEntity) :
  forall m ok acc,
    let out :=
      fold_left
        (fun '(m, ok, acc) p =>
           let m' := msg_addPayload selfId (Some (participant_id p)) (clientId p) m in
           (m', ok && message_delivered env (effects acc) m', sendCallMessage m' acc))
        flows (m, ok, acc) in
    this (snd out) = this acc
    /\ timers (snd out) = timers acc
    /\ nextTimerId (snd out) = nextTimerId acc
    /\ (exists es, effects (snd out) = effects acc ++ es)
    /\ (delivery_contract env \/ flows = [] -> snd (fst out) = ok).
Proof.
  induction flows as [|p flows IH]; intros m ok acc; cbv zeta; cbn [fold_left].
  - cbn. repeat split; auto. exists []. now rewrite app_nil_r.
  - specialize (IH (msg_addPayload selfId (Some (participant_id p)) (clientId p) m)
                   (ok && message_delivered env (effects acc)
                            (msg_addPayload selfId (Some (participant_id p)) (clientId p) m))
                   (sendCallMessage
                      (msg_addPayload selfId (Some (participant_id p)) (clientId p) m) acc)).
    cbv zeta in IH. destruct IH as (A & B & C & (es & D) & E).
    rewrite A, B, C, D. cbn. repeat split; auto.
    + eexists. rewrite <- app_assoc. reflexivity.
    + intros [Hd|Hnil]; [|discriminate].
      rewrite E by (left; exact Hd). rewrite Hd. apply andb_true_r.
Qed.

Lemma resetParticipant_length (userId : string) (w : World) :
  List.length (participants (this (snd (resetParticipant env userId w))))
  = List.length (participants (this w)).
Proof.
  unfold resetParticipant, then_, getParticipantById.
  destruct (getParticipantById_loop (participants (this w)) userId) as [p|]; [|reflexivity].
  cbn [fst snd this effect].
  set (p1 := same_object p (participant_resetParticipant env p)).
  destruct (participants_updateRemoteState
              (interruptedParticipants_remove p1 (write_participant p1 w))) as (-> & _).
  destruct (participants_interrupted_remove p1 (write_participant p1 w)) as [-> _].
  destruct (participants_write_participant p1 w) as [-> _].
  apply length_map.
Qed.

Lemma reset_fold_length (l : list ParticipantEntity) :
  forall w,
    List.length
      (participants
         (this (fold_left (fun acc p => snd (resetParticipant env (participant_id p) acc))
                          l w)))
    = List.length (participants (this w)).
Proof.
  induction l as [|p l IH]; intros w; simpl; [reflexivity|].
  rewrite IH. apply resetParticipant_length.
Qed.


Lemma shouldDeleteCall_length (w w' : World) (fromSelf : bool)
      (reason : option TERMINATION_REASON.t) :
  List.length (participants (this w')) = List.length (participants (this w)) ->
  shouldDeleteCall w' fromSelf reason = shouldDeleteCall w fromSelf reason.
Proof. unfold shouldDeleteCall. now intros ->. Qed.

Lemma leaveCall_facts (reason : option TERMINATION_REASON.t) (w : World) :
  delivery_contract env \/ getFlows (this w) = [] ->
  let w' := leaveCall env reason w in
  selfClientJoined (this w') = false
  /\ selfUserJoined (this w') = false
  /\ List.length (participants (this w')) = List.length (participants (this w))
  /\ (if shouldDeleteCall w true reason
      then In (RepositoryDeleteCall (id (this w))) (effects w')
           /\ terminationReason (this w') = Some (reason_or_default reason)
           /\ groupCheckTimeoutId (this w') = None
      else state (this w') = CALL_STATE.REJECTED).
Proof.
  intros Hd w'.
  assert (Hid : id (this w') = id (this w)).
  { subst w'. apply (P_leaveCall env (fun w0 => id (this w0) = id (this w)) (fun _ => True));
      try (fields; fail); try reflexivity.
    all: try solve [intros; apply Forall_forall; auto].
    all: auto. }
  revert Hid. subst w'. unfold leaveCall. cbv zeta.
  set (w1 := if isOngoing (this w) && negb (isGroup (this w))
             then write_state env CALL_STATE.DISCONNECTING w else w).
  assert (F1 : participants (this w1) = participants (this w)).
  { subst w1. destruct (isOngoing (this w) && negb (isGroup (this w))); [|reflexivity].
    apply (P_write_state env (fun w0 => participants (this w0) = participants (this w)));
      try (fields; fail); reflexivity. }
  set (m0 := if isConnected (this w1)
             then buildMessage CALL_MESSAGE_TYPE.HANGUP false (sessionId (this w1))
             else buildMessage CALL_MESSAGE_TYPE.CANCEL false (sessionId (this w1))).
  pose proof (send_fold_facts (user_id (selfUser (this w1))) (getFlows (this w1))
                              m0 true w1) as SF.
  cbv zeta in SF.
  match type of SF with
  | context [fold_left ?f ?l ?a] => set (out := fold_left f l a) in *
  end.
  destruct out as [[m1 ok] w2]. cbn [fst snd] in SF.
  destruct SF as (T2 & _ & _ & _ & Hok).
  assert (Hok' : ok = true).
  { apply Hok. destruct Hd as [Hd|Hd]; [now left|right].
    unfold getFlows in *. now rewrite F1. }
  subst ok.
  set (w3 := fold_left (fun acc p => snd (resetParticipant env (participant_id p) acc))
                       (participants (this w2)) w2).
  assert (L3 : List.length (participants (this w3)) = List.length (participants (this w))).
  { subst w3. rewrite reset_fold_length, T2, F1. reflexivity. }
  set (mw := if isGroup (this w3)
             then (msg_addPayload (user_id (selfUser (this w1))) None None
                     (buildMessage CALL_MESSAGE_TYPE.GROUP_LEAVE false (sessionId (this w3))),
                   sendCallMessage
                     (msg_addPayload (user_id (selfUser (this w1))) None None
                        (buildMessage CALL_MESSAGE_TYPE.GROUP_LEAVE false
                                      (sessionId (this w3)))) w3)
             else (msg_addPayload (user_id (selfUser (this w1))) None None m1, w3)).
  assert (L4 : List.length (participants (this (snd mw)))
               = List.length (participants (this w))).
  { subst mw. destruct (isGroup (this w3)); exact L3. }
  destruct mw as [m2 w4]. cbn [snd] in L4.
  destruct (setSelfState_fields false reason w4) as (_ & J5 & U5 & _ & P5).
  cbv zeta in J5, U5, P5.
  set (w5 := setSelfState env false reason w4) in *.
  assert (L5 : List.length (participants (this w5)) = List.length (participants (this w)))
    by (rewrite P5; exact L4).
  rewrite <- (shouldDeleteCall_length w w5 true reason L5).
  assert (K6 : selfClientJoined (this (snd (deactivateCall env m2 true reason w5))) = false
               /\ selfUserJoined (this (snd (deactivateCall env m2 true reason w5))) = false
               /\ List.length (participants
                                 (this (snd (deactivateCall env m2 true reason w5))))
                  = List.length (participants (this w))
               /\ id (this (snd (deactivateCall env m2 true reason w5))) = id (this w5)).
  { apply (P_deactivateCall env
             (fun w0 => selfClientJoined (this w0) = false
                        /\ selfUserJoined (this w0) = false
                        /\ List.length (participants (this w0))
                           = List.length (participants (this w))
                        /\ id (this w0) = id (this w5)));
      try (fields; fail); auto. }
  destruct (shouldDeleteCall w5 true reason) eqn:Es.
  - destruct (deactivateCall_deleting_facts env w5 m2 true reason Es)
      as (R & TR & _ & _ & _ & G & _).
    pose proof (deactivateCall_deleting_effects env w5 m2 true reason Es) as He.
    cbv zeta in R, TR, G.
    destruct (deactivateCall env m2 true reason w5) as [res w6].
    cbn [fst snd] in *. subst res. cbn [negb].
    destruct K6 as (A & B & C & D). intros Hid.
    repeat split; auto.
    rewrite He, <- Hid, D. apply in_or_app. right.
    apply in_or_app. right. apply in_or_app. right. apply in_or_app. right.
    right. now left.
  - pose proof (deactivateCall_keeping env w5 m2 true reason Es) as R.
    destruct (deactivateCall env m2 true reason w5) as [res w6].
    cbn [fst snd] in *. injection R as -> _. cbn [negb].
    destruct K6 as (A & B & C & D). intros _.
    split; [|split; [|split]].
    + apply (P_write_state env (fun w0 => selfClientJoined (this w0) = false));
        try (fields; fail); try exact A.
    + apply (P_write_state env (fun w0 => selfUserJoined (this w0) = false));
        try (fields; fail); try exact B.
    + apply (P_write_state env
               (fun w0 => List.length (participants (this w0))
                          = List.length (participants (this w))));
        try (fields; fail); try exact C.
    + apply write_state_state.
Qed.



(** X16: [participantLeft] does nothing while participants remain; when none
    remains the call is deleted and holds no group-check timer, whether the
    self user had joined (it leaves) or not (it deactivates). *)
Theorem participantLeft_last_participant (m : CallMessageEntity)
        (reason : option TERMINATION_REASON.t) (w : World) :
  let w' := participantLeft env m reason w in
  (participants (this w) = [] ->
   In (RepositoryDeleteCall (id (this w))) (effects w')
   /\ terminationReason (this w') = Some (reason_or_default reason)
   /\ groupCheckTimeoutId (this w') = None)
  /\ (participants (this w) <> [] -> w' = w).
Proof.
  cbv zeta. unfold participantLeft. rewrite truthy_length. split.
  - intros E. rewrite E. cbn [negb].
    destruct (selfClientJoined (this w)).
    + assert (Hf : delivery_contract env \/ getFlows (this w) = [])
        by (right; unfold getFlows; now rewrite E).
      destruct (leaveCall_facts reason w Hf) as (_ & _ & _ & H). cbv zeta in H.
      unfold shouldDeleteCall in H. rewrite E in H. exact H.
    + assert (Es : shouldDeleteCall w false reason = true)
        by (unfold shouldDeleteCall; now rewrite E).
      destruct (deactivateCall_deleting_facts env w m false reason Es)
        as (_ & TR & _ & _ & _ & G & _).
      pose proof (deactivateCall_deleting_effects env w m false reason Es) as He.
      cbv zeta in TR, G. split; [|split; assumption].
      rewrite He. apply in_or_app. right.
      apply in_or_app. right. apply in_or_app. right. apply in_or_app. right.
      right. now left.
  - intros Hne. destruct (participants (this w)); [contradiction|reflexivity].
Qed.


(** *** The group-check timers fire *)

Lemma fire_group_check (t : Timer) (w : World) :
  heartbeat_invariant w -> In t (timers w) -> is_group_check t = true ->
  fire env (timer_id t) w = run_callback env (callback t) (window_clearTimer (timer_id t) w)
  /\ heartbeat_invariant (window_clearTimer (timer_id t) w)
  /\ active_group_checks (window_clearTimer (timer_id t) w) = [].
Proof.
  intros Hinv Hin Hgc. pose proof Hinv as ((Hnd & Hlt) & Htr & Hh).
  split; [|split].
  - unfold fire. rewrite (find_timer _ _ Hnd Hin).
    unfold is_group_check in Hgc. destruct (callback t); try discriminate; reflexivity.
  - apply hb_clearTimer, Hinv.
  - unfold active_group_checks. simpl.
    destruct (filter is_group_check
                (filter (fun x => negb (Pos.eqb (timer_id x) (timer_id t))) (timers w)))
      as [|x l] eqn:E; [reflexivity|].
    assert (Hx : In x (filter is_group_check
                         (filter (fun x => negb (Pos.eqb (timer_id x) (timer_id t)))
                                 (timers w)))) by (rewrite E; now left).
    apply filter_In in Hx as [Hx Hgx]. apply filter_In in Hx as [Hx Hne].
    apply (Htr x Hx) in Hgx. apply (Htr t Hin) in Hgc.
    assert (timer_id x = timer_id t) by congruence.
    rewrite H, Pos.eqb_refl in Hne. discriminate.
Qed.

Lemma filter_none (A : Type) (f : A -> bool) (l : list A) :
  (forall x, In x l -> f x = false) -> filter f l = [].
Proof.
  induction l as [|a l IH]; simpl; intros H; [reflexivity|].
  rewrite (H a) by now left. apply IH. intros x Hx. apply H. now right.
Qed.

Lemma active_none_filter (f : Timer -> bool) (w w' : World) :
  timers w' = filter f (timers w) -> active_group_checks w = [] ->
  active_group_checks w' = [].
Proof.
  unfold active_group_checks. intros -> H. apply filter_none. intros x Hx.
  apply filter_In in Hx as [Hx _]. destruct (is_group_check x) eqn:E; [|reflexivity].
  assert (Hin : In x (filter is_group_check (timers w))) by (apply filter_In; auto).
  rewrite H in Hin. destruct Hin.
Qed.

(** X17: When the timeout that verifies the group check fires, the call is
    deleted exactly once, exactly one deactivation event is injected (a
    GROUP_LEAVE in the name of the creator, MISSED unless the call was
    connected), the media stream is not reset, the termination reason is
    GROUP_CHECK and no group-check timer remains. *)
Theorem verify_timeout_deletes_call (t : Timer) (w : World) :
  heartbeat_invariant w -> In t (timers w) -> callback t = VerifyGroupCheckTimeout ->
  let w' := fire env (timer_id t) w in
  filter is_deletion (emitted_since w w') = [RepositoryDeleteCall (id (this w))]
  /\ (exists m,
         filter is_deactivation_event (emitted_since w w')
         = [InjectDeactivateEvent m INJECTED
              (if wasConnected (this w) then TERMINATION_REASON.COMPLETED
               else TERMINATION_REASON.MISSED)]
         /\ msg_type m = CALL_MESSAGE_TYPE.GROUP_LEAVE
         /\ msg_userId m = Some (user_id (creatingUser (this w))))
  /\ filter is_media_reset (emitted_since w w') = []
  /\ terminationReason (this w') = Some TERMINATION_REASON.GROUP_CHECK
  /\ groupCheckTimeoutId (this w') = None
  /\ active_group_checks w' = [].
Proof.
  intros Hinv Hin Hcb w'.
  assert (Hgc : is_group_check t = true) by (unfold is_group_check; now rewrite Hcb).
  destruct (fire_group_check t w Hinv Hin Hgc) as (Hfire & _ & Hnone).
  subst w'. rewrite Hfire, Hcb. cbn [run_callback]. unfold _onVerifyGroupCheckTimeout.
  cbv zeta.
  set (w0 := window_clearTimer (timer_id t) w) in *.
  set (w1 := effect (Log "Removing on group check timeout") w0).
  set (m := msg_addPayload (user_id (selfUser (this w1)))
              (Some (user_id (creatingUser (this w1)))) None
              (buildMessage CALL_MESSAGE_TYPE.GROUP_LEAVE false (sessionId (this w1)))).
  assert (Es : shouldDeleteCall w1 false (Some TERMINATION_REASON.GROUP_CHECK) = true)
    by (unfold shouldDeleteCall; apply orb_true_r).
  destruct (deactivateCall_deleting_facts env w1 m false _ Es)
    as (_ & TR & _ & _ & _ & G & Htm & _).
  pose proof (deactivateCall_deleting_effects env w1 m false _ Es) as He.
  cbv zeta in TR, G, Htm.
  set (w6 := snd (deactivateCall env m false (Some TERMINATION_REASON.GROUP_CHECK) w1)) in *.
  assert (Hem : effects w6 = effects w ++ [Log "Removing on group check timeout"]
                  ++ (map (fun p => FlowClearTimeouts (ref p)) (getFlows (this w1))
                      ++ (if JS.defined (groupCheckTimeoutId (this w1))
                          then [Log "Clear group check timeout"] else [])
                      ++ (if onGroupCheck (Some TERMINATION_REASON.GROUP_CHECK)
                             && negb (JS.truthy (everyoneLeft w1 false))
                          then [Log "Deactivation on group check with remaining users"]
                          else [])
                      ++ [deactivation_event w1 m (Some TERMINATION_REASON.GROUP_CHECK);
                          RepositoryDeleteCall (id (this w1))])).
  { rewrite He. subst w1 w0. cbn [effects effect window_clearTimer with_timers].
    rewrite <- !app_assoc. reflexivity. }
  apply emitted_since_app in Hem. rewrite Hem. clear Hem He.
  rewrite !filter_app, !filter_flow_clear by reflexivity.
  split; [|split; [|split; [|split; [|split]]]].
  - destruct (JS.defined _); destruct (_ && _); reflexivity.
  - exists (msg_set_userId (user_id (creatingUser (this w1))) m).
    split; [|split; reflexivity].
    destruct (JS.defined _); destruct (_ && _); reflexivity.
  - destruct (JS.defined _); destruct (_ && _); reflexivity.
  - exact TR.
  - exact G.
  - apply (active_none_filter (not_cleared (this w1)) w0); [exact Htm|exact Hnone].
Qed.

Lemma scheduleGroupCheck_effects (w : World) :
  exists es, effects (scheduleGroupCheck env w) = effects w ++ es.
Proof.
  unfold scheduleGroupCheck, _clearGroupCheckTimeout. cbv zeta.
  destruct (groupCheckTimeoutId (this w)); cbn;
    match goal with
    | |- context [if ?b then _ else _] => destruct b
    end;
    unfold _setSendGroupCheckTimeout, _setVerifyGroupCheckTimeout, window_setTimer; cbn;
    eexists; rewrite <- ?app_assoc; reflexivity.
Qed.

(** X18: When the timeout that sends the group check fires while participants
    remain, a GROUP_CHECK message with the session id of the call is sent
    and exactly one new group-check timer (a fresh id, held by the call) is
    scheduled; the participants are unchanged and the heartbeat invariant
    holds again. *)
Theorem send_timeout_continues_heartbeat (t : Timer) (k : Z) (w : World) :
  heartbeat_invariant w -> In t (timers w) -> callback t = SendGroupCheckTimeout k ->
  participants (this w) <> [] ->
  let w' := fire env (timer_id t) w in
  active_group_checks w' = [scheduled_timer env w]
  /\ groupCheckTimeoutId (this w') = Some (nextTimerId w)
  /\ ~ In (nextTimerId w) (map timer_id (timers w))
  /\ (exists m, In (SendCallMessage m) (emitted_since w w')
                /\ msg_type m = CALL_MESSAGE_TYPE.GROUP_CHECK
                /\ msg_response m = true
                /\ msg_sessionId m = sessionId (this w))
  /\ participants (this w') = participants (this w)
  /\ heartbeat_invariant w'.
Proof.
  intros Hinv Hin Hcb Hps w'.
  assert (Hgc : is_group_check t = true) by (unfold is_group_check; now rewrite Hcb).
  destruct (fire_group_check t w Hinv Hin Hgc) as (Hfire & Hinv0 & Hnone).
  subst w'. rewrite Hfire, Hcb. cbn [run_callback]. unfold _onSendGroupCheckTimeout.
  set (w0 := window_clearTimer (timer_id t) w) in *.
  assert (P0 : participants (this w0) = participants (this w)) by reflexivity.
  rewrite truthy_length, P0.
  destruct (participants (this w)) as [|p0 ps0] eqn:Ep; [contradiction|].
  cbv zeta.
  set (w1 := effect (Log "Sending group check after timeout") w0).
  set (m := msg_addPayload (user_id (selfUser (this w1))) None None
              (buildMessage CALL_MESSAGE_TYPE.GROUP_CHECK true (sessionId (this w1)))).
  set (w2 := sendCallMessage m w1).
  assert (Hinv2 : heartbeat_invariant w2) by (apply hb_effect, hb_effect, Hinv0).
  destruct (scheduleGroupCheck_world env w2 Hinv2) as (Hthis & Htm & Hnext).
  assert (Hsched : scheduled_timer env w2 = scheduled_timer env w) by reflexivity.
  split; [|split; [|split; [|split; [|split]]]].
  - unfold active_group_checks in *. rewrite Htm, filter_app, filter_negb_none.
    cbn [filter app]. rewrite scheduled_timer_is_group_check, Hsched. reflexivity.
  - rewrite Hthis. destruct (this w2); reflexivity.
  - destruct Hinv as ((_ & Hlt) & _). apply ids_below, Hlt.
  - exists m. split; [|repeat split; reflexivity].
    destruct (scheduleGroupCheck_effects w2) as [es Hes].
    assert (Hem : effects (scheduleGroupCheck env w2)
                  = effects w ++ ([Log "Sending group check after timeout";
                                   SendCallMessage m] ++ es)).
    { rewrite Hes. subst w2 w1 w0. unfold sendCallMessage.
      cbn [effects effect window_clearTimer with_timers].
      rewrite <- !app_assoc. reflexivity. }
    apply emitted_since_app in Hem. rewrite Hem. right. now left.
  - rewrite Hthis, <- P0. subst w2 w1. cbn [this sendCallMessage effect].
    destruct (this w0); reflexivity.
  - apply hb_scheduleGroupCheck, Hinv2.
Qed.


(** *** The ring tone *)


(** X19: A change of the call state starts the ring tone in a loop and a state
    timeout exactly when the new state is unanswered (INCOMING, OUTGOING)
    and not an incoming call while the self user is away; it stops the ring
    tone of the previous state when the call leaves the unanswered states,
    and the state timeout held before is cleared. *)
Theorem ring_tone_follows_state (v : CALL_STATE.t) (w : World) :
  state (this w) <> v ->
  let w' := write_state env v w in
  let isIncomingCall := CALL_STATE.eqb v CALL_STATE.INCOMING in
  let rings :=
    negb (CALL_STATE.eqb v CALL_STATE.UNKNOWN)
    && CALL_STATE.includes (UNANSWERED env) v
    && negb (isIncomingCall && selfUserIsAway (this w)) in
  state (this w') = v
  /\ previousState (this w') = Some v
  /\ (if rings
      then In (AudioPlayInLoop (ringTone isIncomingCall)) (emitted_since w w')
           /\ stateTimeout (this w') = Some (nextTimerId w)
           /\ In {| timer_id := nextTimerId w;
                    callback := StateTimeout isIncomingCall;
                    delay := CONFIG.STATE_TIMEOUT env |} (timers w')
      else stateTimeout (this w') = None
           /\ forall a, ~ In (AudioPlayInLoop a) (emitted_since w w'))
  /\ (forall s,
         previousState (this w) = Some s ->
         CALL_STATE.includes (UNANSWERED env) s = true ->
         CALL_STATE.includes (UNANSWERED env) v = false ->
         v <> CALL_STATE.UNKNOWN ->
         In (AudioStop (ringTone (CALL_STATE.eqb s CALL_STATE.INCOMING)))
            (emitted_since w w'))
  /\ (forall tid,
         stateTimeout (this w) = Some tid -> (tid < nextTimerId w)%positive ->
         ~ In tid (map timer_id (timers w'))).
Proof.
  intros Hne. cbv zeta.
  split; [apply write_state_state|].
  unfold write_state.
  destruct (CALL_STATE.eqb (state (this w)) v) eqn:E;
    [apply CALL_STATE_eqb_eq in E; contradiction|].
  cbv zeta. unfold state_subscriber. cbv zeta.
  set (w2 := if isDeclined (this (upd (set_state v) w))
             then _stopRingTone true (upd (set_state v) w) else upd (set_state v) w).
  assert (H2 : this w2 = set_state v (this w) /\ timers w2 = timers w
               /\ nextTimerId w2 = nextTimerId w
               /\ exists es, effects w2 = effects w ++ es
                             /\ forall a, ~ In (AudioPlayInLoop a) es).
  { subst w2. destruct (isDeclined _); cbn; repeat split; eauto.
    - eexists. split; [reflexivity|]. intros a [C|[]]. discriminate.
    - exists []. split; [now rewrite app_nil_r|]. intros a []. }
  destruct H2 as (T2 & M2 & N2 & es2 & E2 & A2).
  set (w3 := _clearStateTimeout (effect (Log "Call state changed") w2)).
  assert (H3 : this w3 = set_stateTimeout None (set_state v (this w))
               /\ timers w3
                  = match stateTimeout (this w) with
                    | Some tid => filter (fun t => negb (Pos.eqb (timer_id t) tid)) (timers w)
                    | None => timers w
                    end
               /\ nextTimerId w3 = nextTimerId w
               /\ effects w3 = effects w ++ es2 ++ [Log "Call state changed"]).
  { subst w3. unfold _clearStateTimeout. cbn [this effect]. rewrite T2.
    destruct (stateTimeout (this w)) eqn:Et.
    - assert (Hs : stateTimeout (set_state v (this w)) = Some p)
        by (destruct (this w); exact Et).
      rewrite Hs. cbn. rewrite T2, M2, N2, E2, <- app_assoc.
      repeat split; destruct (this w); reflexivity.
    - assert (Hs : stateTimeout (set_state v (this w)) = None)
        by (destruct (this w); exact Et).
      rewrite Hs. cbn. rewrite T2, M2, N2, E2, <- app_assoc.
      repeat split. destruct (this w); simpl in *. now subst. }
  destruct H3 as (T3 & M3 & N3 & E3).
  assert (Hold : forall tid,
             stateTimeout (this w) = Some tid -> ~ In tid (map timer_id (timers w3))).
  { intros tid Ht C. rewrite M3, Ht in C. apply in_map_iff in C as (x & Hx & Hin).
    apply filter_In in Hin as [_ Hn]. rewrite Hx, Pos.eqb_refl in Hn. discriminate. }
  assert (Haway : selfUserIsAway (this w3) = selfUserIsAway (this w))
    by (rewrite T3; destruct (this w); reflexivity).
  assert (Hprev : previousState (this w3) = previousState (this w))
    by (rewrite T3; destruct (this w); reflexivity).
  fold w3. rewrite Haway.
  destruct (CALL_STATE.eqb v CALL_STATE.UNKNOWN) eqn:Eu; cbn [negb andb].
  - (* the state UNKNOWN *)
    apply CALL_STATE_eqb_eq in Eu. subst v. cbn [CALL_STATE.eqb].
    cbn [this upd]. split; [destruct (this w3); reflexivity|].
    split; [|split].
    + split; [rewrite T3; destruct (this w); reflexivity|].
      intros a C. unfold emitted_since in C. cbn [effects upd] in C.
      rewrite E3, skipn_app, skipn_all, Nat.sub_diag in C. cbn [skipn app] in C.
      apply in_app_or in C as [C|[C|[]]]; [exact (A2 a C)|discriminate].
    + intros s _ _ _ C. contradiction.
    + intros tid Ht _. cbn [timers upd]. now apply Hold.
  - destruct (CALL_STATE.includes (UNANSWERED env) v) eqn:Ein; cbn [andb].
    + destruct (CALL_STATE.eqb v CALL_STATE.INCOMING && selfUserIsAway (this w)) eqn:Ea;
        cbn [negb].
      * (* an incoming call while the user is away: no sound *)
        set (w4 := if CALL_STATE.eqb v CALL_STATE.CONNECTING
                   then effect TelemetryJoinedCall w3 else w3).
        assert (H4 : this w4 = this w3 /\ timers w4 = timers w3
                     /\ exists es, effects w4 = effects w3 ++ es
                                   /\ forall a, ~ In (AudioPlayInLoop a) es).
        { subst w4. destruct (CALL_STATE.eqb v CALL_STATE.CONNECTING); cbn;
            repeat split.
          - eexists. split; [reflexivity|]. intros a [C|[]]. discriminate.
          - exists []. split; [now rewrite app_nil_r|]. intros a []. }
        destruct H4 as (T4 & M4 & es4 & E4 & A4).
        cbn [this upd timers]. rewrite T4, M4.
        split; [destruct (this w3); reflexivity|]. split; [|split].
        -- split; [rewrite T3; destruct (this w); reflexivity|].
           intros a C. unfold emitted_since in C. cbn [effects upd] in C.
           rewrite E4, E3, <- !app_assoc, skipn_app, skipn_all, Nat.sub_diag in C.
           cbn [skipn app] in C.
           apply in_app_or in C as [C|[C|C]]; [exact (A2 a C)|discriminate|].
           exact (A4 a C).
        -- intros s _ _ C. discriminate.
        -- intros tid Ht _. now apply Hold.
      * (* the ring tone starts *)
        unfold _onStateStartRinging, _setStateTimeout, _playRingTone. cbn.
        set (tone := ringTone (CALL_STATE.eqb v CALL_STATE.INCOMING)).
        set (w4 := if CALL_STATE.eqb v CALL_STATE.CONNECTING then _ else _).
        assert (H4 : this w4 = set_stateTimeout (Some (nextTimerId w)) (this w3)
                     /\ timers w4
                        = timers w3
                          ++ [{| timer_id := nextTimerId w;
                                 callback := StateTimeout
                                               (CALL_STATE.eqb v CALL_STATE.INCOMING);
                                 delay := CONFIG.STATE_TIMEOUT env |}]
                     /\ exists es, effects w4
                                   = effects w3 ++ [AudioPlayInLoop tone] ++ es).
        { subst w4. destruct (CALL_STATE.eqb v CALL_STATE.CONNECTING); cbn;
            rewrite N3; repeat split.
          - eexists. rewrite <- app_assoc. reflexivity.
          - exists []. reflexivity. }
        destruct H4 as (T4 & M4 & es4 & E4).
        cbn [this upd timers]. rewrite T4, M4.
        split; [destruct (this w3); reflexivity|]. split; [|split].
        -- split; [|split].
           ++ unfold emitted_since. cbn [effects upd].
              rewrite E4, E3, <- !app_assoc, skipn_app, skipn_all, Nat.sub_diag.
              cbn [skipn app]. apply in_or_app. right. right. now left.
           ++ destruct (this w3); reflexivity.
           ++ apply in_or_app. right. now left.
        -- intros s _ _ C. discriminate.
        -- intros tid Ht Hlt C. rewrite map_app in C.
           apply in_app_or in C as [C|[C|[]]]; [exact (Hold tid Ht C)|].
           simpl in C. lia.
    + (* not an unanswered state: the ring tone stops *)
      unfold _onStateStopRinging. rewrite Hprev.
      set (w3' := if match previousState (this w) with
                     | Some s => CALL_STATE.includes (UNANSWERED env) s
                     | None => false
                     end
                  then _ else w3).
      assert (H3' : this w3' = this w3 /\ timers w3' = timers w3
                    /\ exists es, effects w3' = effects w3 ++ es
                                  /\ (forall a, ~ In (AudioPlayInLoop a) es)
                                  /\ (forall s, previousState (this w) = Some s ->
                                        CALL_STATE.includes (UNANSWERED env) s = true ->
                                        In (AudioStop
                                              (ringTone (CALL_STATE.eqb s CALL_STATE.INCOMING)))
                                           es)).
      { subst w3'. destruct (previousState (this w)) as [s|].
        - destruct (CALL_STATE.includes (UNANSWERED env) s) eqn:Es; cbn;
            repeat split.
          + eexists. split; [reflexivity|]. split.
            * intros a [C|[]]. discriminate.
            * intros s' [= <-] _. now left.
          + exists []. split; [now rewrite app_nil_r|]. split; [intros a []|].
            intros s' [= <-] C. congruence.
        - repeat split. exists []. split; [now rewrite app_nil_r|].
          split; [intros a []|]. intros s' C. discriminate. }
      destruct H3' as (T3' & M3' & es3 & E3' & A3' & S3').
      set (w4 := if CALL_STATE.eqb v CALL_STATE.CONNECTING
                 then effect TelemetryJoinedCall w3' else w3').
      assert (H4 : this w4 = this w3' /\ timers w4 = timers w3'
                   /\ exists es, effects w4 = effects w3' ++ es
                                 /\ forall a, ~ In (AudioPlayInLoop a) es).
      { subst w4. destruct (CALL_STATE.eqb v CALL_STATE.CONNECTING); cbn;
          repeat split.
        - eexists. split; [reflexivity|]. intros a [C|[]]. discriminate.
        - exists []. split; [now rewrite app_nil_r|]. intros a []. }
      destruct H4 as (T4 & M4 & es4 & E4 & A4).
      cbn [this upd timers]. rewrite T4, M4, T3', M3'.
      split; [destruct (this w3); reflexivity|]. split; [|split].
      * split; [rewrite T3; destruct (this w); reflexivity|].
        intros a C. unfold emitted_since in C. cbn [effects upd] in C.
        rewrite E4, E3', E3, <- !app_assoc, skipn_app, skipn_all, Nat.sub_diag in C.
        cbn [skipn app] in C.
        apply in_app_or in C as [C|[C|C]]; [exact (A2 a C)|discriminate|].
        apply in_app_or in C as [C|C]; [exact (A3' a C)|exact (A4 a C)].
      * intros s Hs Hin _ _. unfold emitted_since. cbn [effects upd].
        rewrite E4, E3', E3, <- !app_assoc, skipn_app, skipn_all, Nat.sub_diag.
        cbn [skipn app]. apply in_or_app. right. right.
        apply in_or_app. left. now apply S3'.
      * intros tid Ht _. now apply Hold.
Qed.

End CallEntityMore.

(* ------------------------------------------------------------------ *)
(** ** What the backend client does with a failed request *)
(* ------------------------------------------------------------------ *)

Section RequestFailures.

Import Backend.

Variable tb : Tables.
Variable SECOND : Z.

Lemma backend_emitted_since_app (c c' : BackendClient) (es : list Effect) :
  effects c' = effects c ++ es -> emitted_since c c' = es.
Proof.
  intros H. unfold emitted_since. rewrite H.
  rewrite skipn_app, skipn_all, Nat.sub_diag. reflexivity.
Qed.

Lemma settlements_app (c c' : BackendClient) (es : list Effect) :
  effects c' = effects c ++ es -> settlements c' = settlements c ++ filter is_settlement es.
Proof. intros H. unfold settlements. now rewrite H, filter_app. Qed.

(** The world after a failure for lack of connectivity. *)
Lemma onFail_connectivity (c : BackendClient) (r : Request) (response : option Response) :
  let c' := onFail tb r (CONNECTIVITY_PROBLEM tb) response c in
  queueState c' = QUEUE_STATE.CONNECTIVITY_PROBLEM
  /\ requestQueue c'
     = PromiseQueue.unshift r (PromiseQueue.pause true (requestQueue c))
  /\ running c' = running c
  /\ accessToken c' = accessToken c
  /\ effects c' = effects c ++ [LoggerInfo "Connectivity check requested"]
  /\ connectivityQueue c'
     = PromiseQueue.push ThenExecuteRequestQueue
         (PromiseQueue.pause true (connectivityQueue c))
  /\ connectivityTimeout c'
     = Some (match connectivityTimeout c with
             | Some pending => pending
             | None => INITIAL_TIMEOUT
             end).
Proof.
  cbv zeta. unfold onFail. rewrite Z.eqb_refl. cbv zeta.
  unfold executeOnConnectivity. cbv zeta.
  cbn [connectivityTimeout set_connectivityQueue emit _prependRequestQueue
       set_requestQueue set_queueState].
  destruct (connectivityTimeout c) eqn:E; cbn; rewrite ?E; repeat split; reflexivity.
Qed.

Lemma distinct_codes_facts :
  distinct_codes tb ->
  FORBIDDEN tb <> CONNECTIVITY_PROBLEM tb
  /\ UNAUTHORIZED tb <> CONNECTIVITY_PROBLEM tb
  /\ UNAUTHORIZED tb <> FORBIDDEN tb
  /\ is_empty_success tb (CONNECTIVITY_PROBLEM tb) = false
  /\ is_empty_success tb (FORBIDDEN tb) = false
  /\ is_empty_success tb (UNAUTHORIZED tb) = false.
Proof.
  unfold distinct_codes, is_empty_success. intros H.
  repeat match goal with
         | H : NoDup (_ :: _) |- _ =>
             let x := fresh "x" in
             let l := fresh "l" in
             let Hn := fresh "Hn" in
             let Hd := fresh "Hd" in
             inversion H as [|x l Hn Hd]; clear H; subst
         end.
  simpl in *.
  repeat split; try (intros E; rewrite ?E in *; tauto);
    repeat (apply orb_false_iff; split); apply Z.eqb_neq; intros E;
    rewrite ?E in *; tauto.
Qed.


Lemma dispatch_paused (c : BackendClient) :
  PromiseQueue._paused (requestQueue c) = true -> dispatch c = None.
Proof. intros H. unfold dispatch, PromiseQueue.shift. now rewrite H. Qed.


Lemma onFail_settling (c : BackendClient) (r : Request) (statusCode : Z)
      (response : option Response) :
  statusCode <> CONNECTIVITY_PROBLEM tb ->
  (statusCode =? FORBIDDEN tb) || is_empty_success tb statusCode
  || negb (statusCode =? UNAUTHORIZED tb) || skipRetry (config r) = true ->
  (statusCode = FORBIDDEN tb -> is_empty_success tb statusCode = false) ->
  let c' := onFail tb r statusCode response c in
  requestQueue c' = requestQueue c
  /\ queueState c' = queueState c
  /\ connectivityQueue c' = connectivityQueue c
  /\ connectivityTimeout c' = connectivityTimeout c
  /\ running c' = filter (fun x => negb (Nat.eqb (promise x) (promise r))) (running c)
  /\ exists reports,
      effects c' = effects c ++ reports ++ [Settle (promise r) (outcome tb statusCode response)]
      /\ filter is_settlement reports = []
      /\ (forall message endpoint method,
             In (RaygunSend message endpoint method) reports ->
             endpoint = url (config r) /\ method = type (config r)
             /\ ((statusCode = FORBIDDEN tb
                  /\ exists resp, response = Some resp
                                  /\ ~ In (label resp) (IGNORED_BACKEND_LABELS tb))
                 \/ ~ In statusCode (IGNORED_BACKEND_ERRORS tb))).
Proof.
  intros Hconn Hcase Hforb. cbv zeta. unfold onFail, outcome.
  destruct (Z.eqb_spec statusCode (CONNECTIVITY_PROBLEM tb)) as [E|_]; [contradiction|].
  destruct (Z.eqb_spec statusCode (FORBIDDEN tb)) as [Ef|Enf].
  - rewrite (Hforb Ef). cbn [andb].
    destruct response as [resp|].
    + destruct (existsb (String.eqb (label resp)) (IGNORED_BACKEND_LABELS tb)) eqn:El.
      * repeat split; try reflexivity.
        exists [LoggerWarn "Server request forbidden"]. split; [|split].
        -- cbn. rewrite <- app_assoc. reflexivity.
        -- reflexivity.
        -- intros m e t [C|[]]. discriminate.
      * repeat split; try reflexivity.
        exists [RaygunSend "Server request forbidden" (url (config r)) (type (config r))].
        split; [|split].
        -- cbn. rewrite <- app_assoc. reflexivity.
        -- reflexivity.
        -- intros m e t [C|[]]. injection C as <- <- <-.
           split; [reflexivity|]. split; [reflexivity|]. left. split; [exact Ef|].
           exists resp. split; [reflexivity|]. intros Hin.
           assert (existsb (String.eqb (label resp)) (IGNORED_BACKEND_LABELS tb) = true).
           { apply existsb_exists. exists (label resp). split; [exact Hin|].
             apply String.eqb_refl. }
           congruence.
    + repeat split; try reflexivity. exists []. split; [|split].
      * reflexivity.
      * reflexivity.
      * intros m e t [].
  - cbn [orb] in Hcase. fold (is_empty_success tb statusCode).
    destruct (is_empty_success tb statusCode) eqn:Es.
    + destruct response as [resp|]; cbn [JS.defined negb andb];
        repeat split; try reflexivity; exists []; (split; [reflexivity|]);
        (split; [reflexivity|]); intros m e t [].
    + cbn [orb andb] in *.
      assert (Hdef : forall c0,
                 let c1 := reject_request r response statusCode (default_case tb r statusCode c0) in
                 requestQueue c1 = requestQueue c0
                 /\ queueState c1 = queueState c0
                 /\ connectivityQueue c1 = connectivityQueue c0
                 /\ connectivityTimeout c1 = connectivityTimeout c0
                 /\ running c1
                    = filter (fun x => negb (Nat.eqb (promise x) (promise r))) (running c0)
                 /\ exists reports,
                     effects c1
                     = effects c0 ++ reports
                       ++ [Settle (promise r) (RejectedWith response statusCode)]
                     /\ filter is_settlement reports = []
                     /\ (forall message endpoint method,
                            In (RaygunSend message endpoint method) reports ->
                            endpoint = url (config r) /\ method = type (config r)
                            /\ ((statusCode = FORBIDDEN tb
                                 /\ exists resp, response = Some resp
                                                 /\ ~ In (label resp)
                                                         (IGNORED_BACKEND_LABELS tb))
                                \/ ~ In statusCode (IGNORED_BACKEND_ERRORS tb)))).
      { intros c0. cbv zeta. unfold default_case.
        destruct (existsb (Z.eqb statusCode) (IGNORED_BACKEND_ERRORS tb)) eqn:Ei;
          cbn [negb].
        - repeat split; try reflexivity. exists []. split; [reflexivity|].
          split; [reflexivity|]. intros m e t [].
        - repeat split; try reflexivity.
          exists [RaygunSend "Server request failed" (url (config r)) (type (config r))].
          split; [cbn; rewrite <- app_assoc; reflexivity|]. split; [reflexivity|].
          intros m e t [C|[]]. injection C as <- <- <-.
          split; [reflexivity|]. split; [reflexivity|]. right. intros Hin.
          assert (existsb (Z.eqb statusCode) (IGNORED_BACKEND_ERRORS tb) = true).
          { apply existsb_exists. exists statusCode. split; [exact Hin|]. apply Z.eqb_refl. }
          congruence. }
      destruct (statusCode =? UNAUTHORIZED tb) eqn:Eu.
      * cbn in Hcase. rewrite Hcase. cbn [negb]. apply Hdef.
      * apply Hdef.
Qed.


Lemma onFail_unauthorized (c : BackendClient) (r : Request) (response : option Response) :
  distinct_codes tb -> skipRetry (config r) = false ->
  onFail tb r (UNAUTHORIZED tb) response c
  = emit PublishAccessTokenRenew (_prependRequestQueue r c).
Proof.
  intros Hd Hs. destruct (distinct_codes_facts Hd) as (_ & H1 & H2 & _ & _ & H3).
  unfold onFail. unfold is_empty_success in H3.
  destruct (Z.eqb_spec (UNAUTHORIZED tb) (CONNECTIVITY_PROBLEM tb)); [contradiction|].
  destruct (Z.eqb_spec (UNAUTHORIZED tb) (FORBIDDEN tb)); [contradiction|].
  rewrite H3, Z.eqb_refl, Hs. reflexivity.
Qed.

(** X20: A failed request is either queued again or settled, never both: for a
    connectivity problem, and for 401 unless the request skips the retry,
    it goes to the front of the paused queue and its promise stays pending;
    in every other case the queue is untouched, the request is not running
    any more and its promise is settled once (resolved empty for an
    empty 2xx, rejected with the response or the status otherwise). *)
Theorem onFail_requeues_or_settles (c : BackendClient) (r : Request) (statusCode : Z)
        (response : option Response) :
  distinct_codes tb ->
  let c' := onFail tb r statusCode response c in
  if (statusCode =? CONNECTIVITY_PROBLEM tb)
     || ((statusCode =? UNAUTHORIZED tb) && negb (skipRetry (config r)))
  then PromiseQueue._queue (requestQueue c') = r :: PromiseQueue._queue (requestQueue c)
       /\ PromiseQueue._paused (requestQueue c') = true
       /\ running c' = running c
       /\ settlements c' = settlements c
       /\ dispatch c' = None
  else requestQueue c' = requestQueue c
       /\ queueState c' = queueState c
       /\ running c'
          = filter (fun x => negb (Nat.eqb (promise x) (promise r))) (running c)
       /\ settlements c'
          = settlements c
            ++ [Settle (promise r)
                  (if is_empty_success tb statusCode && negb (JS.defined response)
                   then ResolvedEmpty else RejectedWith response statusCode)].
Proof.
  intros Hd. cbv zeta.
  destruct (distinct_codes_facts Hd) as (F1 & F2 & F3 & S1 & S2 & S3).
  destruct (Z.eqb_spec statusCode (CONNECTIVITY_PROBLEM tb)) as [->|Hc]; cbn [orb].
  - destruct (onFail_connectivity c r response) as (_ & Hq & Hr & _ & He & _).
    cbv zeta in Hq, Hr, He. rewrite Hq, Hr.
    split; [reflexivity|]. split; [reflexivity|]. split; [reflexivity|].
    split; [rewrite (settlements_app _ _ _ He); apply app_nil_r|].
    apply dispatch_paused. rewrite Hq. reflexivity.
  - destruct ((statusCode =? UNAUTHORIZED tb) && negb (skipRetry (config r))) eqn:Eu.
    + apply andb_true_iff in Eu as [Eu Es]. apply Z.eqb_eq in Eu. subst statusCode.
      apply negb_true_iff in Es. rewrite (onFail_unauthorized c r response Hd Es).
      split; [reflexivity|]. split; [reflexivity|]. split; [reflexivity|].
      split; [|apply dispatch_paused; reflexivity].
      unfold settlements. cbn. rewrite filter_app. cbn. apply app_nil_r.
    + assert (Hcase : (statusCode =? FORBIDDEN tb) || is_empty_success tb statusCode
                      || negb (statusCode =? UNAUTHORIZED tb) || skipRetry (config r)
                      = true).
      { destruct (statusCode =? UNAUTHORIZED tb); cbn in *.
        - apply negb_false_iff in Eu. rewrite Eu. now rewrite !orb_true_r.
        - now rewrite !orb_true_r. }
      assert (Hforb : statusCode = FORBIDDEN tb -> is_empty_success tb statusCode = false)
        by (intros ->; exact S2).
      destruct (onFail_settling c r statusCode response Hc Hcase Hforb)
        as (Hq & Hs & _ & _ & Hr & reports & He & Hf & _).
      cbv zeta in Hq, Hs, Hr, He.
      split; [exact Hq|]. split; [exact Hs|]. split; [exact Hr|].
      rewrite (settlements_app _ _ _ He), filter_app, Hf. reflexivity.
Qed.

(** X21: A failure is escalated to crash reporting only when it is unexpected:
    a 403 whose label is not among the ignored labels, or a status that is
    not among the ignored errors; the report carries the endpoint and the
    method of the failed request. *)
Theorem onFail_reports_unexpected_failures_only
        (c : BackendClient) (r : Request) (statusCode : Z) (response : option Response)
        (message endpoint method : string) :
  distinct_codes tb ->
  In (RaygunSend message endpoint method)
     (emitted_since c (onFail tb r statusCode response c)) ->
  endpoint = url (config r) /\ method = type (config r)
  /\ ((statusCode = FORBIDDEN tb
       /\ exists resp, response = Some resp
                       /\ ~ In (label resp) (IGNORED_BACKEND_LABELS tb))
      \/ ~ In statusCode (IGNORED_BACKEND_ERRORS tb)).
Proof.
  intros Hd.
  destruct (distinct_codes_facts Hd) as (F1 & F2 & F3 & S1 & S2 & S3).
  destruct (Z.eqb_spec statusCode (CONNECTIVITY_PROBLEM tb)) as [->|Hc].
  - destruct (onFail_connectivity c r response) as (_ & _ & _ & _ & He & _).
    cbv zeta in He. rewrite (backend_emitted_since_app _ _ _ He).
    intros [C|[]]. discriminate.
  - destruct ((statusCode =? UNAUTHORIZED tb) && negb (skipRetry (config r))) eqn:Eu.
    + apply andb_true_iff in Eu as [Eu Es]. apply Z.eqb_eq in Eu. subst statusCode.
      apply negb_true_iff in Es. rewrite (onFail_unauthorized c r response Hd Es).
      assert (He : effects (emit PublishAccessTokenRenew (_prependRequestQueue r c))
                   = effects c ++ [PublishAccessTokenRenew]) by reflexivity.
      rewrite (backend_emitted_since_app _ _ _ He). intros [C|[]]. discriminate.
    + assert (Hcase : (statusCode =? FORBIDDEN tb) || is_empty_success tb statusCode
                      || negb (statusCode =? UNAUTHORIZED tb) || skipRetry (config r)
                      = true).
      { destruct (statusCode =? UNAUTHORIZED tb); cbn in *.
        - apply negb_false_iff in Eu. rewrite Eu. now rewrite !orb_true_r.
        - now rewrite !orb_true_r. }
      assert (Hforb : statusCode = FORBIDDEN tb -> is_empty_success tb statusCode = false)
        by (intros ->; exact S2).
      destruct (onFail_settling c r statusCode response Hc Hcase Hforb)
        as (_ & _ & _ & _ & _ & reports & He & _ & Hrep).
      cbv zeta in He. rewrite (backend_emitted_since_app _ _ _ He).
      intros Hin. apply in_app_or in Hin as [Hin|[C|[]]]; [|discriminate].
      exact (Hrep _ _ _ Hin).
Qed.


(** X22: When several running requests fail for lack of connectivity, they end
    up at the front of the paused request queue in the reverse order of
    their failures, before the requests that were waiting; the client is in
    CONNECTIVITY_PROBLEM with a recheck timeout set, nothing can be sent
    and none of the promises is settled. *)
Theorem connectivity_failures_requeue_in_reverse (rs : list Request) (c : BackendClient) :
  rs <> [] ->
  let c' := fail_all tb rs c in
  PromiseQueue._queue (requestQueue c') = rev rs ++ PromiseQueue._queue (requestQueue c)
  /\ PromiseQueue._paused (requestQueue c') = true
  /\ queueState c' = QUEUE_STATE.CONNECTIVITY_PROBLEM
  /\ connectivityTimeout c'
     = Some (match connectivityTimeout c with
             | Some pending => pending
             | None => INITIAL_TIMEOUT
             end)
  /\ PromiseQueue._queue (connectivityQueue c')
     = PromiseQueue._queue (connectivityQueue c)
       ++ repeat ThenExecuteRequestQueue (List.length rs)
  /\ PromiseQueue._paused (connectivityQueue c') = true
  /\ running c' = running c
  /\ settlements c' = settlements c
  /\ dispatch c' = None.
Proof.
  intros Hne. cbv zeta. unfold fail_all. revert c.
  induction rs as [|r rs IH]; intros c; [contradiction|]. cbn [fold_left].
  destruct (onFail_connectivity c r None) as (Hs & Hq & Hr & _ & He & Hcq & Hct).
  cbv zeta in Hs, Hq, Hr, He, Hcq, Hct.
  set (c1 := onFail tb r (CONNECTIVITY_PROBLEM tb) None c) in *.
  destruct rs as [|r' rs'].
  - cbn [fold_left rev app List.length repeat]. rewrite Hq, Hcq, Hr.
    repeat split; auto.
    + rewrite (settlements_app _ _ _ He). apply app_nil_r.
    + apply dispatch_paused. rewrite Hq. reflexivity.
  - assert (Hne' : r' :: rs' <> []) by discriminate.
    destruct (IH Hne' c1) as (A & B & C & D & E & F & G & H & I).
    rewrite A, B, C, D, E, F, G, H, I, Hq, Hcq, Hr, Hct.
    cbn [PromiseQueue._queue PromiseQueue.unshift PromiseQueue.pause PromiseQueue.push].
    split.
    { change (rev (r :: r' :: rs')) with (rev (r' :: rs') ++ [r]).
      rewrite <- app_assoc. reflexivity. }
    split; [reflexivity|]. split; [reflexivity|].
    split; [destruct (connectivityTimeout c); reflexivity|].
    split.
    { rewrite <- app_assoc. reflexivity. }
    split; [reflexivity|]. split; [reflexivity|].
    split; [|reflexivity].
    rewrite (settlements_app _ _ _ He). apply app_nil_r.
Qed.

Lemma unreachable_world (n : nat) :
  forall c,
    let c' := unreachable SECOND n c in
    queueState c' = queueState c
    /\ requestQueue c' = requestQueue c
    /\ running c' = running c
    /\ accessToken c' = accessToken c
    /\ settlements c' = settlements c
    /\ PromiseQueue._queue (connectivityQueue c') = PromiseQueue._queue (connectivityQueue c)
    /\ (n <> 0%nat ->
        PromiseQueue._paused (connectivityQueue c') = true
        /\ connectivityTimeout c' = Some (RECHECK_TIMEOUT SECOND)).
Proof.
  induction n as [|n IH]; intros c; cbv zeta; cbn [unreachable].
  - repeat split; auto; contradiction.
  - destruct (IH (_checkStatus SECOND StatusUnreachable c)) as (A & B & C & D & E & F & G).
    cbv zeta in A, B, C, D, E, F, G. rewrite A, B, C, D, E, F.
    repeat split; try reflexivity.
    + unfold settlements. cbn. rewrite filter_app. cbn. apply app_nil_r.
    + destruct n as [|n']; [reflexivity|]. apply G. discriminate.
    + destruct n as [|n']; [reflexivity|]. apply G. discriminate.
Qed.

(** X23: While the status endpoint stays unreachable the client stays in
    CONNECTIVITY_PROBLEM with the failed request waiting at the front of the
    paused queue and a recheck scheduled; the first answer of the endpoint
    resumes the queue, and the failed request is the first to be sent. *)
Theorem unreachable_backend_keeps_request_waiting
        (c : BackendClient) (r : Request) (n : nat) :
  let c1 := onFail tb r (CONNECTIVITY_PROBLEM tb) None c in
  let c2 := unreachable SECOND n c1 in
  queueState c2 = QUEUE_STATE.CONNECTIVITY_PROBLEM
  /\ PromiseQueue._queue (requestQueue c2) = r :: PromiseQueue._queue (requestQueue c)
  /\ PromiseQueue._paused (requestQueue c2) = true
  /\ dispatch c2 = None
  /\ settlements c2 = settlements c
  /\ JS.defined (connectivityTimeout c2) = true
  /\ (n <> 0%nat -> connectivityTimeout c2 = Some (RECHECK_TIMEOUT SECOND))
  /\ (forall answer,
         answer <> StatusUnreachable ->
         JS.truthy_string (accessToken c) = true ->
         let c3 := _checkStatus SECOND answer c2 in
         queueState c3 = QUEUE_STATE.READY
         /\ PromiseQueue._paused (requestQueue c3) = false
         /\ PromiseQueue._queue (requestQueue c3)
            = r :: PromiseQueue._queue (requestQueue c)
         /\ connectivityTimeout c3 = None
         /\ (forall x c4, dispatch c3 = Some (x, c4) -> x = r)).
Proof.
  cbv zeta.
  destruct (onFail_connectivity c r None) as (Hs & Hq & Hr & Ht & He & Hcq & Hct).
  cbv zeta in Hs, Hq, Hr, Ht, He, Hcq, Hct.
  set (c1 := onFail tb r (CONNECTIVITY_PROBLEM tb) None c) in *.
  destruct (unreachable_world n c1) as (A & B & C & D & E & F & G).
  cbv zeta in A, B, C, D, E, F, G.
  set (c2 := unreachable SECOND n c1) in *.
  assert (Hdef : JS.defined (connectivityTimeout c2) = true).
  { destruct n as [|n'].
    - subst c2. cbn [unreachable]. now rewrite Hct.
    - destruct G as [_ G]; [discriminate|]. now rewrite G. }
  split; [congruence|]. split; [rewrite B, Hq; reflexivity|].
  split; [rewrite B, Hq; reflexivity|].
  split; [apply dispatch_paused; rewrite B, Hq; reflexivity|].
  split; [rewrite E, (settlements_app _ _ _ He); apply app_nil_r|].
  split; [exact Hdef|]. split; [intros Hn; now apply G|].
  intros answer Hanswer Htok.
  assert (Hreset : _checkStatus SECOND answer c2
                   = _resetQueue (emit (LoggerInfo
                      (match answer with
                       | StatusDone => "Connectivity verified"
                       | _ => "Connectivity verified by server error"
                       end)) c2)).
  { destruct answer; try reflexivity. contradiction. }
  rewrite Hreset. clear Hreset.
  set (c4 := emit _ c2).
  unfold _resetQueue.
  assert (Hdef4 : JS.defined (connectivityTimeout c4) = true) by exact Hdef.
  rewrite Hdef4. cbv zeta.
  set (c5 := set_connectivityQueue _ c4).
  pose proof (continuations_facts (PromiseQueue._queue (connectivityQueue c4)) c5) as K.
  assert (Htok5 : JS.truthy_string (accessToken c5) = true)
    by (subst c5 c4; cbn; rewrite D, Ht; exact Htok).
  assert (Hq5 : PromiseQueue._queue (requestQueue c5)
                = r :: PromiseQueue._queue (requestQueue c))
    by (subst c5 c4; cbn; rewrite B, Hq; reflexivity).
  assert (Hks : PromiseQueue._queue (connectivityQueue c4) <> []).
  { subst c4. cbn. rewrite F, Hcq. cbn.
    destruct (PromiseQueue._queue (connectivityQueue c)); discriminate. }
  specialize (K Htok5 ltac:(rewrite Hq5; discriminate) Hks). cbv zeta in K.
  destruct K as (K1 & K2 & K3 & K4 & K5 & _).
  set (c6 := fold_left _ _ c5) in *.
  cbn [set_connectivityTimeout queueState requestQueue running connectivityTimeout].
  split; [exact K1|]. split; [exact K4|]. split; [rewrite K2; exact Hq5|].
  split; [reflexivity|].
  intros x cx. unfold dispatch. cbn [requestQueue running set_connectivityTimeout].
  unfold PromiseQueue.shift. rewrite K4, K2, Hq5.
  destruct (PromiseQueue.concurrent (requestQueue c6) <=? List.length (running c6))%nat;
    [discriminate|].
  now intros [= <- _].
Qed.

(** X24: A 401 for a request that may be retried publishes the token renewal
    and nothing else, queues the request at the front of the paused queue
    and settles nothing; once the queue is executed with an access token,
    that request is the first to be sent. *)
Theorem unauthorized_request_waits_for_token
        (c : BackendClient) (r : Request) (response : option Response) :
  distinct_codes tb -> skipRetry (config r) = false ->
  let c' := onFail tb r (UNAUTHORIZED tb) response c in
  emitted_since c c' = [PublishAccessTokenRenew]
  /\ queueState c' = queueState c
  /\ PromiseQueue._queue (requestQueue c') = r :: PromiseQueue._queue (requestQueue c)
  /\ PromiseQueue._paused (requestQueue c') = true
  /\ dispatch c' = None
  /\ (JS.truthy_string (accessToken c) = true ->
      let c'' := executeRequestQueue c' in
      queueState c'' = QUEUE_STATE.READY
      /\ PromiseQueue._paused (requestQueue c'') = false
      /\ (forall x c3, dispatch c'' = Some (x, c3) -> x = r)).
Proof.
  intros Hd Hs. cbv zeta. rewrite (onFail_unauthorized c r response Hd Hs).
  set (c' := emit PublishAccessTokenRenew (_prependRequestQueue r c)).
  assert (He : effects c' = effects c ++ [PublishAccessTokenRenew]) by reflexivity.
  split; [apply backend_emitted_since_app, He|].
  split; [reflexivity|]. split; [reflexivity|]. split; [reflexivity|].
  split; [apply dispatch_paused; reflexivity|].
  intros Htok.
  destruct (executeRequestQueue_facts c') as (A & B & C & D & E & _ & G).
  assert (Hq : PromiseQueue._queue (requestQueue c')
               = r :: PromiseQueue._queue (requestQueue c)) by reflexivity.
  assert (Hl : JS.truthy (Z.of_nat (PromiseQueue.getLength (requestQueue c'))) = true).
  { unfold PromiseQueue.getLength. rewrite Hq. reflexivity. }
  assert (Ht : JS.truthy_string (accessToken c') = true) by exact Htok.
  rewrite Ht, Hl in G. cbn [andb] in G.
  split; [exact A|]. split; [exact G|].
  intros x c3. unfold dispatch, PromiseQueue.shift. rewrite G, B, Hq.
  destruct (_ <=? _)%nat; [discriminate|]. now intros [= <- _].
Qed.

End RequestFailures.

(* ------------------------------------------------------------------ *)
(** ** The queue-unblock timeout; comparing mentions *)
(* ------------------------------------------------------------------ *)

Section QueueUnblockFacts.

Import Backend QueueUnblock.

Lemma tracked_clear (c : Client) : tracked c -> tracked (clearQueueUnblockTimeout c)
                                    /\ pending (clearQueueUnblockTimeout c) = [].
Proof.
  intros (Hnd & Hlt & Htr). unfold clearQueueUnblockTimeout.
  destruct (queueTimeout c) as [tid|] eqn:E.
  - assert (Hnone : filter (fun t => negb (Pos.eqb t tid)) (pending c) = []).
    { induction (pending c) as [|a l IH]; simpl; [reflexivity|].
      assert (Ha : Some tid = Some a) by (apply Htr; now left).
      injection Ha as ->. rewrite Pos.eqb_refl. simpl. apply IH.
      - now inversion Hnd.
      - now inversion Hlt.
      - intros t Ht. apply Htr. now right. }
    unfold tracked. simpl. rewrite Hnone. repeat split; try constructor.
    intros t [].
  - split.
    { split; [exact Hnd|split; [exact Hlt|]]. intros t Ht. rewrite E. apply Htr, Ht. }
    destruct (pending c) as [|a l]; [reflexivity|].
    assert (Ha : None = Some a) by (apply Htr; now left). discriminate.
Qed.

Lemma tracked_run (op : Operation) (c : Client) : tracked c -> tracked (run op c).
Proof.
  intros H. destruct op; cbn [run].
  - apply tracked_clear, H.
  - destruct (tracked_clear c H) as [(Hnd & Hlt & Htr) Hnone].
    unfold scheduleQueueUnblock. cbv zeta. unfold tracked. simpl. rewrite Hnone. simpl.
    assert (Hn : nextTimeout (clearQueueUnblockTimeout c) = nextTimeout c)
      by (unfold clearQueueUnblockTimeout; destruct (queueTimeout c); reflexivity).
    repeat split.
    + repeat constructor. intros [].
    + repeat constructor. lia.
    + intros t [<-|[]]. reflexivity.
  - destruct H as (Hnd & Hlt & Htr). unfold fire.
    destruct (existsb (Pos.eqb tid) (pending c)); [|repeat split; assumption].
    unfold onQueueUnblock. cbn [backend queueTimeout pending nextTimeout logged].
    assert (Hsub : forall t, In t (filter (fun t => negb (Pos.eqb t tid)) (pending c)) ->
                             In t (pending c))
      by (intros t Ht; now apply filter_In in Ht).
    assert (T : tracked {| backend := backend c; queueTimeout := queueTimeout c;
                           pending := filter (fun t => negb (Pos.eqb t tid)) (pending c);
                           nextTimeout := nextTimeout c; logged := logged c |}).
    { repeat split; simpl.
      - now apply NoDup_filter.
      - now apply Forall_filter.
      - intros t Ht. apply Htr, Hsub, Ht. }
    destruct (QUEUE_STATE.eqb _ _); exact T.
  - exact H.
Qed.

Lemma same_value_short (l : list positive) (v : positive) :
  NoDup l -> (forall t, In t l -> t = v) -> (List.length l <= 1)%nat.
Proof.
  destruct l as [|a [|b l]]; simpl; intros Hnd Hall; try lia.
  exfalso. inversion Hnd as [|x xs Hnotin _]; subst. apply Hnotin. left.
  rewrite (Hall a), (Hall b); auto.
Qed.

(** X25: The client holds at most one queue-unblock timeout at any time, and it
    is the one it tracks.  A firing of such a timeout neither pauses nor
    resumes the request queue nor changes the request sent next; it only
    resets the queue state from ACCESS_TOKEN_REFRESH to READY, and only
    when the timeout is the one the client holds. *)
Theorem queue_unblock_timeout (ops : list Operation) (c : BackendClient) (next : positive) :
  let c' := run_all ops (create c next) in
  (List.length (pending c') <= 1)%nat
  /\ (forall t, In t (pending c') -> queueTimeout c' = Some t)
  /\ (forall tid,
         PromiseQueue._paused (requestQueue (backend (fire tid c')))
         = PromiseQueue._paused (requestQueue (backend c'))
         /\ option_map fst (dispatch (backend (fire tid c')))
            = option_map fst (dispatch (backend c'))
         /\ (queueState (backend (fire tid c')) = queueState (backend c')
             \/ (queueState (backend c') = QUEUE_STATE.ACCESS_TOKEN_REFRESH
                 /\ queueState (backend (fire tid c')) = QUEUE_STATE.READY
                 /\ queueTimeout c' = Some tid))).
Proof.
  cbv zeta.
  assert (T : tracked (run_all ops (create c next))).
  { unfold run_all.
    assert (T0 : tracked (create c next)) by (repeat split; simpl; try constructor;
                                              intros t []).
    revert T0. generalize (create c next) as c0.
    induction ops as [|op ops IH]; intros c0 T0; simpl; [exact T0|].
    apply IH, tracked_run, T0. }
  set (c' := run_all ops (create c next)) in *.
  destruct T as (Hnd & Hlt & Htr).
  split; [|split; [exact Htr|]].
  - destruct (queueTimeout c') as [v|] eqn:E.
    + apply (same_value_short _ v Hnd). intros t Ht. apply Htr in Ht. congruence.
    + destruct (pending c') as [|a l]; simpl; [lia|].
      assert (None = Some a) by (apply Htr; now left). discriminate.
  - intros tid. unfold fire.
    destruct (existsb (Pos.eqb tid) (pending c')) eqn:Ex; [|auto].
    apply existsb_exists in Ex as (x & Hx & Ee). apply Pos.eqb_eq in Ee. subst x.
    unfold onQueueUnblock. cbn [backend queueTimeout pending nextTimeout logged].
    destruct (queueState (backend c')) eqn:Es; cbn; rewrite ?Es; auto.
    split; [reflexivity|]. split; [|right; auto].
    unfold dispatch. cbn [requestQueue running set_queueState].
    destruct (PromiseQueue.shift _ _) as [[x q]|]; reflexivity.
Qed.

End QueueUnblockFacts.

Section MentionsFacts.

Import MessageComparator.

Lemma char_compare_cases (a b : Ascii.ascii) :
  match Ascii.compare a b with
  | Eq => Ascii.N_of_ascii a = Ascii.N_of_ascii b
  | Lt => (Ascii.N_of_ascii a < Ascii.N_of_ascii b)%N
  | Gt => (Ascii.N_of_ascii b < Ascii.N_of_ascii a)%N
  end.
Proof.
  unfold Ascii.compare.
  destruct (N.compare_spec (Ascii.N_of_ascii a) (Ascii.N_of_ascii b)); assumption.
Qed.

Lemma string_leb_trans (s1 : string) :
  forall s2 s3,
    String.leb s1 s2 = true -> String.leb s2 s3 = true -> String.leb s1 s3 = true.
Proof.
  unfold String.leb.
  induction s1 as [|c1 r1 IH]; intros [|c2 r2] [|c3 r3]; simpl; try reflexivity;
    try discriminate.
  pose proof (char_compare_cases c1 c2) as H12.
  pose proof (char_compare_cases c2 c3) as H23.
  pose proof (char_compare_cases c1 c3) as H13.
  destruct (Ascii.compare c1 c2); destruct (Ascii.compare c2 c3);
    destruct (Ascii.compare c1 c3); try reflexivity; try discriminate;
    try (intros; exfalso; lia).
  apply IH.
Qed.


Lemma insert_perm (s : string) (l : list string) : Permutation (insert s l) (s :: l).
Proof.
  induction l as [|t l IH]; simpl; [reflexivity|].
  destruct (String.leb s t); [reflexivity|]. rewrite IH. apply perm_swap.
Qed.

Lemma sort_perm (l : list string) : Permutation (sort l) l.
Proof.
  induction l as [|s l IH]; simpl; [reflexivity|].
  rewrite insert_perm. now constructor.
Qed.

Lemma insert_sorted (s : string) (l : list string) :
  StronglySorted string_le l -> StronglySorted string_le (insert s l).
Proof.
  induction l as [|t l IH]; simpl; intros Hs.
  - repeat constructor.
  - inversion Hs as [|x xs Hs' Hall]; subst.
    destruct (String.leb s t) eqn:E.
    + constructor; [exact Hs|]. constructor; [exact E|].
      eapply Forall_impl; [|exact Hall]. intros a Ha.
      exact (string_leb_trans s t a E Ha).
    + constructor; [apply IH, Hs'|].
      eapply Permutation_Forall; [symmetry; apply insert_perm|].
      constructor; [|exact Hall].
      destruct (String.leb_total s t) as [C|C]; [congruence|exact C].
Qed.

Lemma sort_sorted (l : list string) : StronglySorted string_le (sort l).
Proof.
  induction l as [|s l IH]; simpl; [constructor|]. apply insert_sorted, IH.
Qed.

Lemma sorted_perm_eq (l1 : list string) :
  forall l2,
    StronglySorted string_le l1 -> StronglySorted string_le l2 ->
    Permutation l1 l2 -> l1 = l2.
Proof.
  induction l1 as [|a l1 IH]; intros l2 H1 H2 Hp.
  - apply Permutation_nil in Hp. now subst.
  - destruct l2 as [|b l2]; [symmetry in Hp; apply Permutation_nil in Hp; discriminate|].
    inversion H1 as [|x xs Hs1 Hall1]; subst.
    inversion H2 as [|y ys Hs2 Hall2]; subst.
    assert (Hab : a = b).
    { assert (Ha : In a (b :: l2)) by (eapply Permutation_in; [exact Hp|now left]).
      assert (Hb : In b (a :: l1))
        by (eapply Permutation_in; [symmetry; exact Hp|now left]).
      destruct Ha as [->|Ha]; [reflexivity|].
      destruct Hb as [->|Hb]; [reflexivity|].
      rewrite Forall_forall in Hall1, Hall2.
      apply String.leb_antisym; [apply Hall1, Hb|apply Hall2, Ha]. }
    subst b. f_equal. apply IH; auto. eapply Permutation_cons_inv. exact Hp.
Qed.

Lemma some_indexed_false (A : Type) (f : A -> nat -> bool) (l : list A) :
  forall k,
    some_indexed f k l = false <->
    (forall i x, nth_error l i = Some x -> f x (k + i)%nat = false).
Proof.
  induction l as [|a l IH]; intros k; simpl.
  - split; [intros _ [|i] x; discriminate|reflexivity].
  - rewrite orb_false_iff, IH. split.
    + intros [Ha Hl] [|i] x; simpl.
      * intros [= <-]. now rewrite Nat.add_0_r.
      * intros Hx. rewrite Nat.add_succ_r. now apply Hl.
    + intros H. split.
      * specialize (H 0%nat a eq_refl). now rewrite Nat.add_0_r in H.
      * intros i x Hx. specialize (H (S i) x Hx). now rewrite Nat.add_succ_r in H.
Qed.

Lemma same_entries (l1 : list string) :
  forall l2,
    List.length l1 = List.length l2 ->
    (forall i x, nth_error l1 i = Some x -> nth_error l2 i = Some x) ->
    l1 = l2.
Proof.
  induction l1 as [|a l1 IH]; intros [|b l2] Hlen H; try discriminate; [reflexivity|].
  assert (Hab : Some b = Some a) by (apply (H 0%nat a); reflexivity).
  injection Hab as ->. f_equal. apply IH; [now injection Hlen|].
  intros i x Hx. exact (H (S i) x Hx).
Qed.

Lemma areMentionsDifferent_sorted (original updated : list MentionEntity) :
  areMentionsDifferent original updated = false <->
  flattenToUserId original = flattenToUserId updated.
Proof.
  unfold areMentionsDifferent. cbv zeta.
  rewrite orb_false_iff, negb_false_iff, Nat.eqb_eq, some_indexed_false.
  split.
  - intros [Hlen H]. apply same_entries; [exact Hlen|].
    intros i x Hx. specialize (H i x Hx). simpl in H.
    destruct (nth_error (flattenToUserId updated) i) as [y|]; [|discriminate].
    apply negb_false_iff, String.eqb_eq in H. now subst.
  - intros E. rewrite E. split; [reflexivity|].
    intros i x Hx. simpl. rewrite Hx. apply negb_false_iff, String.eqb_refl.
Qed.

(** X26: [areMentionsDifferent] answers false exactly when the user ids of the
    two lists of mentions are the same up to order, counting
    repetitions. *)
Theorem areMentionsDifferent_iff_not_permutation
        (original updated : list MentionEntity) :
  areMentionsDifferent original updated = false <->
  Permutation (map userId original) (map userId updated).
Proof.
  rewrite areMentionsDifferent_sorted. unfold flattenToUserId. split.
  - intros E. rewrite <- (sort_perm (map userId original)), E. apply sort_perm.
  - intros Hp. apply sorted_perm_eq; try apply sort_sorted.
    rewrite !sort_perm. exact Hp.
Qed.

End MentionsFacts.

(* ------------------------------------------------------------------ *)
(** ** Instances on the sample call and the sample client *)
(* ------------------------------------------------------------------ *)

(** The contracts of the sample environment and of the sample tables. *)
Lemma sample_updateState_contract : CallEntity.updateState_contract Samples.environment.
Proof. intros p m e H. discriminate H. Qed.


Lemma sample_distinct_codes : Backend.distinct_codes Samples.tables.
Proof.
  unfold Backend.distinct_codes. simpl.
  repeat (constructor; [simpl; intros H; repeat (destruct H as [H|H]; [discriminate H|]);
                        exact H|]).
  constructor.
Qed.

Lemma sample_connected_call_reachable :
  CallEntity.reachable Samples.environment Samples.connected_call.
Proof.
  exists "conversation-1", true, ["bob"; "carol"], Samples.bob, Samples.alice,
    false, (Some "session-1"), [], 1%positive,
    [CallEntity.AddOrUpdateParticipant "bob" true None; CallEntity.SetConnected true].
  split; [|reflexivity]. repeat split; constructor.
Qed.

(** An instance: bob, who joined the group call, is deleted from it. *)
Lemma deleteParticipant_removes_witness :
  fst (CallEntity.getParticipantById "bob" Samples.bob_joined)
  = Resolved Samples.bob_participant
  /\ CallEntity.verify_if_given Samples.bob_participant None
     = Resolved Samples.bob_participant
  /\ fst (CallEntity.deleteParticipant Samples.environment "bob" None
                                       (Some TERMINATION_REASON.OTHER_USER)
                                       Samples.bob_joined)
     = Resolved tt.
Proof.
  assert (Hp : fst (CallEntity.getParticipantById "bob" Samples.bob_joined)
               = Resolved Samples.bob_participant)
    by (vm_compute; reflexivity).
  assert (Hv : CallEntity.verify_if_given Samples.bob_participant None
               = Resolved Samples.bob_participant)
    by (vm_compute; reflexivity).
  split; [exact Hp|]. split; [exact Hv|].
  exact (proj1 (deleteParticipant_removes Samples.environment Samples.bob_joined "bob"
                  None (Some TERMINATION_REASON.OTHER_USER)
                  Samples.bob_participant Samples.bob_participant Hp Hv)).
Defined.

(** An instance: bob joins the group call and is found in it. *)
Lemma addOrUpdateParticipant_then_lookup_witness :
  CallEntity.repository_contract Samples.environment
  /\ CallEntity.updateState_contract Samples.environment
  /\ fst (CallEntity.addOrUpdateParticipant Samples.environment "bob" true None
                                            Samples.group_call)
     = Resolved Samples.bob_participant
  /\ In Samples.bob_participant
        (Call.participants
           (Call.this
              (snd (CallEntity.addOrUpdateParticipant Samples.environment "bob" true None
                                                      Samples.group_call)))).
Proof.
  assert (Hp : fst (CallEntity.addOrUpdateParticipant Samples.environment "bob" true None
                                                      Samples.group_call)
               = Resolved Samples.bob_participant)
    by (vm_compute; reflexivity).
  split; [exact sample_repository_contract|].
  split; [exact sample_updateState_contract|].
  split; [exact Hp|].
  exact (proj2 (proj2 (addOrUpdateParticipant_then_lookup Samples.environment
                         Samples.group_call "bob" true None Samples.bob_participant
                         sample_repository_contract sample_updateState_contract Hp))).
Defined.




(** An instance: nobody joins the fresh group call in time. *)
Lemma verify_timeout_deletes_call_witness :
  CallEntity.heartbeat_invariant Samples.group_call
  /\ In Samples.verify_timer (Call.timers Samples.group_call)
  /\ Call.callback Samples.verify_timer = Call.VerifyGroupCheckTimeout
  /\ filter CallEntity.is_deletion
            (CallEntity.emitted_since Samples.group_call
               (CallEntity.fire Samples.environment (Call.timer_id Samples.verify_timer)
                                Samples.group_call))
     = [Call.RepositoryDeleteCall (Call.id (Call.this Samples.group_call))].
Proof.
  assert (Hinv : CallEntity.heartbeat_invariant Samples.group_call)
    by exact (reachable_heartbeat _ _ sample_group_call_reachable).
  assert (Hin : In Samples.verify_timer (Call.timers Samples.group_call))
    by (vm_compute; left; reflexivity).
  split; [exact Hinv|]. split; [exact Hin|]. split; [reflexivity|].
  exact (proj1 (verify_timeout_deletes_call Samples.environment Samples.verify_timer
                  Samples.group_call Hinv Hin eq_refl)).
Defined.

(** An instance: the group check of the connected call with bob is due. *)
Lemma send_timeout_continues_heartbeat_witness :
  CallEntity.heartbeat_invariant Samples.connected_call
  /\ In Samples.send_timer (Call.timers Samples.connected_call)
  /\ Call.callback Samples.send_timer = Call.SendGroupCheckTimeout 60
  /\ Call.participants (Call.this Samples.connected_call) <> []
  /\ Call.groupCheckTimeoutId
       (Call.this (CallEntity.fire Samples.environment (Call.timer_id Samples.send_timer)
                                   Samples.connected_call))
     = Some (Call.nextTimerId Samples.connected_call).
Proof.
  assert (Hinv : CallEntity.heartbeat_invariant Samples.connected_call)
    by exact (reachable_heartbeat _ _ sample_connected_call_reachable).
  assert (Hin : In Samples.send_timer (Call.timers Samples.connected_call))
    by (vm_compute; left; reflexivity).
  assert (Hps : Call.participants (Call.this Samples.connected_call) <> [])
    by (vm_compute; discriminate).
  split; [exact Hinv|]. split; [exact Hin|]. split; [reflexivity|]. split; [exact Hps|].
  exact (proj1 (proj2 (send_timeout_continues_heartbeat Samples.environment
                         Samples.send_timer 60 Samples.connected_call
                         Hinv Hin eq_refl Hps))).
Defined.

(** An instance: the fresh group call becomes an incoming call. *)
Lemma ring_tone_follows_state_witness :
  Call.state (Call.this Samples.group_call) <> CALL_STATE.INCOMING
  /\ Call.state (Call.this (CallEntity.write_state Samples.environment
                                                   CALL_STATE.INCOMING
                                                   Samples.group_call))
     = CALL_STATE.INCOMING.
Proof.
  assert (Hne : Call.state (Call.this Samples.group_call) <> CALL_STATE.INCOMING)
    by (vm_compute; discriminate).
  split; [exact Hne|].
  exact (proj1 (ring_tone_follows_state Samples.environment CALL_STATE.INCOMING
                  Samples.group_call Hne)).
Defined.

(** An instance: the running request is answered with 404. *)
Lemma onFail_requeues_or_settles_witness :
  Backend.distinct_codes Samples.tables
  /\ Backend.requestQueue
       (Backend.onFail Samples.tables (Samples.request "/self" 0) 404 None Samples.client)
     = Backend.requestQueue Samples.client.
Proof.
  split; [exact sample_distinct_codes|].
  exact (proj1 (onFail_requeues_or_settles Samples.tables Samples.client
                  (Samples.request "/self" 0) 404 None sample_distinct_codes)).
Defined.

(** An instance: the running request is answered with 418. *)
Lemma onFail_reports_unexpected_failures_only_witness :
  Backend.distinct_codes Samples.tables
  /\ In (Backend.RaygunSend "Server request failed" "/self" "GET")
        (Backend.emitted_since Samples.client
           (Backend.onFail Samples.tables (Samples.request "/self" 0) 418 None
                           Samples.client))
  /\ "/self" = Backend.url (Backend.config (Samples.request "/self" 0)).
Proof.
  assert (Hin : In (Backend.RaygunSend "Server request failed" "/self" "GET")
                   (Backend.emitted_since Samples.client
                      (Backend.onFail Samples.tables (Samples.request "/self" 0) 418 None
                                      Samples.client)))
    by (vm_compute; left; reflexivity).
  split; [exact sample_distinct_codes|]. split; [exact Hin|].
  exact (proj1 (onFail_reports_unexpected_failures_only Samples.tables Samples.client
                  (Samples.request "/self" 0) 418 None
                  "Server request failed" "/self" "GET" sample_distinct_codes Hin)).
Defined.

(** An instance: two running requests lose the connection one after the
    other. *)
Lemma connectivity_failures_requeue_in_reverse_witness :
  [Samples.request "/self" 0; Samples.request "/assets" 5] <> []
  /\ PromiseQueue._queue
       (Backend.requestQueue
          (Backend.fail_all Samples.tables
             [Samples.request "/self" 0; Samples.request "/assets" 5] Samples.client))
     = rev [Samples.request "/self" 0; Samples.request "/assets" 5]
       ++ PromiseQueue._queue (Backend.requestQueue Samples.client).
Proof.
  assert (Hne : [Samples.request "/self" 0; Samples.request "/assets" 5] <> [])
    by discriminate.
  split; [exact Hne|].
  exact (proj1 (connectivity_failures_requeue_in_reverse Samples.tables
                  [Samples.request "/self" 0; Samples.request "/assets" 5]
                  Samples.client Hne)).
Defined.

(** An instance: the running request is answered with 401. *)
Lemma unauthorized_request_waits_for_token_witness :
  Backend.distinct_codes Samples.tables
  /\ Backend.skipRetry (Backend.config (Samples.request "/self" 0)) = false
  /\ Backend.emitted_since Samples.client
       (Backend.onFail Samples.tables (Samples.request "/self" 0)
                       (Backend.UNAUTHORIZED Samples.tables) None Samples.client)
     = [Backend.PublishAccessTokenRenew].
Proof.
  split; [exact sample_distinct_codes|]. split; [reflexivity|].
  exact (proj1 (unauthorized_request_waits_for_token Samples.tables Samples.client
                  (Samples.request "/self" 0) None sample_distinct_codes eq_refl)).
Defined.
